(** * Credit simulator: the scoring heuristic of [page.tsx]

    A shallow embedding of [calculateWeights], [calculateWorstCaseImpact]
    and [runSimulation], the three callbacks that make up the simulation
    core of the credit simulator, together with the part of the JavaScript
    number semantics they rely on.

    JavaScript numbers are IEEE 754 binary64 values; they are modelled by
    Rocq's primitive floats, whose operations are the same correctly
    rounded binary64 operations.  The exact value of a number is read
    through [Prim2SF] as a rational. *)

From Stdlib Require Import ZArith QArith Qpower Qround Qabs Qfield Uint63 Floats Lia Lqa.
From Stdlib Require Import Bool List String Ascii DecimalString Morphisms.
Import ListNotations.

Set Warnings "-inexact-float".

Local Open Scope float_scope.

(** ** JavaScript numbers *)

Module JS.

(** The exact value of a finite number, as a rational; zero for the
    values that have none. *)
Definition SF2Q (x : spec_float) : Q :=
  match x with
  | S754_finite s m e =>
      ((if s then (-1)%Z else 1%Z) * Zpos m # 1) * Qpower (2 # 1) e
  | _ => 0%Q
  end.

Definition F2Q (x : float) : Q := SF2Q (Prim2SF x).

(** The number nearest to a rational, ties to even: the rounding of
    numeric literals and of decimal strings. *)
Definition Z2SF (z : Z) : spec_float :=
  match z with
  | Z0 => S754_zero false
  | Zpos p => S754_finite false p 0
  | Zneg p => S754_finite true p 0
  end.

Definition Q2F (q : Q) : float :=
  SF2Prim (SFdiv prec emax (Z2SF (Qnum q)) (S754_finite false (Qden q) 0)).

(** [x || d] on numbers: [NaN], [+0] and [-0] are falsy. *)
Definition truthy (x : float) : bool := negb (is_nan x || is_zero x).

Definition or_else (x d : float) : float := if truthy x then x else d.

(** [Math.max] and [Math.min] of two arguments: [NaN] is contagious and
    [+0] is larger than [-0]. *)
Definition Math_max (a b : float) : float :=
  if is_nan a || is_nan b then nan
  else if a <? b then b
  else if b <? a then a
  else if get_sign a then b else a.

Definition Math_min (a b : float) : float :=
  if is_nan a || is_nan b then nan
  else if a <? b then a
  else if b <? a then b
  else if get_sign a then a else b.

(** [Math.round]: the integer nearest to [x], the larger one in a tie;
    [NaN], the infinities and the numbers from [2^52] on, which are
    integers already, are returned as they are, and a result of zero keeps
    the sign of [x]. *)
Definition of_Z (z : Z) : float :=
  if (z <? 0)%Z then - of_uint63 (Uint63.of_Z (- z)) else of_uint63 (Uint63.of_Z z).

Definition round_half_up (q : Q) : Z := Qfloor (q + (1 # 2)).

Definition Math_round (x : float) : float :=
  if negb (is_finite x) then x
  else if 4503599627370496 <=? abs x then x
  else
    let z := round_half_up (F2Q x) in
    if get_sign x then - of_uint63 (Uint63.of_Z (- z)) else of_uint63 (Uint63.of_Z z).

(** *** Strings of numbers *)

Definition digits_of (n : Z) : string :=
  NilZero.string_of_uint (N.to_uint (Z.to_N n)).

Fixpoint zeros (n : nat) : string :=
  match n with
  | O => EmptyString
  | S k => String "0" (zeros k)
  end.

Definition pow10 (n : Z) : Q := Qpower (10 # 1) n.

(** [Number::toString]: the shortest decimal that reads back as [x].
    [decimal_exponent q] is the [n] with [10^(n-1) <= q < 10^n]. *)
Fixpoint exponent_up (fuel : nat) (q : Q) (n : Z) : Z :=
  match fuel with
  | O => n
  | S k => if Qle_bool (pow10 n) q then exponent_up k q (n + 1) else n
  end.

Fixpoint exponent_down (fuel : nat) (q : Q) (n : Z) : Z :=
  match fuel with
  | O => n
  | S k => if Qle_bool (pow10 (n - 1)) q then n else exponent_down k q (n - 1)
  end.

Definition decimal_exponent (q : Q) : Z :=
  if Qle_bool 1 q then exponent_up 400 q 1 else exponent_down 400 q 0.

(** The candidates [(s, n)] with [k] digits near [q]. *)
Definition candidates (q : Q) (n0 k : Z) : list (Z * Z) :=
  flat_map (fun n =>
    let t := Qfloor (q * pow10 (k - n)) in
    filter (fun sn => (10 ^ (k - 1) <=? fst sn)%Z && (fst sn <? 10 ^ k)%Z)
           [(t, n); ((t + 1)%Z, n)])
    [n0; (n0 + 1)%Z].

Definition reads_back (x : float) (sn : Z * Z) (k : Z) : bool :=
  PrimFloat.Leibniz.eqb (Q2F (inject_Z (fst sn) * pow10 (snd sn - k))) x.

(** Of two candidates the one nearer to [q]; of two equally near, the one
    with the even last digit. *)
Definition closer (q : Q) (k : Z) (a b : Z * Z) : Z * Z :=
  let da := Qabs (inject_Z (fst a) * pow10 (snd a - k) - q) in
  let db := Qabs (inject_Z (fst b) * pow10 (snd b - k) - q) in
  if Qle_bool da db then
    if Qle_bool db da then (if Z.even (fst a) then a else b) else a
  else b.

Fixpoint shortest (fuel : nat) (x : float) (q : Q) (n0 k : Z) : Z * Z * Z :=
  match fuel with
  | O => (0%Z, n0, k)
  | S f =>
      match filter (fun sn => reads_back x sn k) (candidates q n0 k) with
      | [] => shortest f x q n0 (k + 1)
      | c :: cs => (fold_left (closer q k) cs c, k)
      end
  end.

Definition insert_point (m : string) (a : nat) : string :=
  (substring 0 a m ++ "." ++ substring a (String.length m - a) m)%string.

Definition exponent_string (e : Z) : string :=
  ((if (e <? 0)%Z then "-" else "+") ++ digits_of (Z.abs e))%string.

Definition Number_toString (x : float) : string :=
  if is_nan x then "NaN"%string
  else if is_zero x then "0"%string
  else if is_infinity x then (if get_sign x then "-Infinity" else "Infinity")%string
  else
    let q := Qabs (F2Q x) in
    let '(s, n, k) := shortest 20 (abs x) q (decimal_exponent q) 1 in
    let m := digits_of s in
    let body :=
      if ((k <=? n) && (n <=? 21))%Z then (m ++ zeros (Z.to_nat (n - k)))%string
      else if ((0 <? n) && (n <=? 21))%Z then insert_point m (Z.to_nat n)
      else if ((-6 <? n) && (n <=? 0))%Z then ("0." ++ zeros (Z.to_nat (- n)) ++ m)%string
      else if (k =? 1)%Z then (m ++ "e" ++ exponent_string (n - 1))%string
      else (insert_point m 1 ++ "e" ++ exponent_string (n - 1))%string in
    ((if get_sign x then "-" else "") ++ body)%string.

(** [Number.prototype.toFixed] with [f] fraction digits, [f <= 100]. *)
Definition toFixed (x : float) (f : nat) : string :=
  if negb (is_finite x) then Number_toString x
  else
    let q := Qabs (F2Q x) in
    let neg := negb (Qle_bool 0 (F2Q x)) in
    let m :=
      if Qle_bool (pow10 21) q then Number_toString (abs x)
      else
        let n := round_half_up (q * pow10 (Z.of_nat f)) in
        let m := digits_of n in
        match f with
        | O => m
        | _ =>
            let k := String.length m in
            let m := if (k <=? f)%nat then (zeros (f + 1 - k) ++ m)%string else m in
            insert_point m (String.length m - f)
        end in
    ((if neg then "-" else "") ++ m)%string.

(** [parseFloat] on the decimal literals that [toFixed] and
    [Number::toString] write: an optional sign, digits, an optional
    fraction, an optional exponent; anything after that is ignored, and a
    string with no such prefix gives [NaN]. *)
Definition is_digit (c : ascii) : bool :=
  (48 <=? nat_of_ascii c)%nat && (nat_of_ascii c <=? 57)%nat.

Fixpoint take_digits (s : string) (acc : Z) (len : nat) : Z * nat * string :=
  match s with
  | String c r =>
      if is_digit c
      then take_digits r (10 * acc + Z.of_nat (nat_of_ascii c - 48))%Z (S len)
      else (acc, len, s)
  | EmptyString => (acc, len, s)
  end.

Definition take_exponent (s : string) : Z :=
  match s with
  | String c r =>
      if (Ascii.eqb c "e" || Ascii.eqb c "E")%bool then
        match r with
        | String "+" r' =>
            let '(e, l, _) := take_digits r' 0%Z O in e
        | String "-" r' =>
            let '(e, l, _) := take_digits r' 0%Z O in (- e)%Z
        | _ => let '(e, l, _) := take_digits r 0%Z O in e
        end
      else 0%Z
  | EmptyString => 0%Z
  end.

Definition parse_unsigned (s : string) : option Q :=
  let '(ip, il, r) := take_digits s 0%Z O in
  let '(fp, fl, r') :=
    match r with
    | String "." t => take_digits t 0%Z O
    | _ => (0%Z, O, r)
    end in
  match il, fl with
  | O, O => None
  | _, _ =>
      Some (inject_Z (ip * 10 ^ Z.of_nat fl + fp) * pow10 (take_exponent r' - Z.of_nat fl))%Q
  end.

Definition parse_magnitude (s : string) : float :=
  match parse_unsigned s with
  | Some q => Q2F q
  | None => if prefix "Infinity" s then infinity else nan
  end.

Definition parseFloat (s : string) : float :=
  match s with
  | String "-" r => - parse_magnitude r
  | String "+" r => parse_magnitude r
  | _ => parse_magnitude s
  end.

End JS.

Import JS.

(** ** Data model *)

(** A form field of type [number | '']: empty until the user types. *)
Inductive field : Type :=
  | Blank
  | Num (x : float).

(** [Number(v)]: the empty string converts to [0]. *)
Definition Number (v : field) : float :=
  match v with
  | Blank => 0
  | Num x => x
  end.

Inductive ScenarioType : Type := pre_enrollment | progress_tracker.

Inductive ProgramPhase : Type := negotiation | settlement | graduation.

Module UserData.
Record t : Type := mk {
  ficoScore : field;
  totalDebt : field;
  monthlyIncome : field;
  utilization : field;
  accountsEnrolling : field;
  positiveAccounts : field;
  oldestAccountAge : field;
  programTimeline : float;
  totalCreditLimit : field;
  scenarioType : ScenarioType;
  monthsInProgram : field;
  settledAccounts : field;
  programPhase : ProgramPhase;
  securedCard : bool;
  creditBuilder : bool;
  authorizedUser : bool;
  email : string;
  firstName : string;
  phone : string
}.
End UserData.

(** The weights object, with its keys in insertion order. *)
Module Weights.
Record t : Type := mk {
  paymentHistory : float;
  utilization : float;
  accountAge : float;
  creditMix : float;
  newCredit : float
}.

(** [Object.values]. *)
Definition values (w : t) : list float :=
  [paymentHistory w; utilization w; accountAge w; creditMix w; newCredit w].

Definition set_paymentHistory (v : float) (w : t) : t :=
  mk v (utilization w) (accountAge w) (creditMix w) (newCredit w).
Definition set_utilization (v : float) (w : t) : t :=
  mk (paymentHistory w) v (accountAge w) (creditMix w) (newCredit w).
Definition set_accountAge (v : float) (w : t) : t :=
  mk (paymentHistory w) (utilization w) v (creditMix w) (newCredit w).
Definition set_creditMix (v : float) (w : t) : t :=
  mk (paymentHistory w) (utilization w) (accountAge w) v (newCredit w).
Definition set_newCredit (v : float) (w : t) : t :=
  mk (paymentHistory w) (utilization w) (accountAge w) (creditMix w) v.
End Weights.

(** The local object [numericData] of [runSimulation]. *)
Module NumericData.
Record t : Type := mk {
  ficoScore : float;
  totalDebt : float;
  monthlyIncome : float;
  utilization : float;
  accountsEnrolling : float;
  positiveAccounts : float;
  oldestAccountAge : float;
  programTimeline : float;
  totalCreditLimit : float;
  monthsInProgram : float;
  securedCard : bool;
  creditBuilder : bool;
  authorizedUser : bool;
  scenarioType : ScenarioType;
  programPhase : ProgramPhase
}.
End NumericData.

Module SimulationResults.
Record t : Type := mk {
  initialScore : float;
  lowPointScore : float;
  projectedScore : float;
  scoreGain : float;
  recoveryTime : string;
  postDTI : string;
  savings : float;
  impactPenalty : float;
  recoveryMonths : float;
  weights : Weights.t;
  milestoneDipScore : float;
  milestoneStabilizationScore : float;
  milestoneRecoveryScore : float;
  utilization : field
}.
End SimulationResults.

(** ** calculateWeights *)

Definition baseWeights : Weights.t :=
  Weights.mk 0.35 0.30 0.15 0.10 0.10.

(** Each block of [calculateWeights] updates the object left by the
    block before it. *)
Definition scoreTier (ficoScore : float) (w : Weights.t) : Weights.t :=
  if 740 <=? ficoScore then
    Weights.set_accountAge 0.20
      (Weights.set_utilization 0.40 (Weights.set_paymentHistory 0.25 w))
  else if ficoScore <=? 580 then
    Weights.set_newCredit 0.15
      (Weights.set_utilization 0.25 (Weights.set_paymentHistory 0.45 w))
  else w.

Definition debtToIncome (totalDebt monthlyIncome : float) : float :=
  if 0 <? monthlyIncome then totalDebt / (monthlyIncome * 12) else 1.

Definition dtiAdjust (totalDebt monthlyIncome : float) (w : Weights.t) : Weights.t :=
  let dti := debtToIncome totalDebt monthlyIncome in
  if 0.45 <? dti then
    let w := Weights.set_utilization (Math_min 0.45 (Weights.utilization w + 0.05)) w in
    Weights.set_paymentHistory (Math_max 0.25 (Weights.paymentHistory w - 0.05)) w
  else w.

Definition overallUtilizationAdjust (totalDebt totalCreditLimit : float)
    (w : Weights.t) : Weights.t :=
  if 0 <? totalCreditLimit then
    let trueOverallUtilization := (totalDebt / totalCreditLimit) * 100 in
    if trueOverallUtilization <? 30 then
      Weights.set_utilization (Math_max 0.20 (Weights.utilization w - 0.05)) w
    else w
  else w.

Definition positiveAccountsAdjust (positiveAccounts : float) (w : Weights.t) : Weights.t :=
  if 0 <? positiveAccounts then
    let w := Weights.set_paymentHistory (Math_max 0.30 (Weights.paymentHistory w - 0.05)) w in
    Weights.set_creditMix (Math_min 0.20 (Weights.creditMix w + 0.05)) w
  else w.

Definition accountAgeAdjust (oldestAccountAge : float) (w : Weights.t) : Weights.t :=
  if oldestAccountAge <? 4 then
    let w := Weights.set_accountAge (Math_max 0.05 (Weights.accountAge w - 0.05)) w in
    Weights.set_newCredit (Math_min 0.20 (Weights.newCredit w + 0.05)) w
  else if 10 <? oldestAccountAge then
    Weights.set_accountAge (Math_min 0.25 (Weights.accountAge w + 0.05)) w
  else w.

(** The weights before the final loop. *)
Definition adjustedWeights
    (ficoScore totalDebt monthlyIncome positiveAccounts oldestAccountAge
     totalCreditLimit : float) : Weights.t :=
  accountAgeAdjust oldestAccountAge
    (positiveAccountsAdjust positiveAccounts
      (overallUtilizationAdjust totalDebt totalCreditLimit
        (dtiAdjust totalDebt monthlyIncome
          (scoreTier ficoScore baseWeights)))).

(** [Object.values(w).reduce((a, b) => a + b, 0)]. *)
Definition weightSum (w : Weights.t) : float :=
  fold_left (fun a b => a + b) (Weights.values w) 0.

(** [parseFloat((v / sum).toFixed(4))]. *)
Definition share (sum v : float) : float := parseFloat (toFixed (v / sum) 4).

Definition normalize (w : Weights.t) : Weights.t :=
  let sum := weightSum w in
  Weights.mk (share sum (Weights.paymentHistory w))
             (share sum (Weights.utilization w))
             (share sum (Weights.accountAge w))
             (share sum (Weights.creditMix w))
             (share sum (Weights.newCredit w)).

Definition calculateWeights
    (ficoScore totalDebt monthlyIncome positiveAccounts oldestAccountAge
     totalCreditLimit : float) : Weights.t :=
  normalize
    (adjustedWeights ficoScore totalDebt monthlyIncome positiveAccounts
       oldestAccountAge totalCreditLimit).

(** ** calculateWorstCaseImpact *)

Definition utilizationFactor (data : UserData.t) : float :=
  let utilization := or_else (Number (UserData.utilization data)) 100 in
  Math_max 0 ((100 - utilization) / 10).

Definition severityFactor (data : UserData.t) : float :=
  Math_max 0 ((Number (UserData.ficoScore data) - 500) / 20).

Definition worstCaseDrop (data : UserData.t) (weights : Weights.t) : float :=
  let drop := 0 in
  let drop := drop + utilizationFactor data * 5 * (Weights.utilization weights * 2) in
  let drop := drop + severityFactor data * 5 in
  let drop := drop - or_else (Number (UserData.positiveAccounts data)) 0 * 10 in
  if 10 <? Number (UserData.oldestAccountAge data) then drop - 15 else drop.

Definition calculateWorstCaseImpact (data : UserData.t) (weights : Weights.t) : float :=
  Math_min 150 (Math_max 20 (Math_round (worstCaseDrop data weights))).

(** ** runSimulation *)

Definition numericData (data : UserData.t) : NumericData.t :=
  NumericData.mk
    (or_else (Number (UserData.ficoScore data)) 0)
    (or_else (Number (UserData.totalDebt data)) 0)
    (or_else (Number (UserData.monthlyIncome data)) 0)
    (or_else (Number (UserData.utilization data)) 0)
    (or_else (Number (UserData.accountsEnrolling data)) 0)
    (or_else (Number (UserData.positiveAccounts data)) 0)
    (or_else (Number (UserData.oldestAccountAge data)) 0)
    (or_else (UserData.programTimeline data) 36)
    (or_else (Number (UserData.totalCreditLimit data)) 0)
    (or_else (Number (UserData.monthsInProgram data)) 0)
    (UserData.securedCard data)
    (UserData.creditBuilder data)
    (UserData.authorizedUser data)
    (UserData.scenarioType data)
    (UserData.programPhase data).

Definition initialScoreOf (n : NumericData.t) : float :=
  if 300 <? NumericData.ficoScore n then NumericData.ficoScore n else 500.

Definition weightsOf (n : NumericData.t) : Weights.t :=
  calculateWeights (initialScoreOf n)
    (NumericData.totalDebt n) (NumericData.monthlyIncome n)
    (NumericData.positiveAccounts n) (NumericData.oldestAccountAge n)
    (NumericData.totalCreditLimit n).

(** The scenario branch: [(lowPointScore, recoveryMonths, impactPenalty)]. *)
Definition scenarioBranch (data : UserData.t) (n : NumericData.t)
    (initialScore : float) (weights : Weights.t) : float * float * float :=
  let recoveryMonths := NumericData.programTimeline n in
  let impactPenalty := 0 in
  match NumericData.scenarioType n with
  | pre_enrollment =>
      let impactPenalty := calculateWorstCaseImpact data weights in
      (Math_max 300 (initialScore - impactPenalty), recoveryMonths, impactPenalty)
  | progress_tracker =>
      (initialScore,
       Math_max 12 (NumericData.programTimeline n - NumericData.monthsInProgram n),
       0)
  end.

Definition toolGainOf (n : NumericData.t) : float :=
  let toolGain := 0 in
  let toolGain := if NumericData.securedCard n then toolGain + 30 else toolGain in
  let toolGain := if NumericData.creditBuilder n then toolGain + 25 else toolGain in
  if NumericData.authorizedUser n then toolGain + 10 else toolGain.

Definition totalPotentialGainOf (n : NumericData.t) (weights : Weights.t)
    (recoveryMonths : float) : float :=
  let totalPotentialGain := 0 in
  let totalPotentialGain := totalPotentialGain + Weights.utilization weights * 250 in
  let historyGain := (Weights.paymentHistory weights * 150) * (recoveryMonths / 36) in
  let totalPotentialGain := totalPotentialGain + historyGain in
  let totalPotentialGain :=
    totalPotentialGain + (Weights.accountAge weights * 50) * (recoveryMonths / 36) in
  totalPotentialGain + toolGainOf n.

Definition postDTIOf (n : NumericData.t) : float :=
  let debtSavings := NumericData.totalDebt n * 0.55 in
  let postProgramDebt := NumericData.totalDebt n - debtSavings in
  let annualPostDebtPayment := postProgramDebt * 0.05 in
  let monthlyPostDebtPayment := annualPostDebtPayment / 12 in
  if 0 <? NumericData.monthlyIncome n
  then (monthlyPostDebtPayment / NumericData.monthlyIncome n) * 100
  else 0.

Definition runSimulation (data : UserData.t) : SimulationResults.t :=
  let n := numericData data in
  let initialScore := initialScoreOf n in
  let weights := weightsOf n in
  let '(lowPointScore, recoveryMonths, impactPenalty) :=
    scenarioBranch data n initialScore weights in
  let totalPotentialGain := totalPotentialGainOf n weights recoveryMonths in
  let projectedScore := Math_min 850 (Math_round (lowPointScore + totalPotentialGain)) in
  let debtSavings := NumericData.totalDebt n * 0.55 in
  let postDTI := postDTIOf n in
  let totalGain := projectedScore - lowPointScore in
  let stabilizationScore :=
    Math_min initialScore (lowPointScore + Math_round (totalGain * 0.15)) in
  let recoveryScore := lowPointScore + Math_round (totalGain * 0.65) in
  SimulationResults.mk
    initialScore
    lowPointScore
    projectedScore
    (projectedScore - initialScore)
    (Number_toString recoveryMonths ++ " months")
    (toFixed (Math_min 50 postDTI) 1)
    debtSavings
    impactPenalty
    recoveryMonths
    weights
    lowPointScore
    stabilizationScore
    recoveryScore
    (UserData.utilization data).

(** ** ScoreChart *)

(** A point of the chart: the milestone, its label and its place, [x] and
    [y] in percent of the width and of the height. *)
Module ChartPoint.

Record t : Type := mk {
  score : float;
  time : float;
  label : string;
  timeLabel : string;
  x : float;
  y : float
}.

End ChartPoint.

Module ScoreChart.

(** [(end - dip) || 1]. *)
Definition totalGain (end_ dip : float) : float := or_else (end_ - dip) 1.

(** The height of a score, in percent of the span from the dip to the
    projected score. *)
Definition calculateY (dip totalGain score : float) : float :=
  Math_max 0 (Math_min 100 (((score - dip) / totalGain) * 100)).

Definition points (start dip stabilization recovery end_ timeline : float)
    : list ChartPoint.t :=
  let totalGain := totalGain end_ dip in
  let dipTime := timeline * 0.1 in
  let stabilizationTime := timeline * 0.25 in
  let recoveryTime := timeline * 0.75 in
  let calculateY := calculateY dip totalGain in
  [ ChartPoint.mk start 0 "Start" "0 mo" 0 (calculateY start);
    ChartPoint.mk dip dipTime "Dip"
      (Number_toString (Math_round dipTime) ++ " mo") 10 0;
    ChartPoint.mk stabilization stabilizationTime "Stabilization"
      (Number_toString (Math_round stabilizationTime) ++ " mo") 25
      (calculateY stabilization);
    ChartPoint.mk recovery recoveryTime "Recovery"
      (Number_toString (Math_round recoveryTime) ++ " mo") 75
      (calculateY recovery);
    ChartPoint.mk end_ timeline "Projected"
      (Number_toString timeline ++ " mo") 100 100 ].

End ScoreChart.

(** The chart of the results page: [Step4Results] passes the scores of
    the simulation to [ScoreChart]; [timeline] is the number read back
    from [recoveryTime]. *)
Definition resultsChart (results : SimulationResults.t) (timeline : float)
    : list ChartPoint.t :=
  ScoreChart.points
    (SimulationResults.initialScore results)
    (SimulationResults.milestoneDipScore results)
    (SimulationResults.milestoneStabilizationScore results)
    (SimulationResults.milestoneRecoveryScore results)
    (SimulationResults.projectedScore results)
    timeline.

(** ** Texts of the results page *)

(** The line under the projected score:
    [`A ${scoreGain > 0 ? '+' : ''}${scoreGain} point change`]. *)
Definition scoreChangeText (scoreGain : float) : string :=
  ("A " ++ (if (0 <? scoreGain)%float then "+" else "") ++ Number_toString scoreGain
   ++ " point change")%string.

(** The size of the dip in the explanation:
    [impactPenalty > 0 ? `~${impactPenalty} points` : 'a small amount']. *)
Definition dipText (impactPenalty : float) : string :=
  if 0 <? impactPenalty
  then ("~" ++ Number_toString impactPenalty ++ " points")%string
  else "a small amount"%string.

(** * Definitions of the statements and of their proofs *)

(** The sign bit of a number; [NaN] has none. *)
Definition SFsign (x : spec_float) : bool :=
  match x with
  | S754_zero s | S754_infinity s | S754_finite s _ _ => s
  | S754_nan => false
  end.

Local Open Scope Q_scope.

(** Powers of two as rationals. *)
Definition P2 (e : Z) : Q := Qpower (2 # 1) e.

(** Nothing was cut off by a shift: both flags are clear. *)
Definition exactb (mrs : shr_record) : bool := negb (shr_r mrs || shr_s mrs).

(** The same for a location. *)
Definition loc_exactb (l : location) : bool :=
  match l with loc_Exact => true | _ => false end.

(** [V] lies in the cell from [m] to [m + 1] at exponent [e], and on its
    left end exactly when [ex] says so. *)
Definition inb (m e : Z) (ex : bool) (V : Q) : Prop :=
  inject_Z m * P2 e <= V /\ V < inject_Z (m + 1) * P2 e /\
  (ex = true <-> V == inject_Z m * P2 e).

(** The exponent function of binary64. *)
Abbreviation fexp64 := (fexp prec emax).

(** Numbers that a binary64 value can take: zero, or a canonical mantissa
    and exponent. *)
Definition repr (q : Q) : Prop :=
  q == 0 \/ exists m e, bounded prec emax m e = true /\ q == inject_Z (Zpos m) * P2 e.

(** Zero or a finite number. *)
Definition SFfin (x : spec_float) : bool :=
  match x with S754_zero _ | S754_finite _ _ _ => true | _ => false end.

(** The magnitude of mantissa [m] at exponent [e]. *)
Definition mag (m : positive) (e : Z) : Q := inject_Z (Zpos m) * P2 e.

(** A magnitude with its sign. *)
Definition sgn (s : bool) (q : Q) : Q := if s then - q else q.

Local Close Scope Q_scope.
Local Open Scope float_scope.

(** Anything but [NaN]. *)
Definition SFnotnan (x : spec_float) : bool :=
  match x with S754_nan => false | _ => true end.

(** [x] is finite and its value lies between those of [lo] and [hi]. *)
Definition within (lo hi x : float) : Prop :=
  is_finite x = true /\ (F2Q lo <= F2Q x)%Q /\ (F2Q x <= F2Q hi)%Q.

(** [Number.MAX_VALUE]. *)
Definition max_value : float := 0x1.fffffffffffffp+1023.

(** Not [NaN], not negative, and not [-0]. *)
Definition SFnonneg (x : spec_float) : bool :=
  match x with
  | S754_zero false | S754_infinity false | S754_finite false _ _ => true
  | _ => false
  end.

(** What [0 <= x] accepts: [-0] too. *)
Definition SFge0 (x : spec_float) : bool :=
  match x with
  | S754_zero _ | S754_infinity false | S754_finite false _ _ => true
  | _ => false
  end.

(** What [0 < x] accepts. *)
Definition SFpos (x : spec_float) : bool :=
  match x with
  | S754_infinity false | S754_finite false _ _ => true
  | _ => false
  end.

(** A number of the program that is not [NaN], not negative, not [-0]. *)
Definition nonneg (x : float) : Prop := SFnonneg (Prim2SF x) = true.

(** The weights before the final loop depend on the arguments through
    eight comparisons only. *)
Definition branchWeights (b1 b2 b3 b4 b5 b6 b7 b8 : bool) : Weights.t :=
  let w := baseWeights in
  let w :=
    if b1 then
      Weights.set_accountAge 0.20
        (Weights.set_utilization 0.40 (Weights.set_paymentHistory 0.25 w))
    else if b2 then
      Weights.set_newCredit 0.15
        (Weights.set_utilization 0.25 (Weights.set_paymentHistory 0.45 w))
    else w in
  let w :=
    if b3 then
      let w := Weights.set_utilization (Math_min 0.45 (Weights.utilization w + 0.05)) w in
      Weights.set_paymentHistory (Math_max 0.25 (Weights.paymentHistory w - 0.05)) w
    else w in
  let w :=
    if b4 then
      if b5 then Weights.set_utilization (Math_max 0.20 (Weights.utilization w - 0.05)) w
      else w
    else w in
  let w :=
    if b6 then
      let w := Weights.set_paymentHistory (Math_max 0.30 (Weights.paymentHistory w - 0.05)) w in
      Weights.set_creditMix (Math_min 0.20 (Weights.creditMix w + 0.05)) w
    else w in
  if b7 then
    let w := Weights.set_accountAge (Math_max 0.05 (Weights.accountAge w - 0.05)) w in
    Weights.set_newCredit (Math_min 0.20 (Weights.newCredit w + 0.05)) w
  else if b8 then
    Weights.set_accountAge (Math_min 0.25 (Weights.accountAge w + 0.05)) w
  else w.

(** A predicate holds of both booleans. *)
Definition forall_bool (f : bool -> bool) : bool := f true && f false.

(** A predicate holds whatever the eight comparisons give. *)
Definition forall_branches (P : Weights.t -> bool) : bool :=
  forall_bool (fun b1 => forall_bool (fun b2 => forall_bool (fun b3 =>
  forall_bool (fun b4 => forall_bool (fun b5 => forall_bool (fun b6 =>
  forall_bool (fun b7 => forall_bool (fun b8 =>
    P (branchWeights b1 b2 b3 b4 b5 b6 b7 b8))))))))).

(** The clamps written in [calculateWeights], and the ranges the other
    two weights are left in. *)
Definition clampBounds (a : Weights.t) : bool :=
  (0.25 <=? Weights.paymentHistory a) && (Weights.paymentHistory a <=? 0.45) &&
  (0.20 <=? Weights.utilization a) && (Weights.utilization a <=? 0.45) &&
  (0.05 <=? Weights.accountAge a) && (Weights.accountAge a <=? 0.25) &&
  (0.10 <=? Weights.creditMix a) && (Weights.creditMix a <=? 0.20) &&
  (0.10 <=? Weights.newCredit a) && (Weights.newCredit a <=? 0.20).

(** [|sum - 1| <= tol], the sum taken as the program would take it. *)
Definition sumWithin (tol : float) (w : Weights.t) : bool :=
  abs (weightSum w - 1) <=? tol.

(** The same on the exact values of the five numbers. *)
Definition exactSum (w : Weights.t) : Q :=
  fold_right Qplus 0%Q (map F2Q (Weights.values w)).

Definition exactSumWithin (tol : Q) (w : Weights.t) : bool :=
  Qle_bool (Qabs (exactSum w - 1)) tol.

(** Each normalized weight is within half a unit of the fourth decimal
    (and the rounding of [parseFloat]) of its share. *)
Definition fourDecimals (a w : Weights.t) : bool :=
  forallb (fun p => Qle_bool (Qabs (F2Q (snd p) - F2Q (fst p / weightSum a)))
                             ((1 # 20000) + (1 # 10000000000000000)))
          (combine (Weights.values a) (Weights.values w)).

Definition weightsFinite (w : Weights.t) : bool :=
  forallb is_finite (Weights.values w).

Definition lowUtilizationProfile : float * float * float * float * float * float :=
  (500, 20000, 10000, 1, 5, 100000).

(** The tool gain as a sum of three optional constants. *)
Definition toolGainSum (securedCard creditBuilder authorizedUser : bool) : float :=
  (if securedCard then 30 else 0) + (if creditBuilder then 25 else 0) +
  (if authorizedUser then 10 else 0).

(** [(end - dip) || 1], the span of the chart. *)
Definition gainSpanOrOne (r : SimulationResults.t) : float :=
  or_else (SimulationResults.projectedScore r - SimulationResults.lowPointScore r) 1.

(** A profile of the form with the fields at their defaults. *)
Definition profile (ficoScore : field) (scenarioType : ScenarioType) : UserData.t :=
  UserData.mk ficoScore (Num 20000) (Num 4000) (Num 70) (Num 3) (Num 1) (Num 5) 36
    (Num 25000) scenarioType (Num 6) Blank negotiation true false false
    EmptyString EmptyString EmptyString.

(** The five weights are finite and in [0, 1], the utilization weight
    at least 0.18. *)
Definition unitWeights (w : Weights.t) : bool :=
  forallb (fun x => is_finite x && (0 <=? x) && (x <=? 1)) (Weights.values w) &&
  (0.18 <=? Weights.utilization w).

(** The utilization ranges of the form, by their midpoints. *)
Definition utilizationBuckets : list float := [30; 50; 70; 90; 100].

(** The program lengths of the form, in months. *)
Definition programTimelines : list float := [12; 24; 36; 48; 60].

(** The drop as the specification writes it, on the fields as they are. *)
Definition specifiedDrop (data : UserData.t) (weights : Weights.t) : float :=
  Math_max 0 ((100 - Number (UserData.utilization data)) / 10) * 5
    * (Weights.utilization weights * 2)
  + Math_max 0 ((Number (UserData.ficoScore data) - 500) / 20) * 5
  - Number (UserData.positiveAccounts data) * 10
  - (if 10 <? Number (UserData.oldestAccountAge data) then 15 else 0).

(** A form with the utilization left empty and no positive account. *)
Definition emptyUtilization : UserData.t :=
  UserData.mk (Num 650) (Num 20000) (Num 4000) Blank (Num 3) (Num 0) (Num 5) 36
    (Num 25000) pre_enrollment Blank Blank negotiation true false false
    EmptyString EmptyString EmptyString.

(** A form with an infinite score and infinitely many positive accounts. *)
Definition infiniteProfile : UserData.t :=
  UserData.mk (Num infinity) (Num 20000) (Num 4000) (Num 70) (Num 3) (Num infinity)
    (Num 5) 36 (Num 25000) pre_enrollment Blank Blank negotiation true false false
    EmptyString EmptyString EmptyString.

(** The profiles of the data model: a score in [300, 850], a utilization
    bucket, a timeline of the form, counts that are not negative. *)
Definition documentedProfile (data : UserData.t) : Prop :=
  (300 <=? Number (UserData.ficoScore data)) = true /\
  (Number (UserData.ficoScore data) <=? 850) = true /\
  In (Number (UserData.utilization data)) utilizationBuckets /\
  (0 <=? Number (UserData.positiveAccounts data)) = true /\
  In (UserData.programTimeline data) programTimelines /\
  (UserData.scenarioType data = progress_tracker ->
   (0 <=? Number (UserData.monthsInProgram data)) = true).

(** The ranges the five weights are left in by the division by their
    sum. *)
Definition normalizedBounds (w : Weights.t) : bool :=
  (0.2174 <=? Weights.paymentHistory w) && (Weights.paymentHistory w <=? 0.4286) &&
  (0.1818 <=? Weights.utilization w) && (Weights.utilization w <=? 0.4091) &&
  (0.0909 <=? Weights.accountAge w) && (Weights.accountAge w <=? 0.2381) &&
  (0.087 <=? Weights.creditMix w) && (Weights.creditMix w <=? 0.1579) &&
  (0.08 <=? Weights.newCredit w) && (Weights.newCredit w <=? 0.1905).

(** A finite number whose value is the integer [z]. *)
Definition whole (z : Z) (x : float) : Prop :=
  is_finite x = true /\ (F2Q x == inject_Z z)%Q.

(** The profile with other values in the six fields that [runSimulation]
    leaves alone. *)
Definition withUnreadFields (data : UserData.t)
    (accountsEnrolling settledAccounts : field) (programPhase : ProgramPhase)
    (email firstName phone : string) : UserData.t :=
  UserData.mk
    (UserData.ficoScore data) (UserData.totalDebt data) (UserData.monthlyIncome data)
    (UserData.utilization data) accountsEnrolling (UserData.positiveAccounts data)
    (UserData.oldestAccountAge data) (UserData.programTimeline data)
    (UserData.totalCreditLimit data) (UserData.scenarioType data)
    (UserData.monthsInProgram data) settledAccounts programPhase
    (UserData.securedCard data) (UserData.creditBuilder data)
    (UserData.authorizedUser data) email firstName phone.

(** The integers from 20 to 150 are written with their decimal digits. *)
Definition penaltyStrings : bool :=
  forallb (fun k => let z := (20 + Z.of_nat k)%Z in
                    String.eqb (Number_toString (JS.of_Z z)) (digits_of z) &&
                    (0 <? JS.of_Z z))
          (seq 0 131).

(** * Binary64 arithmetic through its specification *)

(** ** Classification *)

(** Classification of a number through its specification. *)
Lemma SFcompare_refl x : x <> S754_nan -> SFcompare x x = Some Eq.
Proof.
  destruct x as [s|s| |s m e]; simpl; intro H; try congruence.
  - now destruct s.
  - destruct s; rewrite Z.compare_refl, Pos.compare_cont_refl; reflexivity.
Qed.

Lemma is_nan_spec x :
  is_nan x = match Prim2SF x with S754_nan => true | _ => false end.
Proof.
  unfold is_nan. rewrite FloatAxioms.eqb_spec. unfold SFeqb.
  destruct (Prim2SF x) eqn:E; try (rewrite SFcompare_refl by discriminate; reflexivity).
  reflexivity.
Qed.

Lemma is_zero_spec x :
  is_zero x = match Prim2SF x with S754_zero _ => true | _ => false end.
Proof.
  unfold is_zero. rewrite FloatAxioms.eqb_spec. change (Prim2SF PrimFloat.zero) with (S754_zero false).
  unfold SFeqb. destruct (Prim2SF x) as [s|s| |s m e]; simpl; try reflexivity; now destruct s.
Qed.

Lemma is_infinity_spec x :
  is_infinity x = match Prim2SF x with S754_infinity _ => true | _ => false end.
Proof.
  unfold is_infinity. rewrite FloatAxioms.eqb_spec, FloatAxioms.abs_spec.
  change (Prim2SF PrimFloat.infinity) with (S754_infinity false).
  unfold SFeqb. destruct (Prim2SF x) as [s|s| |s m e]; simpl; reflexivity.
Qed.

Lemma is_finite_spec x :
  is_finite x =
  match Prim2SF x with S754_zero _ | S754_finite _ _ _ => true | _ => false end.
Proof.
  unfold is_finite. rewrite is_nan_spec, is_infinity_spec.
  destruct (Prim2SF x); reflexivity.
Qed.

Lemma get_sign_spec x : get_sign x = SFsign (Prim2SF x).
Proof.
  unfold get_sign. rewrite is_zero_spec.
  destruct (Prim2SF x) as [s|s| |s m e] eqn:E.
  - rewrite FloatAxioms.ltb_spec, FloatAxioms.div_spec, E. change (Prim2SF PrimFloat.zero) with (S754_zero false).
    change (Prim2SF PrimFloat.one) with (S754_finite false 4503599627370496 (-52)).
    now destruct s.
  - rewrite FloatAxioms.ltb_spec, E. now destruct s.
  - rewrite FloatAxioms.ltb_spec, E. reflexivity.
  - rewrite FloatAxioms.ltb_spec, E. now destruct s.
Qed.

Local Open Scope Q_scope.

(** ** Powers of two and shifted mantissas *)

Lemma P2_pos e : 0 < P2 e.
Proof. apply Qpower_0_lt. reflexivity. Qed.

Lemma P2_add a b : P2 (a + b) == P2 a * P2 b.
Proof. apply Qpower_plus. discriminate. Qed.

Lemma P2_succ e : P2 (e + 1) == 2 * P2 e.
Proof. rewrite P2_add. change (P2 1) with (2 # 1). ring. Qed.

Lemma P2_Z e : (0 <= e)%Z -> P2 e == inject_Z (2 ^ e).
Proof. intro H. symmetry. apply (Zpower_Qpower 2 e H). Qed.

Lemma P2_le a b : (a <= b)%Z -> P2 a <= P2 b.
Proof. intro H. apply Qpower_le_compat_l; [exact H | discriminate]. Qed.

Lemma P2_lt a b : (a < b)%Z -> P2 a < P2 b.
Proof. intro H. apply Qpower_lt_compat_l; [exact H | reflexivity]. Qed.

Lemma P2_lt_inv a b : P2 a < P2 b -> (a < b)%Z.
Proof. intro H. apply (Qpower_lt_compat_l_inv (2 # 1)); [exact H | reflexivity]. Qed.

Lemma P2_split a b : (a <= b)%Z -> P2 b == inject_Z (2 ^ (b - a)) * P2 a.
Proof.
  intro H. rewrite <- (P2_Z (b - a)) by lia. rewrite <- P2_add. now replace (b - a + a)%Z with b by lia.
Qed.

Lemma Zq_lt_inv a b t : 0 < t -> inject_Z a * t < inject_Z b * t -> (a < b)%Z.
Proof. intros Ht H. rewrite Zlt_Qlt. now apply Qmult_lt_r in H. Qed.

Lemma Zq_le a b t : 0 < t -> (a <= b)%Z -> inject_Z a * t <= inject_Z b * t.
Proof. intros Ht H. apply Qmult_le_r; [exact Ht|]. now rewrite <- Zle_Qle. Qed.

Lemma Zq_le_inv a b t : 0 < t -> inject_Z a * t <= inject_Z b * t -> (a <= b)%Z.
Proof. intros Ht H. rewrite Zle_Qle. now apply Qmult_le_r in H. Qed.

(** Binary digits. *)
Lemma digits2_size p : digits2_pos p = Pos.size p.
Proof. induction p; simpl; congruence. Qed.

Lemma digits2_bounds p :
  (2 ^ (Zpos (digits2_pos p) - 1) <= Zpos p < 2 ^ Zpos (digits2_pos p))%Z.
Proof.
  rewrite digits2_size. split.
  - pose proof (Pos.size_le p) as H.
    assert (H1 : (Zpos (2 ^ Pos.size p) <= Zpos p~0)%Z) by exact H.
    rewrite Pos2Z.inj_pow in H1.
    replace (Zpos (Pos.size p)) with (Zpos (Pos.size p) - 1 + 1)%Z in H1 by lia.
    rewrite Z.pow_add_r in H1 by lia. change (Zpos p~0) with (2 * Zpos p)%Z in H1. lia.
  - pose proof (Pos.size_gt p) as H.
    assert (H1 : (Zpos p < Zpos (2 ^ Pos.size p))%Z) by exact H.
    now rewrite Pos2Z.inj_pow in H1.
Qed.

Lemma mag_bounds p e :
  P2 (Zpos (digits2_pos p) + e - 1) <= inject_Z (Zpos p) * P2 e /\
  inject_Z (Zpos p) * P2 e < P2 (Zpos (digits2_pos p) + e).
Proof.
  pose proof (digits2_bounds p) as [H1 H2]. pose proof (P2_pos e) as Ht.
  split.
  - replace (Zpos (digits2_pos p) + e - 1)%Z with ((Zpos (digits2_pos p) - 1) + e)%Z by lia.
    rewrite P2_add, (P2_Z (Zpos (digits2_pos p) - 1)) by lia. now apply Zq_le.
  - rewrite P2_add, (P2_Z (Zpos (digits2_pos p))) by lia.
    apply Qmult_lt_r; [exact Ht|]. now rewrite <- Zlt_Qlt.
Qed.

Ltac zq :=
  rewrite ?Pos2Z.inj_add in *;
  rewrite ?inject_Z_plus, ?inject_Z_mult, ?inject_Z_opp in *;
  change (inject_Z 0) with 0 in *; change (inject_Z 1) with 1 in *;
  change (inject_Z 2) with 2 in *.

Lemma shr_1_inb mrs e V :
  (0 <= shr_m mrs)%Z -> inb (shr_m mrs) e (exactb mrs) V ->
  (0 <= shr_m (shr_1 mrs))%Z /\
  inb (shr_m (shr_1 mrs)) (e + 1) (exactb (shr_1 mrs)) V.
Proof.
  destruct mrs as [m r s]. unfold inb, exactb. simpl shr_m. simpl shr_r. simpl shr_s.
  intros Hm (H1 & H2 & H3).
  pose proof (P2_pos e) as Ht. pose proof (P2_succ e) as Hs.
  destruct m as [|p|p]; [ | destruct p as [p|p|] | lia ]; simpl; (split; [lia|]);
    rewrite Hs.
  - zq. repeat split; try lra.
    + intro E. apply H3 in E. lra.
    + intro E. apply H3. lra.
  - change (Zpos p~1) with (2 * Zpos p + 1)%Z in *. zq.
    repeat split; try lra; try discriminate.
  - change (Zpos p~0) with (2 * Zpos p)%Z in *. zq.
    repeat split; try lra.
    + intro E. apply H3 in E. lra.
    + intro E. apply H3. lra.
  - zq. repeat split; try lra; try discriminate.
Qed.

(** ** Shifting to the exponent of the format *)

Lemma inb_exp m e e' ex V : e = e' -> inb m e ex V -> inb m e' ex V.
Proof. now intros ->. Qed.

Lemma iter_shr_inb p : forall mrs e V,
  (0 <= shr_m mrs)%Z -> inb (shr_m mrs) e (exactb mrs) V ->
  (0 <= shr_m (iter_pos shr_1 p mrs))%Z /\
  inb (shr_m (iter_pos shr_1 p mrs)) (e + Zpos p) (exactb (iter_pos shr_1 p mrs)) V.
Proof.
  induction p as [p IH|p IH|]; intros mrs e V Hm Hi; simpl iter_pos.
  - destruct (shr_1_inb mrs e V Hm Hi) as [H1 H2].
    destruct (IH _ _ _ H1 H2) as [H3 H4].
    destruct (IH _ _ _ H3 H4) as [H5 H6].
    split; [exact H5|]. eapply inb_exp; [|exact H6]. lia.
  - destruct (IH _ _ _ Hm Hi) as [H3 H4].
    destruct (IH _ _ _ H3 H4) as [H5 H6].
    split; [exact H5|]. eapply inb_exp; [|exact H6]. lia.
  - apply shr_1_inb; assumption.
Qed.

Lemma shr_fexp_inb m e l V :
  (0 <= m)%Z -> inb m e (loc_exactb l) V ->
  (0 <= shr_m (fst (shr_fexp prec emax m e l)))%Z /\
  snd (shr_fexp prec emax m e l) = Z.max e (fexp64 (Zdigits2 m + e)) /\
  inb (shr_m (fst (shr_fexp prec emax m e l))) (snd (shr_fexp prec emax m e l))
      (exactb (fst (shr_fexp prec emax m e l))) V.
Proof.
  intros Hm Hi. unfold shr_fexp, shr.
  assert (E1 : shr_m (shr_record_of_loc m l) = m) by (destruct l as [|[]]; reflexivity).
  assert (E2 : exactb (shr_record_of_loc m l) = loc_exactb l) by (destruct l as [|[]]; reflexivity).
  destruct (fexp64 (Zdigits2 m + e) - e)%Z as [|p|p] eqn:E; simpl fst; simpl snd.
  - rewrite E1, E2. repeat split; try assumption; try lia; apply Hi.
  - destruct (iter_shr_inb p (shr_record_of_loc m l) e V) as [H1 H2].
    + now rewrite E1.
    + now rewrite E1, E2.
    + repeat split; try assumption; try lia; apply H2.
  - rewrite E1, E2. repeat split; try assumption; try lia; apply Hi.
Qed.

Lemma rne_cases mrs :
  round_nearest_even (shr_m mrs) (loc_of_shr_record mrs) = shr_m mrs \/
  (round_nearest_even (shr_m mrs) (loc_of_shr_record mrs) = (shr_m mrs + 1)%Z /\
   exactb mrs = false).
Proof.
  destruct mrs as [m [] []]; unfold exactb; simpl; auto; destruct (Z.even m); auto.
Qed.

Lemma bounded_inv m e :
  bounded prec emax m e = true ->
  e = fexp64 (Zpos (digits2_pos m) + e) /\ (e <= 971)%Z.
Proof.
  unfold bounded, canonical_mantissa. rewrite andb_true_iff, Z.eqb_eq, Z.leb_le.
  intros [H1 H2]. split; [now symmetry|exact H2].
Qed.

Lemma fexp_spec d : fexp64 d = Z.max (d - 53) (-1074).
Proof. reflexivity. Qed.

(** A representable number below [V] is below the mantissa kept at the
    exponent of [V]. *)
Lemma repr_below V d m1 L :
  V < P2 d -> (P2 (d - 1) <= V \/ (d <= -1074)%Z) ->
  inject_Z m1 * P2 (fexp64 d) <= V -> V < inject_Z (m1 + 1) * P2 (fexp64 d) ->
  repr L -> L <= V -> L <= inject_Z m1 * P2 (fexp64 d).
Proof.
  intros Hd Hm H1 H2 [HL|(mL & eL & HB & HL)] HLV.
  - rewrite HL. rewrite HL in HLV.
    assert (0 <= m1)%Z.
    { apply Z.lt_succ_r. apply (Zq_lt_inv _ _ (P2 (fexp64 d))); [apply P2_pos|].
      change (inject_Z 0) with 0. unfold Z.succ. lra. }
    apply Qmult_le_0_compat; [now rewrite Zle_Qle in H | apply Qlt_le_weak, P2_pos].
  - apply bounded_inv in HB. destruct HB as [HB1 HB2].
    pose proof (mag_bounds mL eL) as [M1 M2]. rewrite <- HL in M1, M2.
    set (DL := (Zpos (digits2_pos mL) + eL)%Z) in *.
    assert (HDL : (DL <= d)%Z).
    { assert (P2 (DL - 1) < P2 d) by lra. apply P2_lt_inv in H. lia. }
    assert (HDmin : (-1074 + 1 <= DL)%Z).
    { rewrite fexp_spec in HB1. unfold DL. lia. }
    destruct (Z.eq_dec DL d) as [E|NE].
    + rewrite E in HB1. rewrite <- HB1. rewrite HL.
      apply Zq_le; [apply P2_pos|].
      apply Z.lt_succ_r. apply (Zq_lt_inv _ _ (P2 eL)); [apply P2_pos|].
      unfold Z.succ. rewrite <- HL. rewrite HB1. lra.
    + destruct Hm as [Hm|Hm]; [|lia].
      assert (Hk : (fexp64 d <= d - 1)%Z) by (rewrite fexp_spec; lia).
      rewrite (P2_split _ _ Hk) in Hm.
      assert (Hk2 : (2 ^ (d - 1 - fexp64 d) <= m1)%Z).
      { apply Z.lt_succ_r. apply (Zq_lt_inv _ _ (P2 (fexp64 d))); [apply P2_pos|].
        unfold Z.succ. lra. }
      apply Qle_trans with (P2 (d - 1)).
      * apply Qlt_le_weak. apply Qlt_le_trans with (P2 DL); [exact M2|]. apply P2_le. lia.
      * rewrite (P2_split _ _ Hk). apply Zq_le; [apply P2_pos|exact Hk2].
Qed.

(** A representable number above [V], when [V] is not on the grid, is
    above the next mantissa. *)
Lemma repr_above V d m1 U :
  V < P2 d -> (P2 (d - 1) <= V \/ (d <= -1074)%Z) -> (0 <= m1)%Z ->
  inject_Z m1 * P2 (fexp64 d) < V -> V < inject_Z (m1 + 1) * P2 (fexp64 d) ->
  repr U -> V <= U -> inject_Z (m1 + 1) * P2 (fexp64 d) <= U.
Proof.
  intros Hd Hm Hm1 H1 H2 [HU|(mU & eU & HB & HU)] HVU.
  - exfalso. rewrite HU in HVU.
    assert (0 <= inject_Z m1 * P2 (fexp64 d)).
    { apply Qmult_le_0_compat; [now rewrite Zle_Qle in Hm1 | apply Qlt_le_weak, P2_pos]. }
    lra.
  - apply bounded_inv in HB. destruct HB as [HB1 HB2].
    pose proof (mag_bounds mU eU) as [M1 M2]. rewrite <- HU in M1, M2.
    set (DU := (Zpos (digits2_pos mU) + eU)%Z) in *.
    assert (HDmin : (-1074 + 1 <= DU)%Z).
    { rewrite fexp_spec in HB1. unfold DU. lia. }
    assert (HeU : (-1074 <= eU)%Z) by (rewrite HB1, fexp_spec; lia).
    assert (HDU : (d <= DU)%Z).
    { destruct Hm as [Hm|Hm]; [|lia].
      assert (P2 (d - 1) < P2 DU) by lra. apply P2_lt_inv in H. lia. }
    destruct (Z.eq_dec DU d) as [E|NE].
    + rewrite E in HB1. rewrite <- HB1. rewrite HU.
      apply Zq_le; [apply P2_pos|].
      assert (m1 < Zpos mU)%Z; [|lia].
      apply (Zq_lt_inv _ _ (P2 eU)); [apply P2_pos|].
      rewrite <- HU. rewrite HB1. lra.
    + apply Qle_trans with (P2 (DU - 1)); [|exact M1].
      destruct (Z_le_gt_dec (fexp64 d) d) as [Hk|Hk].
      * apply Qle_trans with (P2 d); [|apply P2_le; lia].
        rewrite (P2_split _ _ Hk) in Hd |- *.
        apply Zq_le; [apply P2_pos|].
        assert (m1 < 2 ^ (d - fexp64 d))%Z; [|lia].
        apply (Zq_lt_inv _ _ (P2 (fexp64 d))); [apply P2_pos|]. lra.
      * assert (Hf : fexp64 d = (-1074)%Z) by (rewrite fexp_spec in *; lia).
        rewrite Hf in *.
        assert (m1 = 0)%Z.
        { assert (m1 < 1)%Z; [|lia].
          apply (Zq_lt_inv _ _ (P2 (-1074))); [apply P2_pos|].
          change (inject_Z 1) with 1.
          assert (P2 d < P2 (-1074)) by (apply P2_lt; lia). lra. }
        subst m1. change (inject_Z (0 + 1)) with 1. rewrite Qmult_1_l. apply P2_le. lia.
Qed.

(** ** Rounding between representable numbers *)

Lemma inb_mag mx ex exb V :
  (0 <= mx)%Z -> inb mx ex exb V -> (ex <= fexp64 (Zdigits2 mx + ex))%Z ->
  V < P2 (Zdigits2 mx + ex) /\
  (P2 (Zdigits2 mx + ex - 1) <= V \/ (Zdigits2 mx + ex <= -1074)%Z).
Proof.
  intros Hm (H1 & H2 & _) Hf. destruct mx as [|p|p]; [| |lia].
  - simpl Zdigits2 in *. rewrite Z.add_0_l in *. split.
    + zq. lra.
    + right. rewrite fexp_spec in Hf. lia.
  - simpl Zdigits2 in *. pose proof (mag_bounds p ex) as [M1 M2].
    pose proof (digits2_bounds p) as [D1 D2]. split.
    + apply Qlt_le_trans with (1 := H2).
      rewrite P2_add, (P2_Z (Zpos (digits2_pos p))) by lia.
      apply Zq_le; [apply P2_pos|lia].
    + left. lra.
Qed.

Lemma repr_lt_top U : repr U -> U < P2 1024.
Proof.
  intros [HU|(mU & eU & HB & HU)]; rewrite HU; [apply P2_pos|].
  apply bounded_inv in HB. destruct HB as [HB1 HB2].
  pose proof (mag_bounds mU eU) as [M1 M2].
  apply Qlt_le_trans with (1 := M2). apply P2_le.
  rewrite fexp_spec in HB1. lia.
Qed.

(** Rounding keeps a value between the representable numbers around it. *)
Lemma round_aux_bracket s mx ex lx V L U :
  (0 <= mx)%Z -> inb mx ex (loc_exactb lx) V ->
  (ex <= fexp64 (Zdigits2 mx + ex))%Z ->
  repr L -> repr U -> L <= V -> V <= U ->
  (binary_round_aux prec emax s mx ex lx = S754_zero s /\ L <= 0) \/
  (exists m e, binary_round_aux prec emax s mx ex lx = S754_finite s m e /\
               L <= inject_Z (Zpos m) * P2 e /\ inject_Z (Zpos m) * P2 e <= U).
Proof.
  intros Hm Hi Hf HL HU HLV HVU.
  destruct (inb_mag _ _ _ _ Hm Hi Hf) as [Hd Hmag].
  set (d := (Zdigits2 mx + ex)%Z) in *.
  unfold binary_round_aux.
  pose proof (shr_fexp_inb mx ex lx V Hm Hi) as H1.
  destruct (shr_fexp prec emax mx ex lx) as [mrs1 e1]. simpl fst in H1. simpl snd in H1.
  destruct H1 as (Hm1 & He1 & Hi1). fold d in He1.
  rewrite Z.max_r in He1 by exact Hf. subst e1.
  destruct Hi1 as (I1 & I2 & I3).
  assert (HL1 : L <= inject_Z (shr_m mrs1) * P2 (fexp64 d)).
  { apply (repr_below V d); assumption. }
  set (n1 := round_nearest_even (shr_m mrs1) (loc_of_shr_record mrs1)).
  assert (Hn1 : (shr_m mrs1 <= n1)%Z /\ inject_Z n1 * P2 (fexp64 d) <= U).
  { destruct (rne_cases mrs1) as [E|[E Ex]]; fold n1 in E; rewrite E.
    - split; [lia|lra].
    - split; [lia|]. apply (repr_above V d); try assumption.
      destruct (Qlt_le_dec (inject_Z (shr_m mrs1) * P2 (fexp64 d)) V) as [Hlt|Hge]; [exact Hlt|].
      assert (Heq : V == inject_Z (shr_m mrs1) * P2 (fexp64 d)) by lra.
      apply I3 in Heq. congruence. }
  destruct Hn1 as [Hn1 HWU].
  set (W := inject_Z n1 * P2 (fexp64 d)) in *.
  assert (HLW : L <= W).
  { apply Qle_trans with (1 := HL1). apply Zq_le; [apply P2_pos|exact Hn1]. }
  assert (Hi2 : inb n1 (fexp64 d) (loc_exactb loc_Exact) W).
  { unfold inb, W. pose proof (P2_pos (fexp64 d)). zq. repeat split; try lra. }
  assert (Hn0 : (0 <= n1)%Z) by lia.
  pose proof (shr_fexp_inb n1 (fexp64 d) loc_Exact W Hn0 Hi2) as H2.
  destruct (shr_fexp prec emax n1 (fexp64 d) loc_Exact) as [mrs2 e2].
  simpl fst in H2. simpl snd in H2. destruct H2 as (Hm2 & He2 & J1 & J2 & J3).
  destruct (Z.eq_dec n1 0) as [Z0|NZ].
  - (* the rounded mantissa is zero *)
    assert (HW0 : W == 0) by (unfold W; rewrite Z0; change (inject_Z 0) with 0; ring).
    assert (shr_m mrs2 = 0)%Z.
    { assert (shr_m mrs2 <= 0)%Z; [|lia].
      apply (Zq_le_inv _ _ (P2 e2)); [apply P2_pos|]. change (inject_Z 0) with 0. lra. }
    rewrite H. left. split; [reflexivity|lra].
  - assert (Hp : (0 < n1)%Z) by lia.
    destruct n1 as [|p1|p1] eqn:En1; try lia.
    simpl Zdigits2 in He2. set (d2 := (Zpos (digits2_pos p1) + fexp64 d)%Z) in *.
    pose proof (mag_bounds p1 (fexp64 d)) as [M1 M2]. fold d2 in M1, M2. fold W in M1, M2.
    assert (Hfine : (fexp64 d <= fexp64 d2)%Z).
    { destruct (Z_le_gt_dec (fexp64 d) (-1074)) as [Hs|Hs].
      - rewrite !fexp_spec in *. lia.
      - assert (Hdd : (fexp64 d = d - 53)%Z) by (rewrite fexp_spec in *; lia).
        destruct Hmag as [Hmag|Hmag]; [|rewrite fexp_spec in *; lia].
        assert (Hk : (fexp64 d <= d - 1)%Z) by lia.
        rewrite (P2_split _ _ Hk) in Hmag.
        assert (Hk2 : (2 ^ (d - 1 - fexp64 d) <= shr_m mrs1)%Z).
        { apply Z.lt_succ_r. apply (Zq_lt_inv _ _ (P2 (fexp64 d))); [apply P2_pos|].
          unfold Z.succ. lra. }
        assert (HW : P2 (d - 1) <= W).
        { rewrite (P2_split _ _ Hk). unfold W. apply Zq_le; [apply P2_pos|lia]. }
        assert (P2 (d - 1) < P2 d2) by lra. apply P2_lt_inv in H.
        rewrite !fexp_spec. lia. }
    rewrite Z.max_r in He2 by exact Hfine. subst e2.
    assert (HL2 : L <= inject_Z (shr_m mrs2) * P2 (fexp64 d2)).
    { apply (repr_below W d2); try assumption. now left. }
    destruct (shr_m mrs2) as [|m2|m2] eqn:Em2; [| |lia].
    + left. split; [reflexivity|]. change (inject_Z 0) with 0 in HL2. lra.
    + right.
      assert (Hfin : (fexp64 d2 <= emax - prec)%Z).
      { pose proof (repr_lt_top U HU) as HT.
        assert (P2 (d2 - 1) < P2 1024) by lra. apply P2_lt_inv in H.
        change (emax - prec)%Z with 971%Z. rewrite fexp_spec. lia. }
      apply Z.leb_le in Hfin. rewrite Hfin.
      exists m2, (fexp64 d2). split; [reflexivity|]. split; [exact HL2|lra].
Qed.

(** ** Values, order and sign *)

Lemma mag_pos m e : 0 < mag m e.
Proof. apply Qmult_lt_0_compat; [reflexivity|apply P2_pos]. Qed.

Lemma Qcmp_lt a b : a < b -> (a ?= b) = Lt.
Proof. exact (proj1 (Qlt_alt a b)). Qed.

Lemma Qcmp_gt a b : b < a -> (a ?= b) = Gt.
Proof. exact (proj1 (Qgt_alt a b)). Qed.

Lemma Qcmp_eq a b : a == b -> (a ?= b) = Eq.
Proof. exact (proj1 (Qeq_alt a b)). Qed.

Lemma SF2Q_finite s m e :
  SF2Q (S754_finite s m e) == if s then - mag m e else mag m e.
Proof.
  unfold SF2Q, mag. fold (P2 e). destruct s.
  - change ((-1 * Z.pos m)%Z # 1) with (inject_Z (- Zpos m)). rewrite inject_Z_opp. ring.
  - change ((1 * Z.pos m)%Z # 1) with (inject_Z (Zpos m)). reflexivity.
Qed.

Lemma canonical_lt m1 e1 m2 e2 :
  bounded prec emax m1 e1 = true -> bounded prec emax m2 e2 = true ->
  (e1 < e2)%Z -> mag m1 e1 < mag m2 e2.
Proof.
  intros B1 B2 H. apply bounded_inv in B1, B2. destruct B1 as [B1 _], B2 as [B2 _].
  pose proof (mag_bounds m1 e1) as [_ M1]. pose proof (mag_bounds m2 e2) as [M2 _].
  unfold mag. apply Qlt_le_trans with (1 := M1). apply Qle_trans with (2 := M2).
  apply P2_le. rewrite fexp_spec in B1, B2. lia.
Qed.

Lemma mag_compare m1 m2 e :
  (mag m1 e ?= mag m2 e) = (m1 ?= m2)%positive.
Proof.
  pose proof (P2_pos e) as Ht.
  destruct (Pos.compare_spec m1 m2) as [E|E|E].
  - subst. apply Qcmp_eq. reflexivity.
  - apply Qcmp_lt. unfold mag. apply Qmult_lt_r; [exact Ht|]. rewrite <- Zlt_Qlt. lia.
  - apply Qcmp_gt. unfold mag. apply Qmult_lt_r; [exact Ht|]. rewrite <- Zlt_Qlt. lia.
Qed.

Lemma mag_compare_full m1 e1 m2 e2 :
  bounded prec emax m1 e1 = true -> bounded prec emax m2 e2 = true ->
  (mag m1 e1 ?= mag m2 e2) =
  match (e1 ?= e2)%Z with
  | Lt => Lt
  | Gt => Gt
  | Eq => Pos.compare_cont Eq m1 m2
  end.
Proof.
  intros B1 B2. destruct (Z.compare_spec e1 e2) as [E|E|E].
  - subst. apply mag_compare.
  - apply Qcmp_lt. now apply canonical_lt.
  - apply Qcmp_gt. now apply canonical_lt.
Qed.

Lemma Qcompare_opp a b : (- a ?= - b) = CompOpp (a ?= b).
Proof.
  destruct (Q_dec a b) as [[E|E]|E].
  - rewrite (Qcmp_lt a b E). apply Qcmp_gt. lra.
  - rewrite (Qcmp_gt a b E). apply Qcmp_lt. lra.
  - rewrite (Qcmp_eq a b E). apply Qcmp_eq. lra.
Qed.

(** Comparison of finite numbers is comparison of their values. *)
Lemma SFcompare_val x y :
  valid_binary x = true -> valid_binary y = true ->
  SFfin x = true -> SFfin y = true ->
  SFcompare x y = Some (SF2Q x ?= SF2Q y).
Proof.
  intros Vx Vy Fx Fy.
  destruct x as [sx|sx| |sx mx ex]; try discriminate;
  destruct y as [sy|sy| |sy my ey]; try discriminate.
  - reflexivity.
  - simpl SFcompare. f_equal. symmetry.
    pose proof (mag_pos my ey). pose proof (SF2Q_finite sy my ey) as E.
    change (SF2Q (S754_zero sx)) with 0.
    destruct sy; [apply Qcmp_gt|apply Qcmp_lt]; lra.
  - simpl SFcompare. f_equal. symmetry.
    pose proof (mag_pos mx ex). pose proof (SF2Q_finite sx mx ex) as E.
    change (SF2Q (S754_zero sy)) with 0.
    destruct sx; [apply Qcmp_lt|apply Qcmp_gt]; lra.
  - simpl in Vx, Vy. simpl SFcompare. f_equal. symmetry.
    pose proof (mag_pos mx ex). pose proof (mag_pos my ey).
    pose proof (SF2Q_finite sx mx ex) as Ex. pose proof (SF2Q_finite sy my ey) as Ey.
    destruct sx, sy.
    + rewrite Ex, Ey, Qcompare_opp, (mag_compare_full _ _ _ _ Vx Vy).
      destruct (ex ?= ey)%Z; reflexivity.
    + apply Qcmp_lt. lra.
    + apply Qcmp_gt. lra.
    + rewrite Ex, Ey. apply (mag_compare_full _ _ _ _ Vx Vy).
Qed.

Lemma repr_mag m e : bounded prec emax m e = true -> repr (mag m e).
Proof. intro B. right. exists m, e. split; [exact B|reflexivity]. Qed.

Lemma repr_0 : repr 0.
Proof. now left. Qed.

Lemma repr_pos x :
  valid_binary x = true -> SFfin x = true -> 0 <= SF2Q x -> repr (SF2Q x).
Proof.
  intros V F H. destruct x as [s|s| |s m e]; try discriminate.
  - apply repr_0.
  - pose proof (mag_pos m e). pose proof (SF2Q_finite s m e) as E. destruct s.
    + lra.
    + right. exists m, e. split; [exact V|exact E].
Qed.

Lemma repr_neg x :
  valid_binary x = true -> SFfin x = true -> SF2Q x <= 0 -> repr (- SF2Q x).
Proof.
  intros V F H. destruct x as [s|s| |s m e]; try discriminate.
  - left. reflexivity.
  - pose proof (mag_pos m e). pose proof (SF2Q_finite s m e) as E. destruct s.
    + right. exists m, e. split; [exact V|]. rewrite E. unfold mag. ring.
    + lra.
Qed.

(** The signed form of the bracket: a rounded value stays between two
    finite numbers that enclose the exact one. *)
Lemma round_aux_signed s mx ex lx V lo hi :
  (0 <= mx)%Z -> inb mx ex (loc_exactb lx) V ->
  (ex <= fexp64 (Zdigits2 mx + ex))%Z ->
  valid_binary lo = true -> SFfin lo = true ->
  valid_binary hi = true -> SFfin hi = true ->
  SF2Q lo <= sgn s V -> sgn s V <= SF2Q hi ->
  SFfin (binary_round_aux prec emax s mx ex lx) = true /\
  SFsign (binary_round_aux prec emax s mx ex lx) = s /\
  SF2Q lo <= SF2Q (binary_round_aux prec emax s mx ex lx) /\
  SF2Q (binary_round_aux prec emax s mx ex lx) <= SF2Q hi.
Proof.
  intros Hm Hi Hf Vl Fl Vh Fh H1 H2.
  assert (HV : 0 <= V).
  { destruct Hi as (I1 & _). apply Qle_trans with (2 := I1).
    apply Qmult_le_0_compat; [now rewrite Zle_Qle in Hm|apply Qlt_le_weak, P2_pos]. }
  destruct s; unfold sgn in H1, H2.
  - (* negative results *)
    assert (RU : repr (- SF2Q lo)) by (apply repr_neg; try assumption; lra).
    assert (HU' : V <= - SF2Q lo) by lra.
    destruct (Qlt_le_dec (SF2Q hi) 0) as [Hneg|Hpos].
    + assert (RL : repr (- SF2Q hi)) by (apply repr_neg; try assumption; lra).
      assert (HL' : - SF2Q hi <= V) by lra.
      destruct (round_aux_bracket true mx ex lx V _ _ Hm Hi Hf RL RU HL' HU')
        as [[E HL]|(m & e & E & HL & HU)]; rewrite E.
      * lra.
      * pose proof (SF2Q_finite true m e) as Ev. cbv iota in Ev. fold (mag m e) in HL, HU.
        repeat split; try reflexivity; lra.
    + destruct (round_aux_bracket true mx ex lx V _ _ Hm Hi Hf repr_0 RU HV HU')
        as [[E HL]|(m & e & E & HL & HU)]; rewrite E.
      * change (SF2Q (S754_zero true)) with 0. repeat split; try reflexivity; lra.
      * pose proof (SF2Q_finite true m e) as Ev. cbv iota in Ev. fold (mag m e) in HL, HU.
        repeat split; try reflexivity; lra.
  - assert (RU : repr (SF2Q hi)) by (apply repr_pos; try assumption; lra).
    destruct (Qlt_le_dec 0 (SF2Q lo)) as [Hpos|Hneg].
    + assert (RL : repr (SF2Q lo)) by (apply repr_pos; try assumption; lra).
      destruct (round_aux_bracket false mx ex lx V _ _ Hm Hi Hf RL RU H1 H2)
        as [[E HL]|(m & e & E & HL & HU)]; rewrite E.
      * lra.
      * pose proof (SF2Q_finite false m e) as Ev. cbv iota in Ev. fold (mag m e) in HL, HU.
        repeat split; try reflexivity; lra.
    + destruct (round_aux_bracket false mx ex lx V _ _ Hm Hi Hf repr_0 RU HV H2)
        as [[E HL]|(m & e & E & HL & HU)]; rewrite E.
      * change (SF2Q (S754_zero false)) with 0. repeat split; try reflexivity; lra.
      * pose proof (SF2Q_finite false m e) as Ev. cbv iota in Ev. fold (mag m e) in HL, HU.
        repeat split; try reflexivity; lra.
Qed.

(** ** Addition and subtraction *)

Lemma iter_xO_val m d : Zpos (Pos.iter xO m d) = (Zpos m * 2 ^ Zpos d)%Z.
Proof.
  induction d as [|d IH] using Pos.peano_ind.
  - simpl. lia.
  - rewrite Pos.iter_succ, Pos2Z.inj_xO, IH, Pos2Z.inj_succ, Z.pow_succ_r by lia. ring.
Qed.

Lemma iter_xO_digits m d :
  digits2_pos (Pos.iter xO m d) = (digits2_pos m + d)%positive.
Proof.
  induction d as [|d IH] using Pos.peano_ind.
  - simpl. lia.
  - rewrite Pos.iter_succ. simpl. rewrite IH. lia.
Qed.

Lemma shl_align_spec mx ex e' :
  mag (fst (shl_align mx ex e')) (snd (shl_align mx ex e')) == mag mx ex /\
  snd (shl_align mx ex e') = Z.min ex e' /\
  (Zpos (digits2_pos (fst (shl_align mx ex e'))) + snd (shl_align mx ex e') =
   Zpos (digits2_pos mx) + ex)%Z.
Proof.
  unfold shl_align. destruct (e' - ex)%Z as [|d|d] eqn:E; simpl fst; simpl snd.
  - repeat split; try reflexivity; lia.
  - repeat split; try reflexivity; lia.
  - assert (He : ex = (Zpos d + e')%Z) by lia.
    repeat split; try lia.
    + unfold mag. rewrite iter_xO_val, inject_Z_mult, He, P2_add, (P2_Z (Zpos d)) by lia. ring.
    + rewrite iter_xO_digits. lia.
Qed.

Lemma binary_round_signed s m e lo hi :
  valid_binary lo = true -> SFfin lo = true ->
  valid_binary hi = true -> SFfin hi = true ->
  SF2Q lo <= sgn s (mag m e) -> sgn s (mag m e) <= SF2Q hi ->
  SFfin (binary_round prec emax s m e) = true /\
  SFsign (binary_round prec emax s m e) = s /\
  SF2Q lo <= SF2Q (binary_round prec emax s m e) /\
  SF2Q (binary_round prec emax s m e) <= SF2Q hi.
Proof.
  intros Vl Fl Vh Fh H1 H2. unfold binary_round.
  pose proof (shl_align_spec m e (fexp64 (Zpos (digits2_pos m) + e))) as (S1 & S2 & S3).
  destruct (shl_align m e (fexp64 (Zpos (digits2_pos m) + e))) as [mz ez].
  simpl fst in *. simpl snd in *.
  apply (round_aux_signed s (Zpos mz) ez loc_Exact (mag m e)); try assumption; try lia.
  - unfold inb. fold (mag mz ez). pose proof (P2_pos ez). rewrite <- S1. unfold mag. zq.
    repeat split; try lra.
  - simpl Zdigits2. rewrite S3, S2. lia.
Qed.

Lemma binary_normalize_signed z e sz lo hi :
  valid_binary lo = true -> SFfin lo = true ->
  valid_binary hi = true -> SFfin hi = true ->
  SF2Q lo <= inject_Z z * P2 e -> inject_Z z * P2 e <= SF2Q hi ->
  SFfin (binary_normalize prec emax z e sz) = true /\
  SF2Q lo <= SF2Q (binary_normalize prec emax z e sz) /\
  SF2Q (binary_normalize prec emax z e sz) <= SF2Q hi.
Proof.
  intros Vl Fl Vh Fh H1 H2. destruct z as [|p|p]; simpl binary_normalize.
  - change (SF2Q (S754_zero sz)) with 0. change (inject_Z 0) with 0 in *.
    repeat split; lra.
  - destruct (binary_round_signed false p e lo hi) as (A & _ & B & C); auto.
  - destruct (binary_round_signed true p e lo hi) as (A & _ & B & C); auto;
      unfold sgn, mag; change (Zneg p) with (- Zpos p)%Z in *; zq; lra.
Qed.

Lemma SF2Q_zero s : SF2Q (S754_zero s) = 0.
Proof. reflexivity. Qed.

Lemma SF2Q_cond s m e :
  SF2Q (S754_finite s m e) == inject_Z (cond_Zopp s (Zpos m)) * P2 e.
Proof.
  rewrite SF2Q_finite. unfold mag. destruct s; simpl cond_Zopp.
  - change (Zneg m) with (- Zpos m)%Z. rewrite inject_Z_opp. ring.
  - reflexivity.
Qed.

Lemma aligned_val s mx ex ey :
  inject_Z (cond_Zopp s (Zpos (fst (shl_align mx ex (Z.min ex ey))))) * P2 (Z.min ex ey)
  == SF2Q (S754_finite s mx ex).
Proof.
  pose proof (shl_align_spec mx ex (Z.min ex ey)) as (S1 & S2 & _).
  rewrite (Z.min_r ex (Z.min ex ey)) in S2 by lia. rewrite S2 in S1.
  rewrite SF2Q_cond. unfold mag in S1.
  destruct s; simpl cond_Zopp.
  - change (Zneg ?p) with (- Zpos p)%Z.
    change (Zneg (fst (shl_align mx ex (Z.min ex ey)))) with (- Zpos (fst (shl_align mx ex (Z.min ex ey))))%Z.
    change (Zneg mx) with (- Zpos mx)%Z. rewrite !inject_Z_opp. lra.
  - exact S1.
Qed.

(** Addition of finite numbers. *)
Lemma SFadd_bracket x y lo hi :
  valid_binary x = true -> SFfin x = true ->
  valid_binary y = true -> SFfin y = true ->
  valid_binary lo = true -> SFfin lo = true ->
  valid_binary hi = true -> SFfin hi = true ->
  SF2Q lo <= SF2Q x + SF2Q y -> SF2Q x + SF2Q y <= SF2Q hi ->
  SFfin (SF64add x y) = true /\
  SF2Q lo <= SF2Q (SF64add x y) /\ SF2Q (SF64add x y) <= SF2Q hi.
Proof.
  intros Vx Fx Vy Fy Vl Fl Vh Fh H1 H2. unfold SF64add.
  destruct x as [sx|sx| |sx mx ex]; try discriminate;
  destruct y as [sy|sy| |sy my ey]; try discriminate.
  - rewrite !SF2Q_zero in *. destruct sx, sy; simpl; rewrite ?SF2Q_zero; repeat split; lra.
  - rewrite SF2Q_zero in *. simpl SFadd. repeat split; try reflexivity; lra.
  - rewrite SF2Q_zero in *. simpl SFadd. repeat split; try reflexivity; lra.
  - simpl SFadd. apply binary_normalize_signed; try assumption.
    + rewrite inject_Z_plus, Qmult_plus_distr_l, aligned_val.
      rewrite (Z.min_comm ex ey), aligned_val. exact H1.
    + rewrite inject_Z_plus, Qmult_plus_distr_l, aligned_val.
      rewrite (Z.min_comm ex ey), aligned_val. exact H2.
Qed.

(** Subtraction of finite numbers. *)
Lemma SFsub_bracket x y lo hi :
  valid_binary x = true -> SFfin x = true ->
  valid_binary y = true -> SFfin y = true ->
  valid_binary lo = true -> SFfin lo = true ->
  valid_binary hi = true -> SFfin hi = true ->
  SF2Q lo <= SF2Q x - SF2Q y -> SF2Q x - SF2Q y <= SF2Q hi ->
  SFfin (SF64sub x y) = true /\
  SF2Q lo <= SF2Q (SF64sub x y) /\ SF2Q (SF64sub x y) <= SF2Q hi.
Proof.
  intros Vx Fx Vy Fy Vl Fl Vh Fh H1 H2. unfold SF64sub.
  destruct x as [sx|sx| |sx mx ex]; try discriminate;
  destruct y as [sy|sy| |sy my ey]; try discriminate.
  - rewrite !SF2Q_zero in *. destruct sx, sy; simpl; rewrite ?SF2Q_zero; repeat split; lra.
  - rewrite SF2Q_zero in *. simpl SFsub.
    pose proof (SF2Q_finite sy my ey) as E1. pose proof (SF2Q_finite (negb sy) my ey) as E2.
    destruct sy; simpl negb in *; cbv iota in E1, E2; repeat split; try reflexivity; lra.
  - rewrite SF2Q_zero in *. simpl SFsub. repeat split; try reflexivity; lra.
  - simpl SFsub. apply binary_normalize_signed; try assumption.
    + unfold Z.sub. rewrite inject_Z_plus, inject_Z_opp, Qmult_plus_distr_l, aligned_val.
      rewrite (Z.min_comm ex ey).
      setoid_replace (- inject_Z (cond_Zopp sy (Z.pos (fst (shl_align my ey (Z.min ey ex))))) * P2 (Z.min ey ex))
        with (- (inject_Z (cond_Zopp sy (Z.pos (fst (shl_align my ey (Z.min ey ex))))) * P2 (Z.min ey ex))) by ring.
      rewrite aligned_val. lra.
    + unfold Z.sub. rewrite inject_Z_plus, inject_Z_opp, Qmult_plus_distr_l, aligned_val.
      rewrite (Z.min_comm ex ey).
      setoid_replace (- inject_Z (cond_Zopp sy (Z.pos (fst (shl_align my ey (Z.min ey ex))))) * P2 (Z.min ey ex))
        with (- (inject_Z (cond_Zopp sy (Z.pos (fst (shl_align my ey (Z.min ey ex))))) * P2 (Z.min ey ex))) by ring.
      rewrite aligned_val. lra.
Qed.

(** ** Multiplication and division *)

Lemma digits2_lower p k : (0 <= k)%Z -> (2 ^ k <= Zpos p)%Z -> (k + 1 <= Zpos (digits2_pos p))%Z.
Proof.
  intros Hk H. pose proof (digits2_bounds p) as [_ H2].
  assert (2 ^ k < 2 ^ Zpos (digits2_pos p))%Z by lia.
  apply Z.pow_lt_mono_r_iff in H0; lia.
Qed.

Lemma digits2_mul mx my :
  (Zpos (digits2_pos mx) + Zpos (digits2_pos my) - 1 <= Zpos (digits2_pos (mx * my)))%Z.
Proof.
  pose proof (digits2_bounds mx) as [H1 _]. pose proof (digits2_bounds my) as [H2 _].
  set (dx := Zpos (digits2_pos mx)) in *. set (dy := Zpos (digits2_pos my)) in *.
  assert (H : (2 ^ (dx + dy - 2) <= Zpos (mx * my))%Z).
  { replace (dx + dy - 2)%Z with ((dx - 1) + (dy - 1))%Z by lia.
    rewrite Z.pow_add_r by lia. rewrite Pos2Z.inj_mul.
    apply Z.mul_le_mono_nonneg; lia. }
  apply digits2_lower in H; lia.
Qed.

#[export] Instance sgn_proper s : Proper (Qeq ==> Qeq) (sgn s).
Proof. intros a b E. destruct s; unfold sgn; now rewrite E. Qed.

Lemma sgn_xorb sx sy a b :
  sgn (xorb sx sy) (a * b) == sgn sx a * sgn sy b.
Proof. destruct sx, sy; unfold sgn; simpl; ring. Qed.

Lemma SF2Q_sgn s m e : SF2Q (S754_finite s m e) == sgn s (mag m e).
Proof. apply SF2Q_finite. Qed.

(** Multiplication of finite numbers. *)
Lemma SFmul_bracket x y lo hi :
  valid_binary x = true -> SFfin x = true ->
  valid_binary y = true -> SFfin y = true ->
  valid_binary lo = true -> SFfin lo = true ->
  valid_binary hi = true -> SFfin hi = true ->
  SF2Q lo <= SF2Q x * SF2Q y -> SF2Q x * SF2Q y <= SF2Q hi ->
  SFfin (SF64mul x y) = true /\
  SF2Q lo <= SF2Q (SF64mul x y) /\ SF2Q (SF64mul x y) <= SF2Q hi.
Proof.
  intros Vx Fx Vy Fy Vl Fl Vh Fh H1 H2. unfold SF64mul.
  destruct x as [sx|sx| |sx mx ex]; try discriminate;
  destruct y as [sy|sy| |sy my ey]; try discriminate;
  simpl SFmul; rewrite ?SF2Q_zero in *; try (repeat split; try reflexivity; lra).
  assert (Hv : mag (mx * my) (ex + ey) == mag mx ex * mag my ey).
  { unfold mag. rewrite Pos2Z.inj_mul, inject_Z_mult, P2_add. ring. }
  destruct (round_aux_signed (xorb sx sy) (Zpos (mx * my)) (ex + ey) loc_Exact
              (mag (mx * my) (ex + ey)) lo hi) as (A & _ & B & C); try assumption; try lia.
  - unfold inb. fold (mag (mx * my) (ex + ey)). pose proof (P2_pos (ex + ey)).
    unfold mag. zq. repeat split; try lra.
  - simpl Zdigits2. simpl in Vx, Vy. apply bounded_inv in Vx, Vy.
    destruct Vx as [Vx _], Vy as [Vy _]. pose proof (digits2_mul mx my).
    rewrite fexp_spec in *. lia.
  - rewrite Hv, sgn_xorb, <- !SF2Q_sgn. exact H1.
  - rewrite Hv, sgn_xorb, <- !SF2Q_sgn. exact H2.
  - auto.
Qed.

Lemma new_location_exact n r :
  loc_exactb (new_location n r) = (r =? 0)%Z.
Proof.
  unfold new_location, new_location_even, new_location_odd.
  destruct (Z.even n), (r =? 0)%Z; reflexivity.
Qed.

Lemma div_core_spec mx ex my ey q e2 l :
  SFdiv_core_binary prec emax (Zpos mx) ex (Zpos my) ey = (q, e2, l) ->
  (0 <= q)%Z /\
  inb q e2 (loc_exactb l) (mag mx ex / mag my ey) /\
  (e2 <= fexp64 (Zdigits2 q + e2))%Z.
Proof.
  unfold SFdiv_core_binary. change (Zdigits2 (Zpos mx)) with (Zpos (digits2_pos mx)).
  change (Zdigits2 (Zpos my)) with (Zpos (digits2_pos my)).
  set (d1 := Zpos (digits2_pos mx)). set (d2 := Zpos (digits2_pos my)).
  set (e' := Z.min (fexp64 (d1 + ex - (d2 + ey))) (ex - ey)).
  set (s := (ex - ey - e')%Z).
  assert (Hs : (0 <= s)%Z) by (unfold s, e'; lia).
  set (m' := match s with Zpos _ => Z.shiftl (Zpos mx) s | Z0 => Zpos mx | Zneg _ => 0%Z end).
  assert (Hm' : m' = (Zpos mx * 2 ^ s)%Z).
  { unfold m'. destruct s as [|p|p]; [simpl; lia| |lia]. apply Z.shiftl_mul_pow2. lia. }
  clearbody m'.
  pose proof (Z_div_mod m' (Zpos my) ltac:(lia)) as Hdm.
  destruct (Z.div_eucl m' (Zpos my)) as [q' r]. destruct Hdm as [Hq Hr].
  intro Heq. injection Heq as <- <- <-. rewrite new_location_exact.
  pose proof (digits2_bounds mx) as [F1 F1']. pose proof (digits2_bounds my) as [F2 F2'].
  fold d1 in F1, F1'. fold d2 in F2, F2'.
  assert (Hq0 : (0 <= q')%Z) by nia.
  pose proof (P2_pos e') as Ht. pose proof (P2_pos ey) as Hty.
  assert (Hmy : 0 < inject_Z (Zpos my)) by reflexivity.
  split; [exact Hq0|]. split.
  - (* the quotient and what is left of it *)
    set (X := inject_Z r / inject_Z (Zpos my)).
    assert (HV : mag mx ex / mag my ey == (inject_Z q' + X) * P2 e').
    { unfold mag, X.
      assert (Ee : P2 ex == inject_Z (2 ^ s) * P2 e' * P2 ey).
      { rewrite <- (P2_Z s) by lia. rewrite <- !P2_add. unfold s.
        now replace (ex - ey - e' + e' + ey)%Z with ex by lia. }
      rewrite Ee.
      assert (Em : inject_Z (Zpos mx) * inject_Z (2 ^ s) == inject_Z (Zpos my) * inject_Z q' + inject_Z r).
      { rewrite <- !inject_Z_mult, <- inject_Z_plus, <- Hm', Hq. reflexivity. }
      setoid_replace (inject_Z (Z.pos mx) * (inject_Z (2 ^ s) * P2 e' * P2 ey))
        with ((inject_Z (Z.pos mx) * inject_Z (2 ^ s)) * (P2 e' * P2 ey)) by ring.
      rewrite Em. field. split; lra. }
    assert (HX : 0 <= X /\ X < 1).
    { unfold X. split.
      - apply Qle_shift_div_l; [exact Hmy|]. rewrite Qmult_0_l. change (inject_Z 0 <= inject_Z r). rewrite <- Zle_Qle. lia.
      - apply Qlt_shift_div_r; [exact Hmy|]. rewrite Qmult_1_l. rewrite <- Zlt_Qlt. lia. }
    assert (HY : 0 <= X * P2 e' /\ X * P2 e' < P2 e').
    { split.
      - apply Qmult_le_0_compat; lra.
      - rewrite <- (Qmult_1_l (P2 e')) at 2. apply Qmult_lt_r; lra. }
    unfold inb. zq. repeat split; try lra.
    + intro E. apply Z.eqb_eq in E. subst r. unfold X.
      change (inject_Z 0) with 0 in *. rewrite HV. unfold X. field. lra.
    + intro E. apply Z.eqb_eq.
      assert (X * P2 e' == 0) by lra.
      assert (X == 0).
      { destruct (Qeq_dec X 0) as [E0|N0]; [exact E0|].
        apply Qmult_integral in H. destruct H; [assumption|lra]. }
      unfold X in H0.
      assert (inject_Z r == 0).
      { setoid_replace (inject_Z r) with (inject_Z r / inject_Z (Zpos my) * inject_Z (Zpos my))
          by (field; lra). rewrite H0. ring. }
      apply (inject_Z_injective r 0). exact H1.
  - (* the quotient has enough digits *)
    destruct (Z_le_gt_dec d2 (d1 - 1 + s)) as [HA|HB].
    + set (k := (d1 - 1 + s - d2)%Z).
      assert (Hk : (2 ^ k <= q')%Z).
      { destruct (Z_le_gt_dec (2 ^ k) q') as [H|H]; [exact H|exfalso].
        assert (P1 : (2 ^ (d1 - 1 + s) <= m')%Z).
        { rewrite Hm', Z.pow_add_r by lia. apply Z.mul_le_mono_nonneg_r; lia. }
        assert (P2' : (2 ^ (d1 - 1 + s) = 2 ^ k * 2 ^ d2)%Z).
        { rewrite <- Z.pow_add_r by lia. f_equal. unfold k. lia. }
        assert (0 < 2 ^ k)%Z by (apply Z.pow_pos_nonneg; lia).
        nia. }
      assert (0 < 2 ^ k)%Z by (apply Z.pow_pos_nonneg; lia).
      destruct q' as [|qp|qp]; try lia.
      apply digits2_lower in Hk; [|unfold k; lia].
      change (Zdigits2 (Zpos qp)) with (Zpos (digits2_pos qp)).
      unfold k, s, e' in *. rewrite !fexp_spec in *. lia.
    + assert (He : (e' <= -1074)%Z).
      { unfold s, e' in *. rewrite !fexp_spec in *. lia. }
      rewrite fexp_spec. lia.
Qed.

(** Division of a finite number by a finite number other than zero. *)
Lemma SFdiv_bracket x y lo hi :
  valid_binary x = true -> SFfin x = true ->
  valid_binary y = true -> SFfin y = true -> ~ SF2Q y == 0 ->
  valid_binary lo = true -> SFfin lo = true ->
  valid_binary hi = true -> SFfin hi = true ->
  SF2Q lo <= SF2Q x / SF2Q y -> SF2Q x / SF2Q y <= SF2Q hi ->
  SFfin (SF64div x y) = true /\
  SF2Q lo <= SF2Q (SF64div x y) /\ SF2Q (SF64div x y) <= SF2Q hi.
Proof.
  intros Vx Fx Vy Fy Ny Vl Fl Vh Fh H1 H2. unfold SF64div.
  destruct y as [sy|sy| |sy my ey]; try discriminate.
  { exfalso. apply Ny. reflexivity. }
  destruct x as [sx|sx| |sx mx ex]; try discriminate.
  - simpl SFdiv. rewrite !SF2Q_zero in *.
    assert (0 / SF2Q (S754_finite sy my ey) == 0) by (field; exact Ny).
    repeat split; try reflexivity; lra.
  - simpl SFdiv.
    destruct (SFdiv_core_binary prec emax (Zpos mx) ex (Zpos my) ey) as [[mz ez] lz] eqn:Ec.
    destruct (div_core_spec _ _ _ _ _ _ _ Ec) as (D1 & D2 & D3).
    pose proof (mag_pos my ey) as Pm.
    assert (Hv : sgn (xorb sx sy) (mag mx ex / mag my ey)
                 == SF2Q (S754_finite sx mx ex) / SF2Q (S754_finite sy my ey)).
    { rewrite !SF2Q_sgn. destruct sx, sy; unfold sgn; simpl; field; lra. }
    destruct (round_aux_signed (xorb sx sy) mz ez lz (mag mx ex / mag my ey) lo hi)
      as (A & _ & B & C); try assumption.
    + rewrite Hv. exact H1.
    + rewrite Hv. exact H2.
    + auto.
Qed.

(** Rounding gives a zero, an infinity or a finite number of the sign it
    was given, never [NaN]. *)
Lemma round_aux_cases s mx ex lx :
  (0 <= mx)%Z ->
  binary_round_aux prec emax s mx ex lx = S754_zero s \/
  binary_round_aux prec emax s mx ex lx = S754_infinity s \/
  exists m e, binary_round_aux prec emax s mx ex lx = S754_finite s m e.
Proof.
  intro Hm. unfold binary_round_aux.
  set (V := (inject_Z mx * P2 ex + (if loc_exactb lx then 0 else P2 ex * (1 # 2)))%Q).
  assert (Hi : inb mx ex (loc_exactb lx) V).
  { unfold inb, V. pose proof (P2_pos ex). zq. destruct (loc_exactb lx); repeat split; try lra;
      try discriminate. }
  pose proof (shr_fexp_inb mx ex lx V Hm Hi) as H1.
  destruct (shr_fexp prec emax mx ex lx) as [mrs1 e1]. simpl fst in H1. simpl snd in H1.
  destruct H1 as (Hm1 & _ & _).
  set (n1 := round_nearest_even (shr_m mrs1) (loc_of_shr_record mrs1)).
  assert (Hn1 : (0 <= n1)%Z).
  { destruct (rne_cases mrs1) as [E|[E _]]; fold n1 in E; lia. }
  assert (Hi2 : inb n1 e1 (loc_exactb loc_Exact) (inject_Z n1 * P2 e1)%Q).
  { unfold inb. pose proof (P2_pos e1). zq. repeat split; try lra. }
  pose proof (shr_fexp_inb n1 e1 loc_Exact _ Hn1 Hi2) as H2.
  destruct (shr_fexp prec emax n1 e1 loc_Exact) as [mrs2 e2]. simpl fst in H2.
  destruct H2 as (Hm2 & _ & _).
  destruct (shr_m mrs2) as [|m2|m2]; try lia; auto.
  destruct (e2 <=? emax - prec)%Z; eauto.
Qed.

Lemma round_aux_notnan s mx ex lx :
  (0 <= mx)%Z -> binary_round_aux prec emax s mx ex lx <> S754_nan.
Proof.
  intro H. destruct (round_aux_cases s mx ex lx H) as [E|[E|(m & e & E)]]; rewrite E; discriminate.
Qed.

Lemma binary_normalize_notnan z e sz : binary_normalize prec emax z e sz <> S754_nan.
Proof.
  destruct z as [|p|p]; simpl; try discriminate; unfold binary_round;
    destruct (shl_align _ _ _) as [mz ez]; apply round_aux_notnan; lia.
Qed.

Local Close Scope Q_scope.
Local Open Scope float_scope.

(** * The arithmetic of the program *)

(** *** Numbers and their values *)

Lemma F2Q_eq x : F2Q x = SF2Q (Prim2SF x).
Proof. reflexivity. Qed.

Lemma fin_spec x : is_finite x = SFfin (Prim2SF x).
Proof. rewrite is_finite_spec. destruct (Prim2SF x); reflexivity. Qed.

Lemma notnan_spec x : negb (is_nan x) = SFnotnan (Prim2SF x).
Proof. rewrite is_nan_spec. destruct (Prim2SF x); reflexivity. Qed.

Lemma fin_notnan x : is_finite x = true -> is_nan x = false.
Proof. rewrite fin_spec, is_nan_spec. destruct (Prim2SF x); simpl; congruence. Qed.

Lemma ltb_Q x y :
  is_finite x = true -> is_finite y = true ->
  ((x <? y) = true <-> (F2Q x < F2Q y)%Q).
Proof.
  rewrite !fin_spec. intros Fx Fy. rewrite FloatAxioms.ltb_spec. unfold SFltb, F2Q.
  rewrite (SFcompare_val _ _ (Prim2SF_valid x) (Prim2SF_valid y) Fx Fy).
  pose proof (Qlt_alt (SF2Q (Prim2SF x)) (SF2Q (Prim2SF y))) as H.
  set (c := (SF2Q (Prim2SF x) ?= SF2Q (Prim2SF y))%Q) in *. clearbody c.
  rewrite H. destruct c; split; congruence.
Qed.

Lemma leb_Q x y :
  is_finite x = true -> is_finite y = true ->
  ((x <=? y) = true <-> (F2Q x <= F2Q y)%Q).
Proof.
  rewrite !fin_spec. intros Fx Fy. rewrite FloatAxioms.leb_spec. unfold SFleb, F2Q.
  rewrite (SFcompare_val _ _ (Prim2SF_valid x) (Prim2SF_valid y) Fx Fy).
  pose proof (Qle_alt (SF2Q (Prim2SF x)) (SF2Q (Prim2SF y))) as H.
  set (c := (SF2Q (Prim2SF x) ?= SF2Q (Prim2SF y))%Q) in *. clearbody c.
  rewrite H. destruct c; split; congruence.
Qed.

Lemma ltb_false_Q x y :
  is_finite x = true -> is_finite y = true ->
  ((x <? y) = false <-> (F2Q y <= F2Q x)%Q).
Proof.
  intros Fx Fy. split.
  - intro E. apply Qnot_lt_le. intro L. apply (ltb_Q x y Fx Fy) in L. congruence.
  - intro L. destruct (x <? y) eqn:E; [|reflexivity]. apply (ltb_Q x y Fx Fy) in E. lra.
Qed.

Lemma leb_false_Q x y :
  is_finite x = true -> is_finite y = true ->
  ((x <=? y) = false <-> (F2Q y < F2Q x)%Q).
Proof.
  intros Fx Fy. split.
  - intro E. apply Qnot_le_lt. intro L. apply (leb_Q x y Fx Fy) in L. congruence.
  - intro L. destruct (x <=? y) eqn:E; [|reflexivity]. apply (leb_Q x y Fx Fy) in E. lra.
Qed.

(** A number compared with finite numbers on both sides is finite. *)
Lemma leb_leb_fin lo x hi :
  is_finite lo = true -> is_finite hi = true ->
  (lo <=? x) = true -> (x <=? hi) = true -> is_finite x = true.
Proof.
  rewrite !fin_spec, !FloatAxioms.leb_spec. unfold SFleb.
  destruct (Prim2SF lo) as [sl|sl| |sl ml el]; try discriminate;
  destruct (Prim2SF hi) as [sh|sh| |sh mh eh]; try discriminate;
  destruct (Prim2SF x) as [s|s| |s m e]; simpl; try reflexivity; try discriminate;
  destruct s; try discriminate; destruct sl; try discriminate;
  destruct sh; discriminate.
Qed.

(** *** The four operations between finite bounds *)

Lemma add_bracket x y lo hi :
  is_finite x = true -> is_finite y = true ->
  is_finite lo = true -> is_finite hi = true ->
  (F2Q lo <= F2Q x + F2Q y)%Q -> (F2Q x + F2Q y <= F2Q hi)%Q ->
  is_finite (x + y) = true /\ (F2Q lo <= F2Q (x + y))%Q /\ (F2Q (x + y) <= F2Q hi)%Q.
Proof.
  rewrite !fin_spec. unfold F2Q. rewrite FloatAxioms.add_spec. intros.
  apply SFadd_bracket; auto using Prim2SF_valid.
Qed.

Lemma sub_bracket x y lo hi :
  is_finite x = true -> is_finite y = true ->
  is_finite lo = true -> is_finite hi = true ->
  (F2Q lo <= F2Q x - F2Q y)%Q -> (F2Q x - F2Q y <= F2Q hi)%Q ->
  is_finite (x - y) = true /\ (F2Q lo <= F2Q (x - y))%Q /\ (F2Q (x - y) <= F2Q hi)%Q.
Proof.
  rewrite !fin_spec. unfold F2Q. rewrite FloatAxioms.sub_spec. intros.
  apply SFsub_bracket; auto using Prim2SF_valid.
Qed.

Lemma mul_bracket x y lo hi :
  is_finite x = true -> is_finite y = true ->
  is_finite lo = true -> is_finite hi = true ->
  (F2Q lo <= F2Q x * F2Q y)%Q -> (F2Q x * F2Q y <= F2Q hi)%Q ->
  is_finite (x * y) = true /\ (F2Q lo <= F2Q (x * y))%Q /\ (F2Q (x * y) <= F2Q hi)%Q.
Proof.
  rewrite !fin_spec. unfold F2Q. rewrite FloatAxioms.mul_spec. intros.
  apply SFmul_bracket; auto using Prim2SF_valid.
Qed.

Lemma div_bracket x y lo hi :
  is_finite x = true -> is_finite y = true -> ~ (F2Q y == 0)%Q ->
  is_finite lo = true -> is_finite hi = true ->
  (F2Q lo <= F2Q x / F2Q y)%Q -> (F2Q x / F2Q y <= F2Q hi)%Q ->
  is_finite (x / y) = true /\ (F2Q lo <= F2Q (x / y))%Q /\ (F2Q (x / y) <= F2Q hi)%Q.
Proof.
  rewrite !fin_spec. unfold F2Q. rewrite FloatAxioms.div_spec. intros.
  apply SFdiv_bracket; auto using Prim2SF_valid.
Qed.

(** *** Results that are not [NaN] *)

Lemma mul_notnan x y :
  is_finite x = true -> is_finite y = true -> is_nan (x * y) = false.
Proof.
  rewrite !fin_spec, is_nan_spec, FloatAxioms.mul_spec. unfold SF64mul.
  destruct (Prim2SF x) as [sx|sx| |sx mx ex]; try discriminate;
  destruct (Prim2SF y) as [sy|sy| |sy my ey]; try discriminate; intros _ _; try reflexivity.
  simpl SFmul.
  pose proof (round_aux_notnan (xorb sx sy) (Zpos (mx * my)) (ex + ey) loc_Exact ltac:(lia)) as H.
  destruct (binary_round_aux _ _ _ _ _ _); congruence.
Qed.

Lemma sub_notnan_l x y :
  is_finite x = true -> is_nan y = false -> is_nan (x - y) = false.
Proof.
  rewrite !fin_spec, !is_nan_spec, FloatAxioms.sub_spec. unfold SF64sub.
  destruct (Prim2SF x) as [sx|sx| |sx mx ex]; try discriminate;
  destruct (Prim2SF y) as [sy|sy| |sy my ey]; try discriminate; intros _ _; try reflexivity;
    try (destruct sx, sy; reflexivity).
  simpl SFsub.
  match goal with |- context [binary_normalize ?p ?q ?z ?e ?s] =>
    pose proof (binary_normalize_notnan z e s) as H;
    destruct (binary_normalize p q z e s); congruence end.
Qed.

Lemma sub_notnan_r x y :
  is_nan x = false -> is_finite y = true -> is_nan (x - y) = false.
Proof.
  rewrite !fin_spec, !is_nan_spec, FloatAxioms.sub_spec. unfold SF64sub.
  destruct (Prim2SF x) as [sx|sx| |sx mx ex]; try discriminate;
  destruct (Prim2SF y) as [sy|sy| |sy my ey]; try discriminate; intros _ _; try reflexivity;
    try (destruct sx, sy; reflexivity).
  simpl SFsub.
  match goal with |- context [binary_normalize ?p ?q ?z ?e ?s] =>
    pose proof (binary_normalize_notnan z e s) as H;
    destruct (binary_normalize p q z e s); congruence end.
Qed.

(** *** Intervals with finite ends *)

Lemma within_leb lo hi x :
  is_finite lo = true -> is_finite hi = true ->
  (lo <=? x) = true -> (x <=? hi) = true -> within lo hi x.
Proof.
  intros Fl Fh H1 H2. assert (Fx := leb_leb_fin lo x hi Fl Fh H1 H2).
  split; [exact Fx|]. split; apply leb_Q; assumption.
Qed.

Lemma within_const c : is_finite c = true -> within c c c.
Proof. intro F. repeat split; try assumption; apply Qle_refl. Qed.

Lemma within_weaken lo hi lo' hi' x :
  within lo hi x -> (F2Q lo' <= F2Q lo)%Q -> (F2Q hi <= F2Q hi')%Q -> within lo' hi' x.
Proof. intros (F & A & B) H1 H2. repeat split; try assumption; lra. Qed.

Lemma add_within a b c d lo hi x y :
  within a b x -> within c d y ->
  is_finite lo = true -> is_finite hi = true ->
  (F2Q lo <= F2Q a + F2Q c)%Q -> (F2Q b + F2Q d <= F2Q hi)%Q ->
  within lo hi (x + y).
Proof.
  intros (Fx & X1 & X2) (Fy & Y1 & Y2) Fl Fh H1 H2.
  apply add_bracket; try assumption; lra.
Qed.

Lemma sub_within a b c d lo hi x y :
  within a b x -> within c d y ->
  is_finite lo = true -> is_finite hi = true ->
  (F2Q lo <= F2Q a - F2Q d)%Q -> (F2Q b - F2Q c <= F2Q hi)%Q ->
  within lo hi (x - y).
Proof.
  intros (Fx & X1 & X2) (Fy & Y1 & Y2) Fl Fh H1 H2.
  apply sub_bracket; try assumption; lra.
Qed.

Lemma mul_within a b c d lo hi x y :
  within a b x -> within c d y ->
  is_finite lo = true -> is_finite hi = true ->
  (0 <= F2Q a)%Q -> (0 <= F2Q c)%Q ->
  (F2Q lo <= F2Q a * F2Q c)%Q -> (F2Q b * F2Q d <= F2Q hi)%Q ->
  within lo hi (x * y).
Proof.
  intros (Fx & X1 & X2) (Fy & Y1 & Y2) Fl Fh Ha Hc H1 H2.
  apply mul_bracket; try assumption.
  - apply Qle_trans with (1 := H1). apply Qmult_le_compat_nonneg; split; assumption.
  - apply Qle_trans with (2 := H2). apply Qmult_le_compat_nonneg; split; try assumption; lra.
Qed.

Lemma div_within a b c lo hi x :
  within a b x -> is_finite c = true ->
  is_finite lo = true -> is_finite hi = true ->
  (0 < F2Q c)%Q ->
  (F2Q lo <= F2Q a / F2Q c)%Q -> (F2Q b / F2Q c <= F2Q hi)%Q ->
  within lo hi (x / c).
Proof.
  intros (Fx & X1 & X2) Fc Fl Fh Pc H1 H2.
  apply div_bracket; try assumption.
  - lra.
  - apply Qle_trans with (1 := H1). unfold Qdiv. apply Qmult_le_compat_r; [exact X1|].
    apply Qlt_le_weak, Qinv_lt_0_compat, Pc.
  - apply Qle_trans with (2 := H2). unfold Qdiv. apply Qmult_le_compat_r; [exact X2|].
    apply Qlt_le_weak, Qinv_lt_0_compat, Pc.
Qed.

(** *** Math.max and Math.min on finite numbers *)

Lemma Math_max_fin a b :
  is_finite a = true -> is_finite b = true ->
  (Math_max a b = a \/ Math_max a b = b) /\
  (F2Q a <= F2Q (Math_max a b))%Q /\ (F2Q b <= F2Q (Math_max a b))%Q.
Proof.
  intros Fa Fb. unfold Math_max. rewrite (fin_notnan a Fa), (fin_notnan b Fb). simpl.
  destruct (a <? b) eqn:E1.
  - apply (ltb_Q a b Fa Fb) in E1. split; [now right|]. split; lra.
  - apply (ltb_false_Q a b Fa Fb) in E1. destruct (b <? a) eqn:E2.
    + split; [now left|]. split; lra.
    + apply (ltb_false_Q b a Fb Fa) in E2. destruct (get_sign a); (split; [auto|split; lra]).
Qed.

Lemma Math_min_fin a b :
  is_finite a = true -> is_finite b = true ->
  (Math_min a b = a \/ Math_min a b = b) /\
  (F2Q (Math_min a b) <= F2Q a)%Q /\ (F2Q (Math_min a b) <= F2Q b)%Q.
Proof.
  intros Fa Fb. unfold Math_min. rewrite (fin_notnan a Fa), (fin_notnan b Fb). simpl.
  destruct (a <? b) eqn:E1.
  - apply (ltb_Q a b Fa Fb) in E1. split; [now left|]. split; lra.
  - apply (ltb_false_Q a b Fa Fb) in E1. destruct (b <? a) eqn:E2.
    + split; [now right|]. split; lra.
    + apply (ltb_false_Q b a Fb Fa) in E2. destruct (get_sign a); (split; [auto|split; lra]).
Qed.

Lemma Math_max_within c lo hi lo' hi' x :
  is_finite c = true -> within lo hi x ->
  (F2Q lo' <= F2Q c)%Q -> (F2Q c <= F2Q hi')%Q -> (F2Q hi <= F2Q hi')%Q ->
  within lo' hi' (Math_max c x).
Proof.
  intros Fc (Fx & X1 & X2) H1 H2 H3.
  destruct (Math_max_fin c x Fc Fx) as ([E|E] & A & B); rewrite E in *;
    repeat split; try assumption; lra.
Qed.

Lemma Math_min_within c lo hi lo' hi' x :
  is_finite c = true -> within lo hi x ->
  (F2Q c <= F2Q hi')%Q -> (F2Q lo' <= F2Q c)%Q -> (F2Q lo' <= F2Q lo)%Q ->
  within lo' hi' (Math_min c x).
Proof.
  intros Fc (Fx & X1 & X2) H1 H2 H3.
  destruct (Math_min_fin c x Fc Fx) as ([E|E] & A & B); rewrite E in *;
    repeat split; try assumption; lra.
Qed.

(** Closed side conditions are settled by evaluation. *)
Ltac qcompute := vm_compute; first [reflexivity | discriminate].

(** *** Math.round *)

Lemma opp_fin x : is_finite (- x) = is_finite x.
Proof. rewrite !fin_spec, FloatAxioms.opp_spec. destruct (Prim2SF x); reflexivity. Qed.

Lemma opp_F2Q x : (F2Q (- x) == - F2Q x)%Q.
Proof.
  unfold F2Q. rewrite FloatAxioms.opp_spec. destruct (Prim2SF x) as [s|s| |s m e]; simpl SFopp;
    try reflexivity.
  rewrite !SF2Q_finite. destruct s; simpl; ring.
Qed.

Lemma abs_fin x : is_finite (abs x) = is_finite x.
Proof. rewrite !fin_spec, FloatAxioms.abs_spec. destruct (Prim2SF x); reflexivity. Qed.

Lemma abs_F2Q x : (F2Q (abs x) == Qabs (F2Q x))%Q.
Proof.
  unfold F2Q. rewrite FloatAxioms.abs_spec. destruct (Prim2SF x) as [s|s| |s m e]; simpl SFabs;
    try reflexivity.
  rewrite !SF2Q_finite. pose proof (mag_pos m e). destruct s.
  - rewrite Qabs_neg by lra. ring.
  - rewrite Qabs_pos by lra. reflexivity.
Qed.

Lemma get_sign_Q x :
  is_finite x = true ->
  if get_sign x then (F2Q x <= 0)%Q else (0 <= F2Q x)%Q.
Proof.
  rewrite fin_spec, get_sign_spec. unfold F2Q.
  destruct (Prim2SF x) as [s|s| |s m e]; try discriminate; intros _.
  - simpl. destruct s; apply Qle_refl.
  - pose proof (mag_pos m e). pose proof (SF2Q_finite s m e) as E.
    destruct s; simpl SFsign; cbv iota; lra.
Qed.

(** The positive integers below [2^53] are binary64 values. *)
Lemma integer_canonical p :
  (Zpos p < 2 ^ 53)%Z ->
  exists m e, bounded prec emax m e = true /\ (mag m e == inject_Z (Zpos p))%Q.
Proof.
  intro H. set (d := Zpos (digits2_pos p)).
  assert (Hd : (d <= 53)%Z).
  { pose proof (digits2_bounds p) as [H1 _]. fold d in H1.
    assert (2 ^ (d - 1) < 2 ^ 53)%Z by lia. apply Z.pow_lt_mono_r_iff in H0; lia. }
  pose proof (shl_align_spec p 0 (d - 53)) as (S1 & S2 & S3).
  destruct (shl_align p 0 (d - 53)) as [m e]. simpl fst in *. simpl snd in *.
  exists m, e. split.
  - unfold bounded, canonical_mantissa. apply andb_true_iff. split.
    + apply Z.eqb_eq. rewrite S3. fold d. rewrite fexp_spec. lia.
    + apply Z.leb_le. change (emax - prec)%Z with 971%Z. lia.
  - rewrite S1. unfold mag. change (P2 0) with 1%Q. ring.
Qed.

Lemma of_uint63_exact z :
  (0 <= z < 2 ^ 53)%Z ->
  is_finite (of_uint63 (Uint63.of_Z z)) = true /\
  (F2Q (of_uint63 (Uint63.of_Z z)) == inject_Z z)%Q.
Proof.
  intro Hz. rewrite fin_spec. unfold F2Q. rewrite of_uint63_spec.
  rewrite Uint63.of_Z_spec, Z.mod_small
    by (change wB with (2 ^ 63)%Z; split; [lia|]; apply Z.lt_trans with (2 ^ 53)%Z; [lia|reflexivity]).
  destruct z as [|p|p]; try lia.
  - split; reflexivity.
  - destruct (integer_canonical p ltac:(lia)) as (m & e & B & V).
    assert (E : (SF2Q (S754_finite false m e) == inject_Z (Zpos p))%Q).
    { rewrite SF2Q_finite. exact V. }
    destruct (binary_normalize_signed (Zpos p) 0 false (S754_finite false m e)
                (S754_finite false m e)) as (A & L & U); try assumption; try reflexivity.
    + rewrite E. change (P2 0) with 1%Q. lra.
    + rewrite E. change (P2 0) with 1%Q. lra.
    + split; [exact A|]. rewrite E in L, U. lra.
Qed.

Lemma of_Z_exact z :
  (- 2 ^ 53 < z < 2 ^ 53)%Z ->
  is_finite (JS.of_Z z) = true /\ (F2Q (JS.of_Z z) == inject_Z z)%Q.
Proof.
  intro Hz. unfold JS.of_Z. destruct (Z.ltb_spec z 0).
  - destruct (of_uint63_exact (- z) ltac:(lia)) as [A B].
    rewrite opp_fin, opp_F2Q, B, inject_Z_opp. split; [exact A|ring].
  - apply of_uint63_exact. lia.
Qed.

Lemma round_half_up_bounds q lo hi :
  (inject_Z lo <= q)%Q -> (q <= inject_Z hi)%Q ->
  (lo <= round_half_up q <= hi)%Z.
Proof.
  intros H1 H2. unfold round_half_up.
  pose proof (Qfloor_le (q + (1 # 2))) as F1. pose proof (Qlt_floor (q + (1 # 2))) as F2.
  set (z := Qfloor (q + (1 # 2))) in *. rewrite inject_Z_plus in F2.
  change (inject_Z 1) with 1%Q in F2. split.
  - assert (inject_Z lo < inject_Z (z + 1))%Q.
    { rewrite inject_Z_plus. change (inject_Z 1) with 1%Q. lra. }
    rewrite <- Zlt_Qlt in H. lia.
  - assert (inject_Z z < inject_Z (hi + 1))%Q.
    { rewrite inject_Z_plus. change (inject_Z 1) with 1%Q. lra. }
    rewrite <- Zlt_Qlt in H. lia.
Qed.

Lemma Math_round_small x :
  is_finite x = true -> (4503599627370496 <=? abs x) = false ->
  is_finite (Math_round x) = true /\
  (F2Q (Math_round x) == inject_Z (round_half_up (F2Q x)))%Q /\
  (Math_round x = JS.of_Z (round_half_up (F2Q x)) \/ round_half_up (F2Q x) = 0%Z).
Proof.
  intros Fx Hs. unfold Math_round. rewrite Fx, Hs. simpl negb. cbv iota.
  apply leb_false_Q in Hs; [|reflexivity|now rewrite abs_fin].
  rewrite abs_F2Q in Hs.
  change (F2Q 4503599627370496) with (SF2Q (S754_finite false 4503599627370496 0)) in Hs.
  assert (E52 : (SF2Q (S754_finite false 4503599627370496 0) == inject_Z (2 ^ 52))%Q) by reflexivity.
  rewrite E52 in Hs.
  assert (Hb : (- inject_Z (2 ^ 52) <= F2Q x)%Q /\ (F2Q x <= inject_Z (2 ^ 52))%Q).
  { destruct (Qabs_Qle_condition (F2Q x) (inject_Z (2 ^ 52))) as [H _].
    apply H. apply Qlt_le_weak, Hs. }
  destruct Hb as [Hb1 Hb2]. rewrite <- inject_Z_opp in Hb1.
  pose proof (round_half_up_bounds _ _ _ Hb1 Hb2) as Hz.
  set (z := round_half_up (F2Q x)) in *.
  pose proof (get_sign_Q x Fx) as Hsg. destruct (get_sign x).
  - assert (Hz0 : (z <= 0)%Z).
    { assert (H0 : (F2Q x <= inject_Z 0)%Q) by exact Hsg.
      pose proof (round_half_up_bounds _ _ _ Hb1 H0). fold z in H. lia. }
    destruct (of_uint63_exact (- z)) as [A B].
    { split; [lia|]. apply Z.le_lt_trans with (2 ^ 52)%Z; [lia|reflexivity]. }
    rewrite opp_fin, opp_F2Q, B, inject_Z_opp. split; [exact A|]. split; [ring|].
    destruct (Z.eq_dec z 0) as [E|N]; [now right|left].
    unfold JS.of_Z. destruct (Z.ltb_spec z 0); [reflexivity|lia].
  - assert (Hz0 : (0 <= z)%Z).
    { assert (H0 : (inject_Z 0 <= F2Q x)%Q) by exact Hsg.
      pose proof (round_half_up_bounds _ _ _ H0 Hb2). fold z in H. lia. }
    destruct (of_uint63_exact z) as [A B].
    { split; [lia|]. apply Z.le_lt_trans with (2 ^ 52)%Z; [lia|reflexivity]. }
    split; [exact A|]. split; [exact B|]. left.
    unfold JS.of_Z. destruct (Z.ltb_spec z 0); [lia|reflexivity].
Qed.

(** *** Rounding and clamping *)

Lemma Math_round_within lo hi zl zh x :
  within lo hi x ->
  (F2Q lo == inject_Z zl)%Q -> (F2Q hi == inject_Z zh)%Q ->
  (- 2 ^ 52 < zl)%Z -> (zh < 2 ^ 52)%Z ->
  within lo hi (Math_round x).
Proof.
  intros (Fx & X1 & X2) El Eh Hl Hh. unfold within.
  rewrite El, Eh in *.
  assert (Hs : (4503599627370496 <=? abs x) = false).
  { apply leb_false_Q; [reflexivity|now rewrite abs_fin|].
    rewrite abs_F2Q.
    change (F2Q 4503599627370496) with (SF2Q (S754_finite false 4503599627370496 0)).
    assert (E52 : (SF2Q (S754_finite false 4503599627370496 0) == inject_Z (2 ^ 52))%Q) by reflexivity.
    rewrite E52.
    assert (A : (inject_Z zh < inject_Z (2 ^ 52))%Q) by (rewrite <- Zlt_Qlt; exact Hh).
    assert (B : (inject_Z (- 2 ^ 52) < inject_Z zl)%Q) by (rewrite <- Zlt_Qlt; exact Hl).
    rewrite inject_Z_opp in B.
    apply Qabs_case; intros; lra. }
  destruct (Math_round_small x Fx Hs) as (A & B & _).
  pose proof (round_half_up_bounds _ _ _ X1 X2) as [Z1 Z2].
  split; [exact A|]. rewrite B. split; rewrite <- Zle_Qle; assumption.
Qed.

Lemma F2Q_20 : (F2Q 20 == inject_Z 20)%Q.
Proof. reflexivity. Qed.

Lemma F2Q_150 : (F2Q 150 == inject_Z 150)%Q.
Proof. reflexivity. Qed.

(** Clamping a rounded number to [20, 150] leaves an integer of that
    range, whatever the number was, [NaN] apart. *)
Lemma clamp_round d :
  is_nan d = false ->
  exists z, (20 <= z <= 150)%Z /\
            Math_min 150 (Math_max 20 (Math_round d)) = JS.of_Z z.
Proof.
  intro Hn. destruct (is_finite d) eqn:Fd.
  - destruct (4503599627370496 <=? abs d) eqn:Hs.
    + (* a large number is its own rounding *)
      assert (ER : Math_round d = d) by (unfold Math_round; now rewrite Fd, Hs).
      rewrite ER.
      apply leb_Q in Hs; [|reflexivity|now rewrite abs_fin].
      rewrite abs_F2Q in Hs.
      change (F2Q 4503599627370496) with (SF2Q (S754_finite false 4503599627370496 0)) in Hs.
      assert (E52 : (SF2Q (S754_finite false 4503599627370496 0) == inject_Z (2 ^ 52))%Q) by reflexivity.
      rewrite E52 in Hs. change (inject_Z (2 ^ 52)) with (4503599627370496 # 1)%Q in Hs.
      destruct (Math_max_fin 20 d eq_refl Fd) as (EM & M1 & M2).
      pose proof F2Q_20 as E20. pose proof F2Q_150 as E150.
      change (inject_Z 20) with (20 # 1)%Q in E20. change (inject_Z 150) with (150 # 1)%Q in E150.
      destruct (Qlt_le_dec (F2Q d) 0) as [Neg|Pos].
      * rewrite Qabs_neg in Hs by lra.
        destruct EM as [EM|EM].
        -- rewrite EM. exists 20%Z. split; [lia|reflexivity].
        -- rewrite EM in M1. lra.
      * rewrite Qabs_pos in Hs by lra.
        destruct EM as [EM|EM].
        -- rewrite EM in M2. lra.
        -- rewrite EM.
           destruct (Math_min_fin 150 d eq_refl Fd) as ([Em|Em] & m1 & m2).
           ++ rewrite Em. exists 150%Z. split; [lia|reflexivity].
           ++ rewrite Em in m1. lra.
    + destruct (Math_round_small d Fd Hs) as (FR & VR & ER).
      set (z := round_half_up (F2Q d)) in *. set (R := Math_round d) in *.
      pose proof F2Q_20 as E20. pose proof F2Q_150 as E150.
      destruct (Math_max_fin 20 R eq_refl FR) as (EM & M1 & M2).
      destruct (Z_le_gt_dec z 20) as [Le|Gt].
      * assert (EM20 : Math_max 20 R = 20).
        { destruct EM as [EM|EM]; [exact EM|]. rewrite EM in *.
          assert (z = 20)%Z.
          { rewrite VR, E20, <- Zle_Qle in M1. lia. }
          destruct ER as [ER|ER]; [|lia]. rewrite ER, H. reflexivity. }
        rewrite EM20. exists 20%Z. split; [lia|reflexivity].
      * assert (EMR : Math_max 20 R = R).
        { destruct EM as [EM|EM]; [|exact EM]. rewrite EM in *.
          rewrite VR, E20, <- Zle_Qle in M2. lia. }
        rewrite EMR.
        assert (ERz : R = JS.of_Z z) by (destruct ER as [ER|ER]; [exact ER|lia]).
        destruct (Math_min_fin 150 R eq_refl FR) as ([Em|Em] & m1 & m2); rewrite Em.
        -- exists 150%Z. split; [lia|reflexivity].
        -- rewrite Em in m1. rewrite VR, E150, <- Zle_Qle in m1.
           exists z. split; [lia|exact ERz].
  - (* an infinity *)
    assert (Ed : d = infinity \/ d = neg_infinity).
    { rewrite <- (SF2Prim_Prim2SF d). rewrite fin_spec in Fd. rewrite is_nan_spec in Hn.
      destruct (Prim2SF d) as [s|s| |s m e]; try discriminate. destruct s; auto. }
    destruct Ed as [-> | ->].
    + exists 150%Z. split; [lia|reflexivity].
    + exists 20%Z. split; [lia|reflexivity].
Qed.

(** Every finite number lies between the largest one and its opposite. *)
Lemma SF_le_max x :
  valid_binary x = true -> SFfin x = true ->
  (- mag 9007199254740991 971 <= SF2Q x)%Q /\ (SF2Q x <= mag 9007199254740991 971)%Q.
Proof.
  intros Vx Fx. destruct x as [s|s| |s m e]; try discriminate.
  - simpl SF2Q. pose proof (mag_pos 9007199254740991 971). lra.
  - simpl in Vx. apply bounded_inv in Vx. destruct Vx as [V1 V2].
    pose proof (digits2_bounds m) as [_ D]. rewrite fexp_spec in V1.
    assert (Hm : (Zpos m <= 9007199254740991)%Z).
    { assert (Zpos (digits2_pos m) <= 53)%Z by lia.
      assert (2 ^ Zpos (digits2_pos m) <= 2 ^ 53)%Z by (apply Z.pow_le_mono_r; lia).
      change (2 ^ 53)%Z with 9007199254740992%Z in H0. lia. }
    assert (Hv : (mag m e <= mag 9007199254740991 971)%Q).
    { unfold mag. apply Qle_trans with (inject_Z (Zpos m) * P2 971)%Q.
      - apply Qmult_le_l; [reflexivity|]. apply P2_le. lia.
      - apply Zq_le; [apply P2_pos|exact Hm]. }
    pose proof (mag_pos m e). rewrite SF2Q_finite. destruct s; lra.
Qed.

Lemma fin_le_max x :
  is_finite x = true ->
  (F2Q (- max_value) <= F2Q x)%Q /\ (F2Q x <= F2Q max_value)%Q.
Proof.
  rewrite fin_spec. intro Fx.
  destruct (SF_le_max (Prim2SF x) (Prim2SF_valid x) Fx) as [A B].
  assert (EM : (F2Q max_value == mag 9007199254740991 971)%Q) by reflexivity.
  assert (EN : (F2Q (- max_value) == - mag 9007199254740991 971)%Q) by reflexivity.
  rewrite EM, EN. split; assumption.
Qed.

(** *** Signs and zeros *)

Lemma round_aux_nonneg mx ex lx :
  (0 <= mx)%Z -> SFnonneg (binary_round_aux prec emax false mx ex lx) = true.
Proof.
  intro H. destruct (round_aux_cases false mx ex lx H) as [E|[E|(m & e & E)]]; now rewrite E.
Qed.

Lemma leb0_spec x : (0 <=? x) = SFge0 (Prim2SF x).
Proof.
  rewrite FloatAxioms.leb_spec. change (Prim2SF 0) with (S754_zero false).
  destruct (Prim2SF x) as [[]|[]| |[] m e]; reflexivity.
Qed.

Lemma ltb0_spec x : (0 <? x) = SFpos (Prim2SF x).
Proof.
  rewrite FloatAxioms.ltb_spec. change (Prim2SF 0) with (S754_zero false).
  destruct (Prim2SF x) as [[]|[]| |[] m e]; reflexivity.
Qed.

Lemma nonneg_ge0 x : nonneg x -> (0 <=? x) = true.
Proof. unfold nonneg. rewrite leb0_spec. destruct (Prim2SF x) as [[]|[]| |[] m e]; auto. Qed.

Lemma nonneg_notnan x : nonneg x -> is_nan x = false.
Proof. unfold nonneg. rewrite is_nan_spec. destruct (Prim2SF x) as [[]|[]| |[] m e]; auto; discriminate. Qed.

Lemma ge0_notnan x : (0 <=? x) = true -> is_nan x = false.
Proof. rewrite leb0_spec, is_nan_spec. destruct (Prim2SF x) as [[]|[]| |[] m e]; auto; discriminate. Qed.

Lemma add_zero_l x : Prim2SF x <> S754_zero true -> 0 + x = x.
Proof.
  intro H. apply Prim2SF_inj. rewrite FloatAxioms.add_spec.
  change (Prim2SF 0) with (S754_zero false).
  destruct (Prim2SF x) as [[]|[]| |[] m e]; try reflexivity. congruence.
Qed.

Lemma add_zero_l_pos x : (0 <? x) = true -> 0 + x = x.
Proof.
  intro H. apply add_zero_l. rewrite ltb0_spec in H.
  destruct (Prim2SF x) as [[]|[]| |[] m e]; discriminate.
Qed.

Lemma sub_zero_r x : x - 0 = x.
Proof.
  apply Prim2SF_inj. rewrite FloatAxioms.sub_spec. change (Prim2SF 0) with (S754_zero false).
  destruct (Prim2SF x) as [[]|[]| |[] m e]; reflexivity.
Qed.

Lemma add_zero_add a b : nonneg b -> (0 + a) + b = a + b.
Proof.
  unfold nonneg. intro H. apply Prim2SF_inj. rewrite !FloatAxioms.add_spec.
  change (Prim2SF 0) with (S754_zero false).
  destruct (Prim2SF a) as [[]|[]| |[] ma ea]; try reflexivity;
  destruct (Prim2SF b) as [[]|[]| |[] mb eb]; try reflexivity; discriminate.
Qed.

Lemma sub_zeroish x c : nonneg x -> is_zero c = true -> x - c = x.
Proof.
  unfold nonneg. rewrite is_zero_spec. intros H Hc. apply Prim2SF_inj.
  rewrite FloatAxioms.sub_spec.
  destruct (Prim2SF c) as [sc|sc| |sc mc ec]; try discriminate.
  destruct (Prim2SF x) as [[]|[]| |[] m e]; try discriminate; destruct sc; reflexivity.
Qed.

Lemma truthy_spec x : truthy x = negb (is_nan x || is_zero x).
Proof. reflexivity. Qed.

(** [x - (p || 0) * 10] is [x - p * 10] for a number [p]: the two differ
    in the sign of a zero at most, which [x] absorbs. *)
Lemma sub_or_else x p :
  nonneg x -> is_nan p = false -> x - or_else p 0 * 10 = x - p * 10.
Proof.
  intros Hx Hp. unfold or_else, truthy. rewrite Hp. simpl orb.
  destruct (is_zero p) eqn:Z; simpl negb; cbv iota; [|reflexivity].
  rewrite (sub_zeroish x (0 * 10) Hx eq_refl). symmetry. apply sub_zeroish; [exact Hx|].
  rewrite is_zero_spec in *. rewrite FloatAxioms.mul_spec.
  change (Prim2SF 10) with (S754_finite false 5629499534213120 (-49)).
  destruct (Prim2SF p) as [[]|[]| |[] m e]; try discriminate; reflexivity.
Qed.

Lemma Math_max_0_nonneg y : is_nan y = false -> nonneg (Math_max 0 y).
Proof.
  intro Hn. unfold Math_max. change (is_nan 0) with false. rewrite Hn. simpl orb. cbv iota.
  destruct (0 <? y) eqn:E.
  - unfold nonneg. rewrite ltb0_spec in E.
    destruct (Prim2SF y) as [[]|[]| |[] m e]; try discriminate; reflexivity.
  - destruct (y <? 0); [reflexivity|]. change (get_sign 0) with false. reflexivity.
Qed.

Lemma mul_nonneg x c :
  nonneg x -> is_finite c = true -> (0 <? c) = true -> nonneg (x * c).
Proof.
  unfold nonneg. rewrite fin_spec, ltb0_spec, FloatAxioms.mul_spec. unfold SF64mul.
  destruct (Prim2SF c) as [[]|[]| |[] mc ec]; try discriminate;
  destruct (Prim2SF x) as [[]|[]| |[] m e]; try discriminate; intros _ _ _; try reflexivity.
  simpl SFmul. apply round_aux_nonneg. lia.
Qed.

Lemma add_ge0_nonneg a b : (0 <=? a) = true -> nonneg b -> nonneg (a + b).
Proof.
  unfold nonneg. rewrite leb0_spec, FloatAxioms.add_spec. unfold SF64add.
  destruct (Prim2SF a) as [[]|[]| |[] ma ea]; try discriminate;
  destruct (Prim2SF b) as [[]|[]| |[] mb eb]; try discriminate; intros _ _; try reflexivity.
  simpl SFadd. unfold binary_round.
  destruct (shl_align _ _ _) as [mz ez]. apply round_aux_nonneg. lia.
Qed.

(** A number that [0 <= x] accepts is finite and not negative, or is
    [Infinity]. *)
Lemma ge0_cases x :
  (0 <=? x) = true ->
  (is_finite x = true /\ (0 <= F2Q x)%Q) \/ x = infinity.
Proof.
  intro H. pose proof H as H'. rewrite leb0_spec in H'.
  destruct (is_finite x) eqn:F.
  - left. split; [reflexivity|]. apply (leb_Q 0 x eq_refl F) in H. exact H.
  - right. rewrite fin_spec in F. rewrite <- (SF2Prim_Prim2SF x).
    destruct (Prim2SF x) as [[]|[]| |[] m e]; try discriminate; reflexivity.
Qed.

Lemma fin_ge0 x : is_finite x = true -> (0 <= F2Q x)%Q -> (0 <=? x) = true.
Proof. intros F H. apply (leb_Q 0 x eq_refl F). exact H. Qed.

(** * The properties of the simulator *)

(** ** The branches of calculateWeights *)

Lemma forall_bool_spec f : forall_bool f = true -> forall b, f b = true.
Proof. unfold forall_bool. rewrite andb_true_iff. intros [H1 H2] []; assumption. Qed.

Lemma adjustedWeights_branch f td mi pa oa tcl :
  adjustedWeights f td mi pa oa tcl =
  branchWeights (740 <=? f) (f <=? 580) (0.45 <? debtToIncome td mi)
                (0 <? tcl) (td / tcl * 100 <? 30) (0 <? pa) (oa <? 4) (10 <? oa).
Proof. reflexivity. Qed.

(** A property checked on every branch holds for every argument. *)
Lemma adjustedWeights_all (P : Weights.t -> bool) :
  forall_branches P = true ->
  forall f td mi pa oa tcl, P (adjustedWeights f td mi pa oa tcl) = true.
Proof.
  intros H f td mi pa oa tcl. rewrite adjustedWeights_branch.
  unfold forall_branches in H.
  apply (forall_bool_spec _ (forall_bool_spec _ (forall_bool_spec _ (forall_bool_spec _
          (forall_bool_spec _ (forall_bool_spec _ (forall_bool_spec _ (forall_bool_spec _ H
            (740 <=? f)) (f <=? 580)) (0.45 <? debtToIncome td mi)) (0 <? tcl))
            (td / tcl * 100 <? 30)) (0 <? pa)) (oa <? 4)) (10 <? oa)).
Qed.

Lemma calculateWeights_all (P : Weights.t -> bool) :
  forall_branches (fun a => P (normalize a)) = true ->
  forall f td mi pa oa tcl, P (calculateWeights f td mi pa oa tcl) = true.
Proof. intros H f td mi pa oa tcl. apply (adjustedWeights_all (fun a => P (normalize a)) H). Qed.

(** ** The normalized weights *)

(** C1 (as amended).  For every argument of [calculateWeights]: the five
    weights before the final loop are within their clamp bounds; each
    returned weight is the adjusted one divided by the sum of the five and
    rounded to four decimals; and the returned weights sum to 1 within
    2.5e-4, both as the program would add them and exactly. *)
Theorem calculateWeights_normalized :
  forall f td mi pa oa tcl : float,
    let a := adjustedWeights f td mi pa oa tcl in
    let w := calculateWeights f td mi pa oa tcl in
    clampBounds a = true /\
    w = Weights.mk (parseFloat (toFixed (Weights.paymentHistory a / weightSum a) 4))
                   (parseFloat (toFixed (Weights.utilization a / weightSum a) 4))
                   (parseFloat (toFixed (Weights.accountAge a / weightSum a) 4))
                   (parseFloat (toFixed (Weights.creditMix a / weightSum a) 4))
                   (parseFloat (toFixed (Weights.newCredit a / weightSum a) 4)) /\
    fourDecimals a w = true /\
    sumWithin 0.00025 w = true /\
    exactSumWithin (25 # 100000) w = true.
Proof.
  intros f td mi pa oa tcl a w. split; [|split; [reflexivity|split; [|split]]].
  - apply (adjustedWeights_all clampBounds). vm_compute. reflexivity.
  - apply (adjustedWeights_all (fun a => fourDecimals a (normalize a))). vm_compute. reflexivity.
  - apply (calculateWeights_all (sumWithin 0.00025)). vm_compute. reflexivity.
  - apply (calculateWeights_all (exactSumWithin (25 # 100000))). vm_compute. reflexivity.
Qed.

(** C1 as stated fails: for a score of 500 with little debt against
    income and limit, one positive account and a five-year-old account,
    the returned weights sum to 1.0002 and utilization is 0.1905, below
    its clamp bound 0.20. *)
Lemma calculateWeights_counterexample :
  let '(f, td, mi, pa, oa, tcl) := lowUtilizationProfile in
  let w := calculateWeights f td mi pa oa tcl in
  weightSum w = 1.0002 /\
  sumWithin 0.0001 w = false /\
  exactSumWithin (1 # 10000) w = false /\
  Weights.utilization w = 0.1905 /\
  (0.20 <=? Weights.utilization w) = false.
Proof. vm_compute. repeat split. Qed.

(** ** The fields of the result *)

Lemma scenarioBranch_tracker data n i w :
  NumericData.scenarioType n = progress_tracker ->
  scenarioBranch data n i w =
  (i, Math_max 12 (NumericData.programTimeline n - NumericData.monthsInProgram n), 0).
Proof. unfold scenarioBranch. now intros ->. Qed.

Lemma toolGainOf_sum data :
  toolGainOf (numericData data) =
  toolGainSum (UserData.securedCard data) (UserData.creditBuilder data)
              (UserData.authorizedUser data).
Proof.
  unfold toolGainOf, toolGainSum, numericData. simpl.
  destruct (UserData.securedCard data), (UserData.creditBuilder data),
    (UserData.authorizedUser data); reflexivity.
Qed.

Lemma weights_utilization_gain f td mi pa oa tcl :
  (0 <? Weights.utilization (calculateWeights f td mi pa oa tcl) * 250) = true.
Proof.
  apply (calculateWeights_all (fun w => 0 <? Weights.utilization w * 250)).
  vm_compute. reflexivity.
Qed.

(** C4.  From the profile to the projected score: with the fields read
    as [numericData] reads them, the initial score, the weights computed
    from it, the low point and the months of the scenario,
    [projected_score = min(850, round(low_point + total_gain))], where
    [total_gain] is the utilization, history and age gains and the gain of
    the selected tools (30, 25 and 10).  The result carries these very
    weights, low point and months. *)
Theorem runSimulation_projectedScore :
  forall data : UserData.t,
    let n := numericData data in
    let initial :=
      if 300 <? NumericData.ficoScore n then NumericData.ficoScore n else 500 in
    let w :=
      calculateWeights initial (NumericData.totalDebt n) (NumericData.monthlyIncome n)
        (NumericData.positiveAccounts n) (NumericData.oldestAccountAge n)
        (NumericData.totalCreditLimit n) in
    let low_point :=
      match UserData.scenarioType data with
      | pre_enrollment => Math_max 300 (initial - calculateWorstCaseImpact data w)
      | progress_tracker => initial
      end in
    let months :=
      match UserData.scenarioType data with
      | pre_enrollment => NumericData.programTimeline n
      | progress_tracker =>
          Math_max 12 (NumericData.programTimeline n - NumericData.monthsInProgram n)
      end in
    let total_gain :=
      Weights.utilization w * 250 +
      Weights.paymentHistory w * 150 * (months / 36) +
      Weights.accountAge w * 50 * (months / 36) +
      toolGainSum (UserData.securedCard data) (UserData.creditBuilder data)
                  (UserData.authorizedUser data) in
    let r := runSimulation data in
    SimulationResults.projectedScore r = Math_min 850 (Math_round (low_point + total_gain)) /\
    SimulationResults.initialScore r = initial /\
    SimulationResults.weights r = w /\
    SimulationResults.lowPointScore r = low_point /\
    SimulationResults.recoveryMonths r = months.
Proof.
  intro data. cbv zeta. unfold runSimulation.
  assert (E : scenarioBranch data (numericData data) (initialScoreOf (numericData data))
                (weightsOf (numericData data)) =
              (match UserData.scenarioType data with
               | pre_enrollment =>
                   Math_max 300 (initialScoreOf (numericData data)
                                 - calculateWorstCaseImpact data (weightsOf (numericData data)))
               | progress_tracker => initialScoreOf (numericData data)
               end,
               match UserData.scenarioType data with
               | pre_enrollment => NumericData.programTimeline (numericData data)
               | progress_tracker =>
                   Math_max 12 (NumericData.programTimeline (numericData data)
                                - NumericData.monthsInProgram (numericData data))
               end,
               match UserData.scenarioType data with
               | pre_enrollment => calculateWorstCaseImpact data (weightsOf (numericData data))
               | progress_tracker => 0
               end)).
  { unfold scenarioBranch.
    change (NumericData.scenarioType (numericData data)) with (UserData.scenarioType data).
    destruct (UserData.scenarioType data); reflexivity. }
  rewrite E.
  cbn [SimulationResults.projectedScore SimulationResults.weights
       SimulationResults.recoveryMonths SimulationResults.lowPointScore
       SimulationResults.initialScore].
  unfold totalPotentialGainOf. rewrite toolGainOf_sum.
  unfold weightsOf, initialScoreOf.
  rewrite (add_zero_l_pos _ (weights_utilization_gain _ _ _ _ _ _)).
  split; [reflexivity|]. split; [reflexivity|]. split; [reflexivity|].
  split; reflexivity.
Qed.

Lemma runSimulation_projectedScore_witness :
  SimulationResults.projectedScore (runSimulation (profile (Num 650) pre_enrollment)) = 771 /\
  SimulationResults.projectedScore (runSimulation (profile (Num 650) progress_tracker)) = 799.
Proof.
  split.
  - rewrite (proj1 (runSimulation_projectedScore (profile (Num 650) pre_enrollment))).
    reflexivity.
  - rewrite (proj1 (runSimulation_projectedScore (profile (Num 650) progress_tracker))).
    reflexivity.
Defined.

Lemma sub_zero_nonzero x c : is_zero x = false -> is_zero c = true -> x - c = x.
Proof.
  rewrite !is_zero_spec. intros Hx Hc. apply Prim2SF_inj. rewrite FloatAxioms.sub_spec.
  destruct (Prim2SF c) as [sc|sc| |sc mc ec]; try discriminate.
  destruct (Prim2SF x) as [[]|[]| |[] m e]; try discriminate; reflexivity.
Qed.

(** C5.  For an existing client the penalty is [0], the low point is the
    initial score, and the recovery takes
    [max(12, programTimeline - monthsInProgram)] months. *)
Theorem runSimulation_existing_client :
  forall data : UserData.t,
    UserData.scenarioType data = progress_tracker ->
    truthy (UserData.programTimeline data) = true ->
    is_nan (Number (UserData.monthsInProgram data)) = false ->
    let r := runSimulation data in
    SimulationResults.impactPenalty r = 0 /\
    SimulationResults.lowPointScore r = SimulationResults.initialScore r /\
    SimulationResults.recoveryMonths r =
    Math_max 12 (UserData.programTimeline data - Number (UserData.monthsInProgram data)).
Proof.
  intros data Hs Ht Hm. unfold runSimulation.
  rewrite (scenarioBranch_tracker data (numericData data) _ _ Hs).
  cbn [SimulationResults.impactPenalty SimulationResults.lowPointScore
       SimulationResults.initialScore SimulationResults.recoveryMonths].
  split; [reflexivity|]. split; [reflexivity|].
  unfold numericData. cbn [NumericData.programTimeline NumericData.monthsInProgram].
  unfold or_else at 1. rewrite Ht. f_equal.
  unfold or_else. destruct (truthy (Number (UserData.monthsInProgram data))) eqn:E; [reflexivity|].
  unfold truthy in E, Ht. rewrite Hm in E. simpl in E. apply negb_false_iff in E.
  apply negb_true_iff, orb_false_iff in Ht. destruct Ht as [_ Hz].
  rewrite (sub_zero_nonzero _ _ Hz E). apply sub_zero_nonzero; [exact Hz|reflexivity].
Qed.

Lemma runSimulation_existing_client_witness :
  let r := runSimulation (profile (Num 650) progress_tracker) in
  SimulationResults.impactPenalty r = 0 /\
  SimulationResults.lowPointScore r = SimulationResults.initialScore r /\
  SimulationResults.recoveryMonths r = Math_max 12 (36 - 6).
Proof.
  apply (runSimulation_existing_client (profile (Num 650) progress_tracker));
    reflexivity.
Defined.

(** C6 (as amended).  The milestones are taken on the span
    [projected_score - low_point] itself: no [1] stands in for a zero span
    in [runSimulation]. *)
Theorem runSimulation_milestones :
  forall data : UserData.t,
    let r := runSimulation data in
    let gain_span := SimulationResults.projectedScore r - SimulationResults.lowPointScore r in
    SimulationResults.milestoneStabilizationScore r =
      Math_min (SimulationResults.initialScore r)
               (SimulationResults.lowPointScore r + Math_round (gain_span * 0.15)) /\
    SimulationResults.milestoneRecoveryScore r =
      SimulationResults.lowPointScore r + Math_round (gain_span * 0.65) /\
    SimulationResults.milestoneDipScore r = SimulationResults.lowPointScore r.
Proof.
  intro data. unfold runSimulation.
  destruct (scenarioBranch data (numericData data) (initialScoreOf (numericData data))
              (weightsOf (numericData data))) as [[low months] penalty].
  split; [reflexivity|]. split; reflexivity.
Qed.

(** C6 as stated fails: an existing client with a score of 850 has a
    span of zero; the recovery milestone is 850, where a span of 1 would
    give 851. *)
Lemma runSimulation_milestones_counterexample :
  let r := runSimulation (profile (Num 850) progress_tracker) in
  SimulationResults.projectedScore r - SimulationResults.lowPointScore r = 0 /\
  gainSpanOrOne r = 1 /\
  SimulationResults.milestoneRecoveryScore r = 850 /\
  SimulationResults.lowPointScore r + Math_round (gainSpanOrOne r * 0.65) = 851 /\
  (SimulationResults.milestoneRecoveryScore r =?
   SimulationResults.lowPointScore r + Math_round (gainSpanOrOne r * 0.65)) = false.
Proof. vm_compute. repeat split. Qed.

(** C7.  The savings are 55% of the debt; the post-program DTI is
    [min(50, ((debt - savings) * 0.05 / 12) / income * 100)] written with
    one decimal when the income is positive, and ["0.0"] when it is zero. *)
Theorem runSimulation_debt_relief :
  forall data : UserData.t,
    let n := numericData data in
    let r := runSimulation data in
    let total_debt := NumericData.totalDebt n in
    let monthly_income := NumericData.monthlyIncome n in
    let savings := SimulationResults.savings r in
    savings = total_debt * 0.55 /\
    SimulationResults.postDTI r =
      (if 0 <? monthly_income
       then toFixed (Math_min 50 (((total_debt - savings) * 0.05 / 12) / monthly_income * 100)) 1
       else "0.0"%string) /\
    (is_zero monthly_income = true -> SimulationResults.postDTI r = "0.0"%string).
Proof.
  intro data. unfold runSimulation.
  destruct (scenarioBranch data (numericData data) (initialScoreOf (numericData data))
              (weightsOf (numericData data))) as [[low months] penalty].
  cbn [SimulationResults.savings SimulationResults.postDTI]. unfold postDTIOf.
  split; [reflexivity|]. split.
  - destruct (0 <? NumericData.monthlyIncome (numericData data)); reflexivity.
  - intro Hz. rewrite ltb0_spec. rewrite is_zero_spec in Hz.
    destruct (Prim2SF (NumericData.monthlyIncome (numericData data))) as [[]|[]| |[] m e];
      try discriminate; reflexivity.
Qed.

Lemma runSimulation_debt_relief_witness :
  let data := profile (Num 650) pre_enrollment in
  SimulationResults.savings (runSimulation data) = 11000 /\
  SimulationResults.postDTI (runSimulation data) = "0.9"%string /\
  SimulationResults.postDTI
    (runSimulation (UserData.mk (Num 650) (Num 20000) Blank (Num 70) (Num 3) (Num 1)
       (Num 5) 36 (Num 25000) pre_enrollment Blank Blank negotiation true false false
       EmptyString EmptyString EmptyString)) = "0.0"%string.
Proof.
  split; [|split].
  - exact (proj1 (runSimulation_debt_relief (profile (Num 650) pre_enrollment))).
  - exact (proj1 (proj2 (runSimulation_debt_relief (profile (Num 650) pre_enrollment)))).
  - apply (proj2 (proj2 (runSimulation_debt_relief _))). reflexivity.
Defined.

Lemma ltb0_zero x : is_zero x = true -> (0 <? x) = false.
Proof.
  rewrite ltb0_spec, is_zero_spec. destruct (Prim2SF x) as [[]|[]| |[] m e]; auto; discriminate.
Qed.

Lemma overallUtilizationAdjust_skipped td tcl w :
  is_zero tcl = true -> overallUtilizationAdjust td tcl w = w.
Proof. intro H. unfold overallUtilizationAdjust. now rewrite (ltb0_zero _ H). Qed.

(** C8.  Every division by a quantity that may be zero is guarded: the
    debt-to-income ratio is 1 and the post-program DTI is 0 when the
    income is zero, and a credit limit of zero leaves the weights as the
    other four steps made them.  Whatever the arguments, the weights
    returned are finite numbers. *)
Theorem zero_denominators_guarded :
  (forall td mi : float, is_zero mi = true -> debtToIncome td mi = 1) /\
  (forall n : NumericData.t,
      is_zero (NumericData.monthlyIncome n) = true -> postDTIOf n = 0) /\
  (forall (td tcl : float) (w : Weights.t),
      is_zero tcl = true -> overallUtilizationAdjust td tcl w = w) /\
  (forall f td mi pa oa tcl : float,
      is_zero tcl = true ->
      calculateWeights f td mi pa oa tcl =
      normalize (accountAgeAdjust oa (positiveAccountsAdjust pa
                  (dtiAdjust td mi (scoreTier f baseWeights))))) /\
  (forall f td mi pa oa tcl : float,
      weightsFinite (calculateWeights f td mi pa oa tcl) = true).
Proof.
  split; [|split; [|split; [|split]]].
  - intros td mi H. unfold debtToIncome. now rewrite (ltb0_zero _ H).
  - intros n H. unfold postDTIOf. now rewrite (ltb0_zero _ H).
  - intros td tcl w H. now apply overallUtilizationAdjust_skipped.
  - intros f td mi pa oa tcl H. unfold calculateWeights, adjustedWeights.
    now rewrite (overallUtilizationAdjust_skipped _ _ _ H).
  - apply (calculateWeights_all weightsFinite). vm_compute. reflexivity.
Qed.

Lemma zero_denominators_guarded_witness :
  debtToIncome 20000 0 = 1 /\
  postDTIOf (numericData (UserData.mk (Num 650) (Num 20000) Blank (Num 70) (Num 3)
     (Num 1) (Num 5) 36 (Num 25000) pre_enrollment Blank Blank negotiation true false
     false EmptyString EmptyString EmptyString)) = 0 /\
  calculateWeights 650 20000 4000 1 5 0 =
  normalize (accountAgeAdjust 5 (positiveAccountsAdjust 1
              (dtiAdjust 20000 4000 (scoreTier 650 baseWeights)))).
Proof.
  destruct zero_denominators_guarded as (H1 & H2 & _ & H4 & _).
  split; [|split].
  - apply H1. reflexivity.
  - apply H2. reflexivity.
  - apply H4. reflexivity.
Defined.

Lemma add_zero_zero c : is_zero c = true -> 0 + c = 0.
Proof.
  rewrite is_zero_spec. intro H. apply Prim2SF_inj. rewrite FloatAxioms.add_spec.
  change (Prim2SF 0) with (S754_zero false).
  destruct (Prim2SF c) as [[]|[]| |[] m e]; try discriminate; reflexivity.
Qed.

Lemma zero_mul_finite y : is_finite y = true -> is_zero (0 * y) = true.
Proof.
  rewrite fin_spec, is_zero_spec, FloatAxioms.mul_spec.
  change (Prim2SF 0) with (S754_zero false).
  destruct (Prim2SF y) as [[]|[]| |[] m e]; try discriminate; reflexivity.
Qed.

(** C10.  When the utilization field is empty or zero, 100 stands in for
    it, the utilization factor is 0, and the drop is what the other terms
    make it. *)
Theorem worstCaseImpact_missing_utilization :
  forall (data : UserData.t) (weights : Weights.t),
    is_zero (Number (UserData.utilization data)) = true ->
    is_finite (Weights.utilization weights * 2) = true ->
    or_else (Number (UserData.utilization data)) 100 = 100 /\
    utilizationFactor data = 0 /\
    is_zero (utilizationFactor data * 5 * (Weights.utilization weights * 2)) = true /\
    worstCaseDrop data weights =
      (let drop := 0 + severityFactor data * 5 in
       let drop := drop - or_else (Number (UserData.positiveAccounts data)) 0 * 10 in
       if 10 <? Number (UserData.oldestAccountAge data) then drop - 15 else drop).
Proof.
  intros data weights Hz Hw.
  assert (E : or_else (Number (UserData.utilization data)) 100 = 100).
  { unfold or_else, truthy. rewrite Hz, orb_true_r. reflexivity. }
  assert (F : utilizationFactor data = 0).
  { unfold utilizationFactor. rewrite E. reflexivity. }
  split; [exact E|]. split; [exact F|].
  assert (Z : is_zero (utilizationFactor data * 5 * (Weights.utilization weights * 2)) = true).
  { rewrite F. change (0 * 5) with 0. now apply zero_mul_finite. }
  split; [exact Z|].
  unfold worstCaseDrop. cbv zeta. rewrite (add_zero_zero _ Z). reflexivity.
Qed.

Lemma worstCaseImpact_missing_utilization_witness :
  let data := UserData.mk (Num 650) (Num 20000) (Num 4000) Blank (Num 3) (Num 1) (Num 5)
                36 (Num 25000) pre_enrollment Blank Blank negotiation true false false
                EmptyString EmptyString EmptyString in
  utilizationFactor data = 0 /\
  worstCaseDrop data (Weights.mk 0.3 0.3 0.15 0.15 0.1) = 27.5.
Proof.
  cbv zeta.
  pose proof (worstCaseImpact_missing_utilization
    (UserData.mk (Num 650) (Num 20000) (Num 4000) Blank (Num 3) (Num 1) (Num 5)
       36 (Num 25000) pre_enrollment Blank Blank negotiation true false false
       EmptyString EmptyString EmptyString)
    (Weights.mk 0.3 0.3 0.15 0.15 0.1) eq_refl eq_refl) as (_ & H1 & _ & H2).
  split; [exact H1|]. rewrite H2. reflexivity.
Defined.

(** ** Ranges of the intermediate quantities *)

Lemma ltb_leb x y : (x <? y) = true -> (x <=? y) = true.
Proof.
  rewrite FloatAxioms.ltb_spec, FloatAxioms.leb_spec. unfold SFltb, SFleb.
  destruct (SFcompare (Prim2SF x) (Prim2SF y)) as [[]|]; congruence.
Qed.

Lemma within_truthy lo hi x : within lo hi x -> (0 < F2Q lo)%Q -> truthy x = true.
Proof.
  intros (F & A & B) H. unfold truthy. rewrite (fin_notnan x F). simpl.
  rewrite is_zero_spec. unfold F2Q in A, H.
  destruct (Prim2SF x) as [s|s| |s m e]; try reflexivity. rewrite SF2Q_zero in A. lra.
Qed.

Lemma within_closed lo hi c :
  is_finite c = true -> (F2Q lo <= F2Q c)%Q -> (F2Q c <= F2Q hi)%Q -> within lo hi c.
Proof. intros. repeat split; assumption. Qed.

Lemma within_leb_lo lo hi x :
  is_finite lo = true -> within lo hi x -> (lo <=? x) = true.
Proof. intros Fl (F & A & B). now apply leb_Q. Qed.

Lemma within_leb_hi lo hi x :
  is_finite hi = true -> within lo hi x -> (x <=? hi) = true.
Proof. intros Fh (F & A & B). now apply leb_Q. Qed.

Lemma unitWeights_spec w :
  unitWeights w = true ->
  within 0 1 (Weights.paymentHistory w) /\
  within 0.18 1 (Weights.utilization w) /\
  within 0 1 (Weights.accountAge w).
Proof.
  destruct w as [ph ut aa cm nc]. unfold unitWeights, Weights.values, forallb.
  cbn [Weights.paymentHistory Weights.utilization Weights.accountAge].
  rewrite !andb_true_iff.
  intros ((((F1 & A1) & B1) & ((F2 & A2) & B2) & ((F3 & A3) & B3) & _) & C).
  split; [|split]; apply within_leb; solve [assumption | reflexivity].
Qed.

Lemma weights_unit f td mi pa oa tcl :
  unitWeights (calculateWeights f td mi pa oa tcl) = true.
Proof. apply (calculateWeights_all unitWeights). vm_compute. reflexivity. Qed.

Ltac closed_within := apply within_closed; qcompute.

Lemma bucket_within u : In u utilizationBuckets -> within 30 100 u.
Proof.
  unfold utilizationBuckets. simpl In.
  intros [E|[E|[E|[E|[E|[]]]]]]; subst u; closed_within.
Qed.

Lemma timeline_within t : In t programTimelines -> within 12 60 t.
Proof.
  unfold programTimelines. simpl In.
  intros [E|[E|[E|[E|[E|[]]]]]]; subst t; closed_within.
Qed.

Lemma utilizationFactor_within data :
  In (Number (UserData.utilization data)) utilizationBuckets ->
  utilizationFactor data = Math_max 0 ((100 - Number (UserData.utilization data)) / 10) /\
  within 0 7 (utilizationFactor data).
Proof.
  intro Hu. apply bucket_within in Hu. unfold utilizationFactor.
  set (u := Number (UserData.utilization data)) in *.
  assert (T : or_else u 100 = u).
  { unfold or_else. rewrite (within_truthy 30 100 u Hu); [reflexivity|qcompute]. }
  cbv zeta. rewrite T. split; [reflexivity|].
  assert (H1 : within 0 70 (100 - u)).
  { apply (sub_within 100 100 30 100); [closed_within|exact Hu|..]; qcompute. }
  assert (H2 : within 0 7 ((100 - u) / 10)).
  { apply (div_within 0 70); [exact H1|..]; qcompute. }
  apply (Math_max_within 0 0 7); [reflexivity|exact H2|..]; qcompute.
Qed.

Lemma severityFactor_within data :
  (300 <=? Number (UserData.ficoScore data)) = true ->
  (Number (UserData.ficoScore data) <=? 850) = true ->
  within 0 17.5 (severityFactor data) /\ nonneg (severityFactor data).
Proof.
  intros L H. unfold severityFactor. set (f := Number (UserData.ficoScore data)) in *.
  assert (Hf : within 300 850 f) by (apply within_leb; solve [reflexivity|assumption]).
  assert (H1 : within (-200) 350 (f - 500)).
  { apply (sub_within 300 850 500 500); [exact Hf|closed_within|..]; qcompute. }
  assert (H2 : within (-10) 17.5 ((f - 500) / 20)).
  { apply (div_within (-200) 350); [exact H1|..]; qcompute. }
  split.
  - apply (Math_max_within 0 (-10) 17.5); [reflexivity|exact H2|..]; qcompute.
  - apply Math_max_0_nonneg. apply fin_notnan. exact (proj1 H2).
Qed.

(** The drop computed by [calculateWorstCaseImpact], on a form filled
    in: the sum of the four terms, a number and not [NaN]. *)
Lemma worstCaseDrop_filled data weights :
  (300 <=? Number (UserData.ficoScore data)) = true ->
  (Number (UserData.ficoScore data) <=? 850) = true ->
  In (Number (UserData.utilization data)) utilizationBuckets ->
  (0 <=? Number (UserData.positiveAccounts data)) = true ->
  (0 <=? Weights.utilization weights) = true ->
  (Weights.utilization weights <=? 1) = true ->
  let d := Math_max 0 ((100 - Number (UserData.utilization data)) / 10) * 5
             * (Weights.utilization weights * 2)
           + Math_max 0 ((Number (UserData.ficoScore data) - 500) / 20) * 5
           - Number (UserData.positiveAccounts data) * 10
           - (if 10 <? Number (UserData.oldestAccountAge data) then 15 else 0) in
  worstCaseDrop data weights = d /\ is_nan d = false.
Proof.
  intros Lf Hf Hu Hp Lw Hw.
  destruct (utilizationFactor_within data Hu) as [Eu Wu].
  destruct (severityFactor_within data Lf Hf) as [Ws Ns].
  unfold severityFactor in Ws, Ns. rewrite Eu in Wu.
  unfold worstCaseDrop. cbv zeta. rewrite Eu. unfold severityFactor.
  set (uf := Math_max 0 ((100 - Number (UserData.utilization data)) / 10)) in *.
  set (sf := Math_max 0 ((Number (UserData.ficoScore data) - 500) / 20)) in *.
  set (wu := Weights.utilization weights) in *.
  set (p := Number (UserData.positiveAccounts data)) in *.
  set (a := Number (UserData.oldestAccountAge data)) in *.
  assert (Ww : within 0 1 wu) by (apply within_leb; solve [reflexivity|assumption]).
  assert (W2 : within 0 2 (wu * 2)).
  { apply (mul_within 0 1 2 2); [exact Ww|closed_within|..]; qcompute. }
  assert (U5 : within 0 35 (uf * 5)).
  { apply (mul_within 0 7 5 5); [exact Wu|closed_within|..]; qcompute. }
  assert (WA : within 0 70 (uf * 5 * (wu * 2))).
  { apply (mul_within 0 35 0 2); [exact U5|exact W2|..]; qcompute. }
  assert (WB : within 0 87.5 (sf * 5)).
  { apply (mul_within 0 17.5 5 5); [exact Ws|closed_within|..]; qcompute. }
  assert (NB : nonneg (sf * 5)) by (apply mul_nonneg; [exact Ns|reflexivity|reflexivity]).
  assert (WX : within 0 157.5 (uf * 5 * (wu * 2) + sf * 5)).
  { apply (add_within 0 70 0 87.5); [exact WA|exact WB|..]; qcompute. }
  assert (NX : nonneg (uf * 5 * (wu * 2) + sf * 5)).
  { apply add_ge0_nonneg; [|exact NB]. apply (within_leb_lo 0 70); [reflexivity|exact WA]. }
  assert (Np : is_nan p = false) by (apply ge0_notnan; exact Hp).
  rewrite (add_zero_add _ _ NB), (sub_or_else _ _ NX Np).
  assert (E : (if 10 <? a
               then uf * 5 * (wu * 2) + sf * 5 - p * 10 - 15
               else uf * 5 * (wu * 2) + sf * 5 - p * 10) =
              uf * 5 * (wu * 2) + sf * 5 - p * 10 - (if 10 <? a then 15 else 0)).
  { destruct (10 <? a); [reflexivity|]. symmetry. apply sub_zero_r. }
  rewrite E. split; [reflexivity|].
  apply sub_notnan_r; [|destruct (10 <? a); reflexivity].
  apply sub_notnan_l; [exact (proj1 WX)|].
  destruct (ge0_cases p Hp) as [[Fp _]|Ep].
  - apply mul_notnan; [exact Fp|reflexivity].
  - rewrite Ep. reflexivity.
Qed.

(** *** The drop outside the form's values *)

Lemma add_nan_r a b : is_nan b = true -> a + b = nan.
Proof.
  rewrite is_nan_spec. intro H. apply Prim2SF_inj. rewrite FloatAxioms.add_spec.
  change (Prim2SF nan) with S754_nan.
  destruct (Prim2SF b); try discriminate. destruct (Prim2SF a); reflexivity.
Qed.

Lemma mul_nan_l a b : is_nan a = true -> a * b = nan.
Proof.
  rewrite is_nan_spec. intro H. apply Prim2SF_inj. rewrite FloatAxioms.mul_spec.
  change (Prim2SF nan) with S754_nan.
  destruct (Prim2SF a); try discriminate. reflexivity.
Qed.

Lemma Math_max_nan a b : is_nan b = true -> Math_max a b = nan.
Proof. intro H. unfold Math_max. rewrite H, orb_true_r. reflexivity. Qed.

(** The severity term is [NaN] or a number that is not negative. *)
Lemma severity_term y :
  Math_max 0 y * 5 = nan \/ nonneg (Math_max 0 y * 5).
Proof.
  destruct (is_nan y) eqn:N.
  - left. rewrite (Math_max_nan 0 y N). reflexivity.
  - right. apply mul_nonneg; [apply Math_max_0_nonneg; exact N|reflexivity|reflexivity].
Qed.

(** The least exponent of the format. *)
Lemma bounded_emin m e : bounded prec emax m e = true -> (-1074 <= e)%Z.
Proof.
  intro H. destruct (bounded_inv m e H) as [E _]. rewrite fexp_spec in E. lia.
Qed.

(** A sum with a number that is not negative is never [-0]. *)
Lemma SFadd_not_negzero x y :
  valid_binary x = true -> valid_binary y = true -> SFnonneg y = true ->
  SF64add x y <> S754_zero true.
Proof.
  intros Vx Vy Ny. unfold SF64add.
  destruct y as [[]|[]| |[] my ey]; try discriminate;
  destruct x as [[]|[]| |sx mx ex]; try discriminate.
  simpl SFadd.
  pose proof (aligned_val sx mx ex ey) as Ax.
  pose proof (aligned_val false my ey ex) as Ay. rewrite (Z.min_comm ey ex) in Ay.
  match goal with |- binary_normalize _ _ ?zz _ _ <> _ => set (z := zz) end.
  assert (Hz : (inject_Z z * P2 (Z.min ex ey)
                == SF2Q (S754_finite sx mx ex) + SF2Q (S754_finite false my ey))%Q).
  { rewrite <- Ax, <- Ay. unfold z. simpl cond_Zopp. rewrite inject_Z_plus. ring. }
  clearbody z. destruct z as [|p|p]; simpl binary_normalize.
  - discriminate.
  - unfold binary_round. destruct (shl_align p _ _) as [mz ez].
    destruct (round_aux_cases false (Zpos mz) ez loc_Exact ltac:(lia)) as [E|[E|(m & e & E)]];
      rewrite E; discriminate.
  - simpl in Vx, Vy.
    pose proof (bounded_emin mx ex Vx) as Bx. pose proof (bounded_emin my ey Vy) as By.
    assert (Hy : (0 < SF2Q (S754_finite false my ey))%Q).
    { rewrite SF2Q_finite. apply mag_pos. }
    assert (Hp : (P2 (-1074) <= mag p (Z.min ex ey))%Q).
    { unfold mag. pose proof (P2_le (-1074) (Z.min ex ey) ltac:(lia)) as L.
      pose proof (P2_pos (Z.min ex ey)) as Q0.
      assert (1 <= inject_Z (Zpos p))%Q by (change 1%Q with (inject_Z 1); rewrite <- Zle_Qle; lia).
      nra. }
    assert (Hn : (inject_Z (Zneg p) * P2 (Z.min ex ey) == - mag p (Z.min ex ey))%Q).
    { unfold mag. change (Zneg p) with (- Zpos p)%Z. rewrite inject_Z_opp. ring. }
    destruct (binary_round_signed true p (Z.min ex ey)
                (S754_finite sx mx ex) (S754_finite true 1 (-1074)))
      as (_ & _ & _ & C); try reflexivity; try assumption.
    + unfold sgn. rewrite <- Hn, Hz. lra.
    + unfold sgn.
      assert (Em : (SF2Q (S754_finite true 1 (-1074)) == - P2 (-1074))%Q).
      { rewrite SF2Q_finite. unfold mag. change (inject_Z 1) with 1%Q. ring. }
      rewrite Em. lra.
    + intro E. rewrite E in C. change (SF2Q (S754_zero true)) with 0%Q in C.
      assert (Em : (SF2Q (S754_finite true 1 (-1074)) == - P2 (-1074))%Q).
      { rewrite SF2Q_finite. unfold mag. change (inject_Z 1) with 1%Q. ring. }
      rewrite Em in C. pose proof (P2_pos (-1074)). lra.
Qed.

Lemma add_not_negzero a b : nonneg b -> Prim2SF (a + b) <> S754_zero true.
Proof.
  unfold nonneg. intro H. rewrite FloatAxioms.add_spec.
  apply SFadd_not_negzero; auto using Prim2SF_valid.
Qed.

Lemma sub_zero_not_negzero x c :
  Prim2SF x <> S754_zero true -> is_zero c = true -> x - c = x.
Proof.
  rewrite is_zero_spec. intros H Hc. apply Prim2SF_inj. rewrite FloatAxioms.sub_spec.
  destruct (Prim2SF c) as [sc|sc| |sc mc ec]; try discriminate.
  destruct (Prim2SF x) as [[]|[]| |[] m e]; try reflexivity; try (destruct sc; reflexivity).
  now elim H.
Qed.

Lemma sub_or_else_any x p :
  Prim2SF x <> S754_zero true -> is_nan p = false ->
  x - or_else p 0 * 10 = x - p * 10.
Proof.
  intros Hx Hp. unfold or_else, truthy. rewrite Hp. simpl orb.
  destruct (is_zero p) eqn:Z; simpl negb; cbv iota; [|reflexivity].
  rewrite (sub_zero_not_negzero x (0 * 10) Hx eq_refl). symmetry.
  apply sub_zero_not_negzero; [exact Hx|].
  rewrite is_zero_spec in *. rewrite FloatAxioms.mul_spec.
  change (Prim2SF 10) with (S754_finite false 5629499534213120 (-49)).
  destruct (Prim2SF p) as [[]|[]| |[] m e]; try discriminate; reflexivity.
Qed.

(** With a utilization that is set and a count of positive accounts
    that is a number, the drop of the code is the drop of the
    specification, for every score, age and weight. *)
Lemma worstCaseDrop_specified data weights :
  truthy (Number (UserData.utilization data)) = true ->
  is_nan (Number (UserData.positiveAccounts data)) = false ->
  worstCaseDrop data weights = specifiedDrop data weights.
Proof.
  intros Tu Np. unfold worstCaseDrop, specifiedDrop, utilizationFactor, severityFactor, or_else.
  rewrite Tu. cbv zeta.
  set (A := Math_max 0 ((100 - Number (UserData.utilization data)) / 10) * 5
              * (Weights.utilization weights * 2)).
  set (y := (Number (UserData.ficoScore data) - 500) / 20).
  set (p := Number (UserData.positiveAccounts data)) in *.
  fold (or_else p 0).
  assert (E1 : 0 + A + Math_max 0 y * 5 = A + Math_max 0 y * 5 /\
               Prim2SF (A + Math_max 0 y * 5) <> S754_zero true).
  { destruct (severity_term y) as [N|N].
    - rewrite N, !(add_nan_r _ nan eq_refl). split; [reflexivity|discriminate].
    - split; [apply add_zero_add; exact N|apply add_not_negzero; exact N]. }
  destruct E1 as [E1 E2]. rewrite E1, (sub_or_else_any _ p E2 Np).
  destruct (10 <? Number (UserData.oldestAccountAge data)); [reflexivity|].
  symmetry. apply sub_zero_r.
Qed.

Lemma clamp_round_nan d :
  is_nan d = true -> is_nan (Math_min 150 (Math_max 20 (Math_round d))) = true.
Proof.
  intro H.
  assert (E : d = nan).
  { apply Prim2SF_inj. rewrite is_nan_spec in H. change (Prim2SF nan) with S754_nan.
    destruct (Prim2SF d); try discriminate. reflexivity. }
  rewrite E. reflexivity.
Qed.

(** C2 (as amended).  For every profile and every weight vector:
    - when the utilization is set (not empty, 0 or [NaN]) and the count of
      positive accounts is a number, [calculateWorstCaseImpact] is
      [min(150, max(20, round(d)))] for
      [d = max(0, (100 - u) / 10) * 5 * (w * 2) + max(0, (fico - 500) / 20) * 5
           - positive * 10 - (15 if age > 10 else 0)];
    - the result is an integer between 20 and 150 whenever the drop is
      not [NaN], and [NaN] when the drop is;
    - the drop is not [NaN] on a filled-in form (score in [300, 850], a
      utilization bucket, positive accounts not negative) with a
      utilization weight in [0, 1]. *)
Theorem calculateWorstCaseImpact_formula :
  forall (data : UserData.t) (weights : Weights.t),
    (truthy (Number (UserData.utilization data)) = true ->
     is_nan (Number (UserData.positiveAccounts data)) = false ->
     calculateWorstCaseImpact data weights =
     Math_min 150 (Math_max 20 (Math_round (specifiedDrop data weights)))) /\
    (is_nan (worstCaseDrop data weights) = false ->
     exists z : Z,
       (20 <= z <= 150)%Z /\ calculateWorstCaseImpact data weights = JS.of_Z z) /\
    (is_nan (worstCaseDrop data weights) = true ->
     is_nan (calculateWorstCaseImpact data weights) = true) /\
    ((300 <=? Number (UserData.ficoScore data)) = true ->
     (Number (UserData.ficoScore data) <=? 850) = true ->
     In (Number (UserData.utilization data)) utilizationBuckets ->
     (0 <=? Number (UserData.positiveAccounts data)) = true ->
     (0 <=? Weights.utilization weights) = true ->
     (Weights.utilization weights <=? 1) = true ->
     is_nan (worstCaseDrop data weights) = false).
Proof.
  intros data weights. split; [|split; [|split]].
  - intros Tu Np. unfold calculateWorstCaseImpact.
    rewrite (worstCaseDrop_specified data weights Tu Np). reflexivity.
  - intro N. unfold calculateWorstCaseImpact. apply clamp_round. exact N.
  - intro N. unfold calculateWorstCaseImpact. apply clamp_round_nan. exact N.
  - intros Lf Hf Hu Hp Lw Hw.
    destruct (worstCaseDrop_filled data weights Lf Hf Hu Hp Lw Hw) as [E N].
    rewrite E. exact N.
Qed.

Lemma calculateWorstCaseImpact_formula_witness :
  calculateWorstCaseImpact (profile (Num 700) pre_enrollment) baseWeights =
    Math_min 150 (Math_max 20 (Math_round 49)) /\
  exists z : Z,
    (20 <= z <= 150)%Z /\
    calculateWorstCaseImpact (profile (Num 700) pre_enrollment) baseWeights = JS.of_Z z.
Proof.
  destruct (calculateWorstCaseImpact_formula (profile (Num 700) pre_enrollment) baseWeights)
    as (H1 & H2 & _ & H4).
  split.
  - apply H1; reflexivity.
  - apply H2. apply H4; try reflexivity. right. right. left. reflexivity.
Defined.

(** C2 as stated fails.  With the utilization left empty the code puts
    100 in its place: the result is 38, where the formula on the field as
    it is gives 68.  With an infinite score and infinitely many positive
    accounts the drop is [Infinity - Infinity] and the result is [NaN]. *)
Lemma calculateWorstCaseImpact_counterexample :
  calculateWorstCaseImpact emptyUtilization baseWeights = 38 /\
  Math_min 150 (Math_max 20 (Math_round (specifiedDrop emptyUtilization baseWeights))) = 68 /\
  is_nan (calculateWorstCaseImpact infiniteProfile baseWeights) = true.
Proof. vm_compute. split; [reflexivity|split; reflexivity]. Qed.

(** ** The scores of runSimulation *)

Lemma initialScoreOf_within data :
  (Number (UserData.ficoScore data) <=? 850) = true ->
  within 300 850 (initialScoreOf (numericData data)).
Proof.
  intro H. unfold initialScoreOf, numericData. cbn [NumericData.ficoScore].
  set (f := Number (UserData.ficoScore data)) in *.
  destruct (300 <? or_else f 0) eqn:E; [|closed_within].
  unfold or_else in *. destruct (truthy f); [|discriminate E].
  apply within_leb; [reflexivity|reflexivity|apply ltb_leb; exact E|exact H].
Qed.

Lemma timeline_or_else t : In t programTimelines -> or_else t 36 = t.
Proof.
  intro H. apply timeline_within in H. unfold or_else.
  rewrite (within_truthy 12 60 t H); [reflexivity|qcompute].
Qed.

Lemma recoveryMonths_within t m :
  In t programTimelines -> (0 <=? m) = true ->
  within 12 60 (Math_max 12 (or_else t 36 - or_else m 0)).
Proof.
  intros Ht Hm. rewrite (timeline_or_else t Ht).
  destruct (ge0_cases m Hm) as [[Fm Pm]|Em].
  - assert (Wm : within 0 max_value (or_else m 0)).
    { unfold or_else. destruct (truthy m); [|closed_within].
      split; [exact Fm|]. split; [exact Pm|]. apply (fin_le_max m Fm). }
    assert (W : within (- max_value) 60 (t - or_else m 0)).
    { apply (sub_within 12 60 0 max_value); [apply timeline_within; exact Ht|exact Wm|..];
        qcompute. }
    apply (Math_max_within 12 (- max_value) 60); [reflexivity|exact W|..]; qcompute.
  - subst m. change (or_else infinity 0) with infinity.
    unfold programTimelines in Ht. simpl In in Ht.
    destruct Ht as [E|[E|[E|[E|[E|[]]]]]]; subst t; closed_within.
Qed.

Lemma toolGainOf_within n : within 0 65 (toolGainOf n).
Proof.
  unfold toolGainOf.
  destruct (NumericData.securedCard n), (NumericData.creditBuilder n),
    (NumericData.authorizedUser n); closed_within.
Qed.

Lemma totalPotentialGainOf_within n w rm :
  unitWeights w = true -> within 12 60 rm ->
  within 44 715 (totalPotentialGainOf n w rm).
Proof.
  intros Hw Hr. destruct (unitWeights_spec w Hw) as (Wp & Wu & Wa).
  unfold totalPotentialGainOf. cbv zeta.
  assert (Q : within 0.25 2 (rm / 36)).
  { apply (div_within 12 60); [exact Hr|..]; qcompute. }
  assert (U : within 44 250 (Weights.utilization w * 250)).
  { apply (mul_within 0.18 1 250 250); [exact Wu|closed_within|..]; qcompute. }
  assert (U0 : within 44 250 (0 + Weights.utilization w * 250)).
  { apply (add_within 0 0 44 250); [closed_within|exact U|..]; qcompute. }
  assert (P : within 0 150 (Weights.paymentHistory w * 150)).
  { apply (mul_within 0 1 150 150); [exact Wp|closed_within|..]; qcompute. }
  assert (PQ : within 0 300 (Weights.paymentHistory w * 150 * (rm / 36))).
  { apply (mul_within 0 150 0.25 2); [exact P|exact Q|..]; qcompute. }
  assert (A : within 0 50 (Weights.accountAge w * 50)).
  { apply (mul_within 0 1 50 50); [exact Wa|closed_within|..]; qcompute. }
  assert (AQ : within 0 100 (Weights.accountAge w * 50 * (rm / 36))).
  { apply (mul_within 0 50 0.25 2); [exact A|exact Q|..]; qcompute. }
  assert (S1 : within 44 550 (0 + Weights.utilization w * 250
                              + Weights.paymentHistory w * 150 * (rm / 36))).
  { apply (add_within 44 250 0 300); [exact U0|exact PQ|..]; qcompute. }
  assert (S2 : within 44 650 (0 + Weights.utilization w * 250
                              + Weights.paymentHistory w * 150 * (rm / 36)
                              + Weights.accountAge w * 50 * (rm / 36))).
  { apply (add_within 44 550 0 100); [exact S1|exact AQ|..]; qcompute. }
  apply (add_within 44 650 0 65); [exact S2|apply toolGainOf_within|..]; qcompute.
Qed.

Lemma projected_within low gain :
  within 300 850 low -> within 44 715 gain ->
  within 300 850 (Math_min 850 (Math_round (low + gain))).
Proof.
  intros Hl Hg.
  assert (S : within 300 1565 (low + gain)).
  { apply (add_within 300 850 44 715); [exact Hl|exact Hg|..]; qcompute. }
  assert (R : within 300 1565 (Math_round (low + gain))).
  { apply (Math_round_within 300 1565 300 1565); [exact S|..]; qcompute. }
  apply (Math_min_within 850 300 1565); [reflexivity|exact R|..]; qcompute.
Qed.

Lemma scenarioBranch_new data n i w :
  NumericData.scenarioType n = pre_enrollment ->
  scenarioBranch data n i w =
  (Math_max 300 (i - calculateWorstCaseImpact data w), NumericData.programTimeline n,
   calculateWorstCaseImpact data w).
Proof. unfold scenarioBranch. now intros ->. Qed.

Lemma runSimulation_fields data low rm ip :
  scenarioBranch data (numericData data) (initialScoreOf (numericData data))
    (weightsOf (numericData data)) = (low, rm, ip) ->
  let r := runSimulation data in
  SimulationResults.initialScore r = initialScoreOf (numericData data) /\
  SimulationResults.lowPointScore r = low /\
  SimulationResults.projectedScore r =
    Math_min 850 (Math_round (low + totalPotentialGainOf (numericData data)
                                      (weightsOf (numericData data)) rm)) /\
  SimulationResults.scoreGain r =
    Math_min 850 (Math_round (low + totalPotentialGainOf (numericData data)
                                      (weightsOf (numericData data)) rm))
    - initialScoreOf (numericData data).
Proof.
  intro E. unfold runSimulation. rewrite E.
  cbn [SimulationResults.initialScore SimulationResults.lowPointScore
       SimulationResults.projectedScore SimulationResults.scoreGain].
  split; [reflexivity|]. split; [reflexivity|]. split; reflexivity.
Qed.

Lemma worstCaseImpact_within data w :
  (300 <=? Number (UserData.ficoScore data)) = true ->
  (Number (UserData.ficoScore data) <=? 850) = true ->
  In (Number (UserData.utilization data)) utilizationBuckets ->
  (0 <=? Number (UserData.positiveAccounts data)) = true ->
  unitWeights w = true ->
  within 20 150 (calculateWorstCaseImpact data w).
Proof.
  intros Lf Hf Hu Hp Hw. destruct (unitWeights_spec w Hw) as (_ & Wu & _).
  assert (L : (0 <=? Weights.utilization w) = true).
  { apply leb_Q; [reflexivity|exact (proj1 Wu)|].
    apply Qle_trans with (2 := proj1 (proj2 Wu)). qcompute. }
  assert (H : (Weights.utilization w <=? 1) = true).
  { apply (within_leb_hi 0.18 1); [reflexivity|exact Wu]. }
  destruct (worstCaseDrop_filled data w Lf Hf Hu Hp L H) as [_ N].
  unfold calculateWorstCaseImpact.
  destruct (worstCaseDrop_filled data w Lf Hf Hu Hp L H) as [E _]. rewrite E.
  destruct (clamp_round _ N) as (z & Hz & Ez). rewrite Ez.
  destruct (of_Z_exact z ltac:(lia)) as [F V].
  split; [exact F|]. rewrite V, F2Q_20, F2Q_150. rewrite <- !Zle_Qle. exact Hz.
Qed.

(** C3. For a profile of the data model, the low point and the
    projected score returned by [runSimulation] lie in [300, 850]. *)
Theorem runSimulation_scores_in_range :
  forall data : UserData.t,
    documentedProfile data ->
    let r := runSimulation data in
    (300 <=? SimulationResults.lowPointScore r) = true /\
    (SimulationResults.lowPointScore r <=? 850) = true /\
    (300 <=? SimulationResults.projectedScore r) = true /\
    (SimulationResults.projectedScore r <=? 850) = true.
Proof.
  intros data (Lf & Hf & Hu & Hp & Ht & Hm).
  set (n := numericData data). set (i := initialScoreOf n). set (w := weightsOf n).
  assert (Wi : within 300 850 i) by (apply initialScoreOf_within; exact Hf).
  assert (Hw : unitWeights w = true) by (unfold w, weightsOf; apply weights_unit).
  assert (K : forall low rm ip,
             scenarioBranch data n i w = (low, rm, ip) ->
             within 300 850 low -> within 12 60 rm ->
             let r := runSimulation data in
             (300 <=? SimulationResults.lowPointScore r) = true /\
             (SimulationResults.lowPointScore r <=? 850) = true /\
             (300 <=? SimulationResults.projectedScore r) = true /\
             (SimulationResults.projectedScore r <=? 850) = true).
  { intros low rm ip E Wl Wr.
    destruct (runSimulation_fields data low rm ip E) as (_ & E1 & E2 & _).
    cbv zeta. rewrite E1, E2.
    pose proof (projected_within low _ Wl (totalPotentialGainOf_within n w rm Hw Wr)) as Wp.
    split; [apply (within_leb_lo 300 850); [reflexivity|exact Wl]|].
    split; [apply (within_leb_hi 300 850); [reflexivity|exact Wl]|].
    split; [apply (within_leb_lo 300 850); [reflexivity|exact Wp]|].
    apply (within_leb_hi 300 850); [reflexivity|exact Wp]. }
  destruct (UserData.scenarioType data) eqn:S.
  - apply (K _ _ _ (scenarioBranch_new data n i w S)).
    + assert (Wc : within 20 150 (calculateWorstCaseImpact data w)).
      { apply worstCaseImpact_within; assumption. }
      assert (Wd : within 150 830 (i - calculateWorstCaseImpact data w)).
      { apply (sub_within 300 850 20 150); [exact Wi|exact Wc|..]; qcompute. }
      apply (Math_max_within 300 150 830); [reflexivity|exact Wd|..]; qcompute.
    + unfold n, numericData. cbn [NumericData.programTimeline].
      rewrite (timeline_or_else _ Ht). apply timeline_within. exact Ht.
  - apply (K _ _ _ (scenarioBranch_tracker data n i w S)).
    + exact Wi.
    + unfold n, numericData. cbn [NumericData.programTimeline NumericData.monthsInProgram].
      apply recoveryMonths_within; [exact Ht|exact (Hm eq_refl)].
Qed.

Lemma runSimulation_scores_in_range_witness :
  let r := runSimulation (profile (Num 650) pre_enrollment) in
  (300 <=? SimulationResults.lowPointScore r) = true /\
  (SimulationResults.lowPointScore r <=? 850) = true /\
  (300 <=? SimulationResults.projectedScore r) = true /\
  (SimulationResults.projectedScore r <=? 850) = true.
Proof.
  apply (runSimulation_scores_in_range (profile (Num 650) pre_enrollment)).
  unfold documentedProfile.
  split; [reflexivity|]. split; [reflexivity|].
  split; [right; right; left; reflexivity|]. split; [reflexivity|].
  split; [right; right; left; reflexivity|]. intros _. reflexivity.
Defined.

(** An integer at or above a score in [300, 850], and at most one above:
    the rounded sum of the score and a gain of one point or more cannot
    fall below it. *)
Lemma score_ceiling i :
  within 300 850 i ->
  exists k : float,
    is_finite k = true /\ (F2Q i <= F2Q k)%Q /\ (F2Q k <= F2Q i + 1)%Q /\
    (F2Q k <= F2Q 850)%Q /\
    exists z : Z, (- 2 ^ 52 < z)%Z /\ (F2Q k == inject_Z z)%Q.
Proof.
  intros (Fi & A & B).
  assert (E3 : (F2Q 300 == inject_Z 300)%Q) by reflexivity.
  assert (E8 : (F2Q 850 == inject_Z 850)%Q) by reflexivity.
  rewrite E3 in A. rewrite E8 in B.
  set (z := Qceiling (F2Q i)).
  assert (Z1 : (F2Q i <= inject_Z z)%Q) by apply Qle_ceiling.
  assert (Z2 : (inject_Z z < F2Q i + 1)%Q).
  { pose proof (Qceiling_lt (F2Q i)) as C. fold z in C.
    unfold Z.sub in C. rewrite inject_Z_plus, inject_Z_opp in C. change (inject_Z 1) with 1%Q in C.
    lra. }
  assert (Z3 : (z <= 850)%Z).
  { rewrite <- (Qceiling_Z 850). apply Qceiling_resp_le. exact B. }
  assert (Z4 : (300 <= z)%Z).
  { rewrite Zle_Qle. lra. }
  destruct (of_Z_exact z ltac:(lia)) as [F V].
  exists (JS.of_Z z). split; [exact F|]. rewrite V, E8.
  split; [exact Z1|]. split; [lra|]. split; [rewrite <- Zle_Qle; exact Z3|].
  exists z. split; [lia|exact V].
Qed.

(** C9. For an existing client whose score is at most 850, the gain
    returned by [runSimulation] is not negative: the projected score is
    at least the initial score. *)
Theorem runSimulation_existing_client_gain :
  forall data : UserData.t,
    UserData.scenarioType data = progress_tracker ->
    (Number (UserData.ficoScore data) <=? 850) = true ->
    In (UserData.programTimeline data) programTimelines ->
    (0 <=? Number (UserData.monthsInProgram data)) = true ->
    let r := runSimulation data in
    (0 <=? SimulationResults.scoreGain r) = true /\
    (SimulationResults.initialScore r <=? SimulationResults.projectedScore r) = true.
Proof.
  intros data S Hf Ht Hm.
  set (n := numericData data). set (i := initialScoreOf n). set (w := weightsOf n).
  assert (Wi : within 300 850 i) by (apply initialScoreOf_within; exact Hf).
  assert (Hw : unitWeights w = true) by (unfold w, weightsOf; apply weights_unit).
  destruct (runSimulation_fields data _ _ _ (scenarioBranch_tracker data n i w S))
    as (E0 & _ & E2 & E3).
  cbv zeta. rewrite E0, E2, E3. fold n. fold i. fold w.
  set (rm := Math_max 12 (NumericData.programTimeline n - NumericData.monthsInProgram n)).
  assert (Wr : within 12 60 rm).
  { unfold rm, n, numericData. cbn [NumericData.programTimeline NumericData.monthsInProgram].
    apply recoveryMonths_within; assumption. }
  pose proof (totalPotentialGainOf_within n w rm Hw Wr) as Wg.
  set (g := totalPotentialGainOf n w rm) in *.
  destruct (score_ceiling i Wi) as (k & Fk & K1 & K2 & K3 & z & Z1 & Z2).
  destruct Wi as (Fi & I1 & I2). destruct Wg as (Fg & G1 & G2).
  assert (E44 : (F2Q 44 == 44)%Q) by reflexivity.
  assert (E715 : (F2Q 715 == 715)%Q) by reflexivity.
  assert (E850 : (F2Q 850 == 850)%Q) by reflexivity.
  assert (E1565 : (F2Q 1565 == inject_Z 1565)%Q) by reflexivity.
  assert (E0' : (F2Q 0 == 0)%Q) by reflexivity.
  assert (E300 : (F2Q 300 == 300)%Q) by reflexivity.
  assert (W1 : within k 1565 (i + g)).
  { apply add_bracket; try assumption; [reflexivity|lra|].
    rewrite E1565. change (inject_Z 1565) with 1565%Q. lra. }
  assert (W2 : within k 1565 (Math_round (i + g))).
  { apply (Math_round_within k 1565 z 1565); [exact W1|exact Z2|exact E1565|exact Z1|lia]. }
  assert (W3 : within k 850 (Math_min 850 (Math_round (i + g)))).
  { apply (Math_min_within 850 k 1565); [reflexivity|exact W2|lra|exact K3|lra]. }
  destruct W3 as (Fp & P1 & P2).
  set (p := Math_min 850 (Math_round (i + g))) in *.
  assert (W4 : within 0 850 (p - i)).
  { apply sub_bracket; try assumption; try reflexivity; lra. }
  split.
  - apply fin_ge0; [exact (proj1 W4)|]. rewrite <- E0'. exact (proj1 (proj2 W4)).
  - apply leb_Q; [exact Fi|exact Fp|lra].
Qed.

Lemma runSimulation_existing_client_gain_witness :
  let r := runSimulation (profile (Num 850) progress_tracker) in
  (0 <=? SimulationResults.scoreGain r) = true /\
  (SimulationResults.initialScore r <=? SimulationResults.projectedScore r) = true.
Proof.
  apply (runSimulation_existing_client_gain (profile (Num 850) progress_tracker));
    try reflexivity.
  right. right. left. reflexivity.
Defined.

(** * Further properties of the simulator and of its chart *)

(** ** Numbers fixed by their value *)

(** A finite number with the value of a number other than zero is that
    number. *)
Lemma SF_value_inj x y :
  valid_binary x = true -> valid_binary y = true ->
  SFfin x = true -> SFfin y = true ->
  (forall s, y <> S754_zero s) ->
  (SF2Q x == SF2Q y)%Q -> x = y.
Proof.
  intros Vx Vy Fx Fy Ny E.
  pose proof (SFcompare_val x y Vx Vy Fx Fy) as C.
  rewrite (Qcmp_eq _ _ E) in C.
  destruct y as [sy|sy| |sy my ey]; try discriminate; [now elim (Ny sy)|].
  destruct x as [sx|sx| |sx mx ex]; try discriminate.
  - simpl in C. destruct sy; discriminate.
  - simpl in C. injection C as C.
    destruct sx, sy; try discriminate.
    + destruct (Z.compare_spec ex ey) as [Ee|Ee|Ee]; try discriminate.
      apply (f_equal CompOpp) in C. rewrite CompOpp_involutive in C. simpl in C.
      apply Pos.compare_eq in C. now subst.
    + destruct (Z.compare_spec ex ey) as [Ee|Ee|Ee]; try discriminate.
      apply Pos.compare_eq in C. now subst.
Qed.

Lemma value_inj x c :
  is_finite x = true -> is_finite c = true -> is_zero c = false ->
  (F2Q x == F2Q c)%Q -> x = c.
Proof.
  rewrite !fin_spec, is_zero_spec. unfold F2Q. intros Fx Fc Nz E.
  apply Prim2SF_inj. apply SF_value_inj; auto using Prim2SF_valid.
  intros s Hs. rewrite Hs in Nz. discriminate.
Qed.

Lemma is_zero_Q x : is_finite x = true -> is_zero x = true <-> (F2Q x == 0)%Q.
Proof.
  rewrite fin_spec, is_zero_spec. unfold F2Q.
  destruct (Prim2SF x) as [s|s| |s m e]; try discriminate; intros _.
  - split; reflexivity.
  - split; [discriminate|]. intro H. exfalso.
    pose proof (mag_pos m e). rewrite SF2Q_finite in H. destruct s; lra.
Qed.

(** [x / x] is 1. *)
Lemma div_self x : is_finite x = true -> is_zero x = false -> x / x = 1.
Proof.
  intros F Z.
  assert (N : ~ (F2Q x == 0)%Q).
  { intro H. apply (is_zero_Q x F) in H. congruence. }
  assert (E1 : (F2Q 1 == 1)%Q) by reflexivity.
  destruct (div_bracket x x 1 1 F F N eq_refl eq_refl) as (Fq & A & B).
  - rewrite E1. apply Qle_lteq. right. field. exact N.
  - rewrite E1. apply Qle_lteq. right. symmetry. field. exact N.
  - apply value_inj; [exact Fq|reflexivity|reflexivity|]. apply Qle_antisym; assumption.
Qed.

(** ** Quotients and products that are numbers *)

Lemma truthy_inv x : truthy x = true -> is_nan x = false /\ is_zero x = false.
Proof.
  unfold truthy. intro H. apply negb_true_iff, orb_false_iff in H. exact H.
Qed.

Lemma div_notnan x t :
  is_finite x = true -> truthy t = true -> is_nan (x / t) = false.
Proof.
  intros F T. destruct (truthy_inv t T) as [Nt Zt]. revert F Nt Zt.
  rewrite fin_spec, !is_nan_spec, is_zero_spec, FloatAxioms.div_spec. unfold SF64div.
  destruct (Prim2SF x) as [sx|sx| |sx mx ex]; try discriminate;
  destruct (Prim2SF t) as [st|st| |st mt et]; try discriminate; intros _ _ _; try reflexivity.
  simpl SFdiv.
  destruct (SFdiv_core_binary prec emax (Zpos mx) ex (Zpos mt) et) as [[mz ez] lz] eqn:Ec.
  destruct (div_core_spec _ _ _ _ _ _ _ Ec) as (D1 & _).
  pose proof (round_aux_notnan (xorb sx st) mz ez lz D1) as H.
  destruct (binary_round_aux _ _ _ _ _ _); congruence.
Qed.

Lemma mul_notnan_r x c :
  is_nan x = false -> is_finite c = true -> is_zero c = false -> is_nan (x * c) = false.
Proof.
  rewrite fin_spec, !is_nan_spec, is_zero_spec, FloatAxioms.mul_spec. unfold SF64mul.
  destruct (Prim2SF x) as [sx|sx| |sx mx ex]; try discriminate;
  destruct (Prim2SF c) as [sc|sc| |sc mc ec]; try discriminate; intros _ _ _; try reflexivity.
  simpl SFmul.
  pose proof (round_aux_notnan (xorb sx sc) (Zpos (mx * mc)) (ex + ec) loc_Exact ltac:(lia)) as H.
  destruct (binary_round_aux _ _ _ _ _ _); congruence.
Qed.

(** Clamping a number to [0, 100]. *)
Lemma clamp_percent v :
  is_nan v = false -> within 0 100 (Math_max 0 (Math_min 100 v)).
Proof.
  intro Hn. destruct (is_finite v) eqn:Fv.
  - destruct (Math_min_fin 100 v eq_refl Fv) as (Em & M1 & _).
    assert (Fm : is_finite (Math_min 100 v) = true) by (destruct Em as [-> | ->]; auto).
    destruct (Math_max_fin 0 (Math_min 100 v) eq_refl Fm) as (EM & A & B).
    split; [destruct EM as [-> | ->]; auto|]. split; [exact A|].
    destruct EM as [-> | ->]; [qcompute|exact M1].
  - assert (Ed : v = infinity \/ v = neg_infinity).
    { rewrite <- (SF2Prim_Prim2SF v). rewrite fin_spec in Fv. rewrite is_nan_spec in Hn.
      destruct (Prim2SF v) as [s|s| |s m e]; try discriminate. destruct s; auto. }
    destruct Ed as [-> | ->]; closed_within.
Qed.

(** ** Zeros through the chart's formula *)

Lemma zero_div x t : is_zero x = true -> truthy t = true -> is_zero (x / t) = true.
Proof.
  intros Z T. destruct (truthy_inv t T) as [Nt Zt]. revert Z Nt Zt.
  rewrite !is_zero_spec, is_nan_spec, FloatAxioms.div_spec. unfold SF64div.
  destruct (Prim2SF x) as [sx|sx| |sx mx ex]; try discriminate;
  destruct (Prim2SF t) as [st|st| |st mt et]; try discriminate; intros _ _ _; reflexivity.
Qed.

Lemma zero_mul x c : is_zero x = true -> is_finite c = true -> is_zero (x * c) = true.
Proof.
  rewrite !is_zero_spec, fin_spec, FloatAxioms.mul_spec. unfold SF64mul.
  destruct (Prim2SF x) as [sx|sx| |sx mx ex]; try discriminate;
  destruct (Prim2SF c) as [sc|sc| |sc mc ec]; try discriminate; intros _ _; reflexivity.
Qed.

Lemma clamp_percent_zero v : is_zero v = true -> Math_max 0 (Math_min 100 v) = 0.
Proof.
  rewrite is_zero_spec. intro Z. rewrite <- (SF2Prim_Prim2SF v).
  destruct (Prim2SF v) as [[]|s| |s m e]; try discriminate; reflexivity.
Qed.

Lemma sub_self x : is_finite x = true -> is_zero (x - x) = true.
Proof.
  intro F. destruct (sub_bracket x x 0 0 F F eq_refl eq_refl) as (Fd & A & B).
  - change (F2Q 0) with 0%Q. lra.
  - change (F2Q 0) with 0%Q. lra.
  - apply (is_zero_Q _ Fd). change (F2Q 0) with 0%Q in A, B. lra.
Qed.

Lemma totalGain_truthy e d : truthy (ScoreChart.totalGain e d) = true.
Proof.
  unfold ScoreChart.totalGain, or_else. destruct (truthy (e - d)) eqn:T; [exact T|reflexivity].
Qed.

(** ** The heights of the chart *)

Lemma calculateY_within dip end_ score :
  is_finite (score - dip) = true ->
  within 0 100 (ScoreChart.calculateY dip (ScoreChart.totalGain end_ dip) score).
Proof.
  intro F. unfold ScoreChart.calculateY. apply clamp_percent.
  apply mul_notnan_r; [|reflexivity|reflexivity].
  apply div_notnan; [exact F|apply totalGain_truthy].
Qed.

Lemma calculateY_at_dip dip end_ :
  is_finite dip = true ->
  ScoreChart.calculateY dip (ScoreChart.totalGain end_ dip) dip = 0.
Proof.
  intro F. unfold ScoreChart.calculateY. apply clamp_percent_zero.
  apply zero_mul; [|reflexivity].
  apply zero_div; [apply sub_self; exact F|apply totalGain_truthy].
Qed.

(** X10.  Whatever the dip and the projected score, a score whose distance to
    the dip is finite is drawn between 0 and 100 percent of the height:
    the span [(end - dip) || 1] is never zero and never [NaN]. *)
Theorem calculateY_percent :
  forall dip end_ score : float,
    is_finite (score - dip) = true ->
    let y := ScoreChart.calculateY dip (ScoreChart.totalGain end_ dip) score in
    (0 <=? y) = true /\ (y <=? 100) = true.
Proof.
  intros dip end_ score F. cbv zeta.
  pose proof (calculateY_within dip end_ score F) as W.
  split; [apply (within_leb_lo 0 100)|apply (within_leb_hi 0 100)];
    solve [reflexivity|exact W].
Qed.

Lemma calculateY_percent_witness :
  let y := ScoreChart.calculateY 600 (ScoreChart.totalGain 700 600) 650 in
  (0 <=? y) = true /\ (y <=? 100) = true.
Proof. apply (calculateY_percent 600 700 650). reflexivity. Defined.

(** X11.  The dip itself is at height 0, as the chart draws it, for every
    projected score. *)
Theorem calculateY_dip :
  forall dip end_ : float,
    is_finite dip = true ->
    ScoreChart.calculateY dip (ScoreChart.totalGain end_ dip) dip = 0.
Proof.
  intros dip end_ F. unfold ScoreChart.calculateY. apply clamp_percent_zero.
  apply zero_mul; [|reflexivity].
  apply zero_div; [apply sub_self; exact F|apply totalGain_truthy].
Qed.

Lemma calculateY_dip_witness :
  ScoreChart.calculateY 600 (ScoreChart.totalGain 700 600) 600 = 0.
Proof. apply (calculateY_dip 600 700). reflexivity. Defined.

(** X12.  The projected score is at height 100 when it differs from the dip.
    When the two are equal the span is replaced by 1 and the formula
    gives 0, although the chart draws the projected point at 100. *)
Theorem calculateY_end :
  forall dip end_ : float,
    is_finite (end_ - dip) = true ->
    ScoreChart.calculateY dip (ScoreChart.totalGain end_ dip) end_ =
    if is_zero (end_ - dip) then 0 else 100.
Proof.
  intros dip end_ F. unfold ScoreChart.calculateY, ScoreChart.totalGain, or_else, truthy.
  rewrite (fin_notnan _ F). simpl orb.
  destruct (is_zero (end_ - dip)) eqn:Z; simpl negb; cbv iota.
  - apply clamp_percent_zero. apply zero_mul; [|reflexivity].
    apply zero_div; [exact Z|reflexivity].
  - rewrite (div_self _ F Z). reflexivity.
Qed.

Lemma calculateY_end_witness :
  ScoreChart.calculateY 600 (ScoreChart.totalGain 700 600) 700 = 100 /\
  ScoreChart.calculateY 850 (ScoreChart.totalGain 850 850) 850 = 0.
Proof.
  split.
  - apply (calculateY_end 600 700). reflexivity.
  - apply (calculateY_end 850 850). reflexivity.
Defined.

(** ** The weights after normalization *)

(** X1.  Whatever the arguments, the weights returned by [calculateWeights]
    lie in these ranges: payment history in [0.2174, 0.4286], utilization
    in [0.1818, 0.4091], account age in [0.0909, 0.2381], credit mix in
    [0.087, 0.1579], new credit in [0.08, 0.1905].  The ends of the first
    two ranges are reached: payment history falls below its floor of 0.25
    and utilization below its floor of 0.20. *)
Theorem calculateWeights_ranges :
  (forall f td mi pa oa tcl : float,
      normalizedBounds (calculateWeights f td mi pa oa tcl) = true) /\
  Weights.paymentHistory (calculateWeights 740 20000 0 0 11 0) = 0.2174 /\
  Weights.paymentHistory (calculateWeights 500 20000 10000 0 2 100000) = 0.4286 /\
  Weights.utilization (calculateWeights 500 20000 10000 1 11 100000) = 0.1818 /\
  Weights.utilization (calculateWeights 740 20000 0 0 2 0) = 0.4091.
Proof.
  split; [|vm_compute; repeat split].
  apply (calculateWeights_all normalizedBounds). vm_compute. reflexivity.
Qed.

(** ** The initial score *)

(** X2.  The initial score is the score entered when that is above 300, and
    500 otherwise: for an empty field, for 0, for [NaN], for 300 itself.
    It is above 300 in every case. *)
Theorem runSimulation_initialScore :
  forall data : UserData.t,
    let fico := Number (UserData.ficoScore data) in
    let initial := SimulationResults.initialScore (runSimulation data) in
    initial = (if 300 <? fico then fico else 500) /\ (300 <? initial) = true.
Proof.
  intro data. cbv zeta.
  assert (E : SimulationResults.initialScore (runSimulation data) =
              initialScoreOf (numericData data)).
  { unfold runSimulation.
    destruct (scenarioBranch data (numericData data) (initialScoreOf (numericData data))
                (weightsOf (numericData data))) as [[low months] penalty].
    reflexivity. }
  rewrite E. unfold initialScoreOf, numericData. cbn [NumericData.ficoScore].
  set (f := Number (UserData.ficoScore data)).
  assert (F : (300 <? or_else f 0) = (300 <? f) /\
              ((300 <? f) = true -> or_else f 0 = f)).
  { unfold or_else. destruct (truthy f) eqn:T; [split; reflexivity|].
    assert (L : (300 <? f) = false).
    { unfold truthy in T. apply negb_false_iff, orb_true_iff in T.
      destruct T as [T|T].
      - rewrite FloatAxioms.ltb_spec. rewrite is_nan_spec in T.
        destruct (Prim2SF f); try discriminate. reflexivity.
      - rewrite FloatAxioms.ltb_spec. rewrite is_zero_spec in T.
        change (Prim2SF 300) with (S754_finite false 5277655813324800 (-44)).
        destruct (Prim2SF f); try discriminate. reflexivity. }
    rewrite L. split; [reflexivity|discriminate]. }
  destruct F as [F1 F2]. rewrite F1.
  destruct (300 <? f) eqn:L.
  - rewrite (F2 eq_refl). split; [reflexivity|exact L].
  - split; reflexivity.
Qed.

(** ** The savings *)

(** X5.  For a debt that is a number and not negative, the savings are not
    negative and do not exceed the debt. *)
Theorem runSimulation_savings_bounds :
  forall data : UserData.t,
    is_finite (Number (UserData.totalDebt data)) = true ->
    (0 <=? Number (UserData.totalDebt data)) = true ->
    let savings := SimulationResults.savings (runSimulation data) in
    (0 <=? savings) = true /\ (savings <=? Number (UserData.totalDebt data)) = true.
Proof.
  intros data F P. cbv zeta.
  assert (E : SimulationResults.savings (runSimulation data) =
              NumericData.totalDebt (numericData data) * 0.55).
  { unfold runSimulation.
    destruct (scenarioBranch data (numericData data) (initialScoreOf (numericData data))
                (weightsOf (numericData data))) as [[low months] penalty].
    reflexivity. }
  rewrite E. unfold numericData. cbn [NumericData.totalDebt].
  set (d := Number (UserData.totalDebt data)) in *.
  apply (leb_Q 0 d eq_refl F) in P. change (F2Q 0) with 0%Q in P.
  assert (Fd : is_finite (or_else d 0) = true /\ (F2Q (or_else d 0) == F2Q d)%Q).
  { unfold or_else, truthy. rewrite (fin_notnan d F). simpl orb.
    destruct (is_zero d) eqn:Z; simpl negb; cbv iota.
    - split; [reflexivity|]. apply (is_zero_Q d F) in Z. rewrite Z. reflexivity.
    - split; [exact F|reflexivity]. }
  destruct Fd as [Fd Vd].
  assert (C : (F2Q 0.55 == 2476979795053773 # 4503599627370496)%Q) by reflexivity.
  destruct (mul_bracket (or_else d 0) 0.55 0 d Fd eq_refl eq_refl F) as (Fs & A & B).
  - change (F2Q 0) with 0%Q. rewrite Vd, C. nra.
  - rewrite Vd, C. nra.
  - split; [apply (leb_Q 0 _ eq_refl Fs); exact A|apply (leb_Q _ d Fs F); exact B].
Qed.

Lemma runSimulation_savings_bounds_witness :
  let data := profile (Num 650) pre_enrollment in
  (0 <=? SimulationResults.savings (runSimulation data)) = true /\
  (SimulationResults.savings (runSimulation data) <=? 20000) = true.
Proof.
  apply (runSimulation_savings_bounds (profile (Num 650) pre_enrollment)); reflexivity.
Defined.

(** ** The low point and the recovery *)

Lemma impact_integer data w :
  (300 <=? Number (UserData.ficoScore data)) = true ->
  (Number (UserData.ficoScore data) <=? 850) = true ->
  In (Number (UserData.utilization data)) utilizationBuckets ->
  (0 <=? Number (UserData.positiveAccounts data)) = true ->
  unitWeights w = true ->
  exists z : Z, (20 <= z <= 150)%Z /\ calculateWorstCaseImpact data w = JS.of_Z z.
Proof.
  intros Lf Hf Hu Hp Hw. destruct (unitWeights_spec w Hw) as (_ & Wu & _).
  assert (L : (0 <=? Weights.utilization w) = true).
  { apply leb_Q; [reflexivity|exact (proj1 Wu)|].
    apply Qle_trans with (2 := proj1 (proj2 Wu)). qcompute. }
  assert (H : (Weights.utilization w <=? 1) = true).
  { apply (within_leb_hi 0.18 1); [reflexivity|exact Wu]. }
  destruct (worstCaseDrop_filled data w Lf Hf Hu Hp L H) as [E N].
  unfold calculateWorstCaseImpact. rewrite E. apply clamp_round. exact N.
Qed.

Lemma initialScoreOf_above data :
  (Number (UserData.ficoScore data) <=? 850) = true ->
  (300 < F2Q (initialScoreOf (numericData data)))%Q.
Proof.
  intro H. pose proof (initialScoreOf_within data H) as (F & _ & _).
  unfold initialScoreOf in *.
  destruct (300 <? NumericData.ficoScore (numericData data)) eqn:E.
  - apply (ltb_Q 300 _ eq_refl F) in E.
    assert (E300 : (F2Q 300 == 300)%Q) by reflexivity. lra.
  - qcompute.
Qed.

(** A number of the format just below a score, less than one away. *)
Lemma score_below i :
  within 300 850 i ->
  exists k : float,
    is_finite k = true /\ (F2Q k < F2Q i)%Q /\ (F2Q i - 1 <= F2Q k)%Q.
Proof.
  intros (Fi & A & B).
  assert (E3 : (F2Q 300 == inject_Z 300)%Q) by reflexivity.
  assert (E8 : (F2Q 850 == inject_Z 850)%Q) by reflexivity.
  rewrite E3 in A. rewrite E8 in B.
  set (z := Qceiling (F2Q i)).
  assert (Z1 : (F2Q i <= inject_Z z)%Q) by apply Qle_ceiling.
  assert (Z2 : (inject_Z (z - 1) < F2Q i)%Q) by apply Qceiling_lt.
  assert (Z3 : (z <= 850)%Z).
  { rewrite <- (Qceiling_Z 850). apply Qceiling_resp_le. exact B. }
  assert (Z4 : (300 <= z)%Z) by (rewrite Zle_Qle; lra).
  destruct (of_Z_exact (z - 1) ltac:(lia)) as [F V].
  exists (JS.of_Z (z - 1)). split; [exact F|]. rewrite V. split; [exact Z2|].
  unfold Z.sub. rewrite inject_Z_plus, inject_Z_opp. change (inject_Z 1) with 1%Q. lra.
Qed.

(** X3.  For a new client of the data model, the penalty is an integer from 20
    to 150, the low point is [max(300, initial - penalty)], at least 300
    and below the initial score, and the recovery takes the months of the
    timeline. *)
Theorem runSimulation_new_client :
  forall data : UserData.t,
    documentedProfile data ->
    UserData.scenarioType data = pre_enrollment ->
    let r := runSimulation data in
    (exists z : Z, (20 <= z <= 150)%Z /\ SimulationResults.impactPenalty r = JS.of_Z z) /\
    SimulationResults.lowPointScore r =
      Math_max 300 (SimulationResults.initialScore r - SimulationResults.impactPenalty r) /\
    (300 <=? SimulationResults.lowPointScore r) = true /\
    (SimulationResults.lowPointScore r <? SimulationResults.initialScore r) = true /\
    SimulationResults.recoveryMonths r = UserData.programTimeline data.
Proof.
  intros data (Lf & Hf & Hu & Hp & Ht & _) S.
  set (n := numericData data). set (i := initialScoreOf n). set (w := weightsOf n).
  assert (Wi : within 300 850 i) by (apply initialScoreOf_within; exact Hf).
  assert (Pi : (300 < F2Q i)%Q) by (apply initialScoreOf_above; exact Hf).
  assert (Hw : unitWeights w = true) by (unfold w, weightsOf; apply weights_unit).
  destruct (impact_integer data w Lf Hf Hu Hp Hw) as (z & Hz & Ez).
  cbv zeta. unfold runSimulation. fold n. fold i. fold w.
  rewrite (scenarioBranch_new data n i w S).
  cbn [SimulationResults.impactPenalty SimulationResults.lowPointScore
       SimulationResults.initialScore SimulationResults.recoveryMonths].
  split; [exists z; split; [exact Hz|exact Ez]|]. split; [reflexivity|].
  destruct (of_Z_exact z ltac:(lia)) as [Fz Vz]. rewrite Ez.
  destruct Wi as (Fi & I1 & I2).
  assert (E300 : (F2Q 300 == 300)%Q) by reflexivity.
  assert (E850 : (F2Q 850 == 850)%Q) by reflexivity.
  assert (Zl : (20 <= inject_Z z)%Q) by (change 20%Q with (inject_Z 20); rewrite <- Zle_Qle; lia).
  assert (Zh : (inject_Z z <= 150)%Q) by (change 150%Q with (inject_Z 150); rewrite <- Zle_Qle; lia).
  assert (E150 : (F2Q 150 == 150)%Q) by reflexivity.
  destruct (sub_bracket i (JS.of_Z z) 150 i Fi Fz eq_refl Fi) as (Fd & D1 & D2).
  { lra. }
  { lra. }
  assert (D3 : (F2Q (i - JS.of_Z z) < F2Q i)%Q).
  { destruct (score_below i (conj Fi (conj I1 I2))) as (k & Fk & K1 & K2).
    destruct (sub_bracket i (JS.of_Z z) 150 k Fi Fz eq_refl Fk) as (_ & _ & D4).
    - lra.
    - lra.
    - lra. }
  destruct (Math_max_fin 300 (i - JS.of_Z z) eq_refl Fd) as (EM & M1 & M2).
  assert (Fm : is_finite (Math_max 300 (i - JS.of_Z z)) = true)
    by (destruct EM as [-> | ->]; auto).
  split; [apply (leb_Q 300 _ eq_refl Fm); exact M1|].
  split.
  - apply (ltb_Q _ i Fm Fi). destruct EM as [-> | ->]; lra.
  - unfold n, numericData. cbn [NumericData.programTimeline]. apply timeline_or_else. exact Ht.
Qed.

Lemma runSimulation_new_client_witness :
  let r := runSimulation (profile (Num 650) pre_enrollment) in
  (exists z : Z, (20 <= z <= 150)%Z /\ SimulationResults.impactPenalty r = JS.of_Z z) /\
  SimulationResults.lowPointScore r =
    Math_max 300 (SimulationResults.initialScore r - SimulationResults.impactPenalty r) /\
  (300 <=? SimulationResults.lowPointScore r) = true /\
  (SimulationResults.lowPointScore r <? SimulationResults.initialScore r) = true /\
  SimulationResults.recoveryMonths r = 36.
Proof.
  apply (runSimulation_new_client (profile (Num 650) pre_enrollment)); [|reflexivity].
  unfold documentedProfile.
  split; [reflexivity|]. split; [reflexivity|].
  split; [right; right; left; reflexivity|]. split; [reflexivity|].
  split; [right; right; left; reflexivity|]. intros _. reflexivity.
Defined.

Lemma sub_infinity x : is_finite x = true -> x - infinity = neg_infinity.
Proof.
  rewrite fin_spec. intro F. apply Prim2SF_inj. rewrite FloatAxioms.sub_spec.
  change (Prim2SF infinity) with (S754_infinity false).
  destruct (Prim2SF x) as [s|s| |s m e]; try discriminate; reflexivity.
Qed.

Lemma or_else_zero_value m :
  is_finite m = true ->
  is_finite (or_else m 0) = true /\ (F2Q (or_else m 0) == F2Q m)%Q.
Proof.
  intro F. unfold or_else, truthy. rewrite (fin_notnan m F). simpl orb.
  destruct (is_zero m) eqn:Z; simpl negb; cbv iota.
  - split; [reflexivity|]. apply (is_zero_Q m F) in Z. rewrite Z. reflexivity.
  - split; [exact F|reflexivity].
Qed.

(** The months left to an existing client: the timeline less the months
    spent, but never fewer than 12. *)
Lemma months_left t m :
  In t programTimelines -> (0 <=? m) = true ->
  let rm := Math_max 12 (or_else t 36 - or_else m 0) in
  (12 <=? rm) = true /\ (rm <=? t) = true /\
  ((t - 12 <=? m) = true -> rm = 12).
Proof.
  intros Ht Hm. rewrite (timeline_or_else t Ht). cbv zeta.
  pose proof (timeline_within t Ht) as (Ft & T1 & T2).
  assert (E12 : (F2Q 12 == 12)%Q) by reflexivity.
  destruct (ge0_cases m Hm) as [[Fm Pm]|Em].
  - destruct (or_else_zero_value m Fm) as [Fm' Vm'].
    destruct (fin_le_max (or_else m 0) Fm') as [_ Mx].
    pose proof (opp_F2Q max_value) as Eo.
    destruct (sub_bracket t (or_else m 0) (- max_value) t Ft Fm' eq_refl Ft) as (Fd & _ & D2).
    { lra. }
    { lra. }
    destruct (Math_max_fin 12 (t - or_else m 0) eq_refl Fd) as (EM & M1 & M2).
    assert (FM : is_finite (Math_max 12 (t - or_else m 0)) = true)
      by (destruct EM as [-> | ->]; auto).
    split; [apply (leb_Q 12 _ eq_refl FM); exact M1|].
    split; [apply (leb_Q _ t FM Ft); destruct EM as [-> | ->]; lra|].
    intro H.
    assert (F12 : is_finite (t - 12) = true /\ (F2Q (t - 12) == F2Q t - 12)%Q).
    { unfold programTimelines in Ht. simpl In in Ht.
      destruct Ht as [E|[E|[E|[E|[E|[]]]]]]; subst t; split; reflexivity. }
    destruct F12 as [F12 V12].
    apply (leb_Q _ m F12 Fm) in H.
    destruct (sub_bracket t (or_else m 0) (- max_value) 12 Ft Fm' eq_refl eq_refl) as (_ & _ & D3).
    { lra. }
    { lra. }
    destruct EM as [EM|EM]; [exact EM|]. rewrite EM.
    apply value_inj; [exact Fd|reflexivity|reflexivity|]. rewrite EM in M1. lra.
  - subst m. change (or_else infinity 0) with infinity. rewrite (sub_infinity t Ft).
    change (Math_max 12 neg_infinity) with 12.
    split; [reflexivity|]. split; [|reflexivity].
    apply (leb_Q 12 t eq_refl Ft). exact T1.
Qed.

(** X4.  For an existing client on a timeline of the form who has spent a
    number of months that is not negative: the recovery takes at least 12
    months and at most the timeline, and exactly 12 once fewer than 12
    months of the timeline are left, however many months were spent. *)
Theorem runSimulation_months_left :
  forall data : UserData.t,
    UserData.scenarioType data = progress_tracker ->
    In (UserData.programTimeline data) programTimelines ->
    (0 <=? Number (UserData.monthsInProgram data)) = true ->
    let months := SimulationResults.recoveryMonths (runSimulation data) in
    (12 <=? months) = true /\
    (months <=? UserData.programTimeline data) = true /\
    ((UserData.programTimeline data - 12 <=? Number (UserData.monthsInProgram data)) = true ->
     months = 12).
Proof.
  intros data S Ht Hm. cbv zeta. unfold runSimulation.
  rewrite (scenarioBranch_tracker data (numericData data) _ _ S).
  cbn [SimulationResults.recoveryMonths].
  unfold numericData. cbn [NumericData.programTimeline NumericData.monthsInProgram].
  exact (months_left _ _ Ht Hm).
Qed.

Lemma runSimulation_months_left_witness :
  let data := UserData.mk (Num 650) (Num 20000) (Num 4000) (Num 70) (Num 3) (Num 1)
                (Num 5) 36 (Num 25000) progress_tracker (Num 30) Blank negotiation
                true false false EmptyString EmptyString EmptyString in
  let months := SimulationResults.recoveryMonths (runSimulation data) in
  (12 <=? months) = true /\ (months <=? 36) = true /\ months = 12.
Proof.
  cbv zeta.
  pose proof (runSimulation_months_left
    (UserData.mk (Num 650) (Num 20000) (Num 4000) (Num 70) (Num 3) (Num 1)
       (Num 5) 36 (Num 25000) progress_tracker (Num 30) Blank negotiation
       true false false EmptyString EmptyString EmptyString)
    eq_refl (or_intror (or_intror (or_introl eq_refl))) eq_refl) as (H1 & H2 & H3).
  split; [exact H1|]. split; [exact H2|]. apply H3. reflexivity.
Defined.

(** ** The cushion of the positive accounts *)

(** The first two terms of the drop add up to 157.5 at most. *)
Lemma drop_terms_within data weights :
  (300 <=? Number (UserData.ficoScore data)) = true ->
  (Number (UserData.ficoScore data) <=? 850) = true ->
  In (Number (UserData.utilization data)) utilizationBuckets ->
  (0 <=? Weights.utilization weights) = true ->
  (Weights.utilization weights <=? 1) = true ->
  within 0 157.5
    (Math_max 0 ((100 - Number (UserData.utilization data)) / 10) * 5
       * (Weights.utilization weights * 2)
     + Math_max 0 ((Number (UserData.ficoScore data) - 500) / 20) * 5).
Proof.
  intros Lf Hf Hu Lw Hw.
  destruct (utilizationFactor_within data Hu) as [Eu Wu].
  destruct (severityFactor_within data Lf Hf) as [Ws _].
  unfold severityFactor in Ws. rewrite Eu in Wu.
  assert (Ww : within 0 1 (Weights.utilization weights))
    by (apply within_leb; solve [reflexivity|assumption]).
  assert (W2 : within 0 2 (Weights.utilization weights * 2)).
  { apply (mul_within 0 1 2 2); [exact Ww|closed_within|..]; qcompute. }
  assert (U5 : within 0 35
                 (Math_max 0 ((100 - Number (UserData.utilization data)) / 10) * 5)).
  { apply (mul_within 0 7 5 5); [exact Wu|closed_within|..]; qcompute. }
  apply (add_within 0 70 0 87.5); [| |qcompute..].
  - apply (mul_within 0 35 0 2); [exact U5|exact W2|..]; qcompute.
  - apply (mul_within 0 17.5 5 5); [exact Ws|closed_within|..]; qcompute.
Qed.

(** X6.  With 14 positive accounts or more (50 is the most the form takes),
    the penalty is the least one, 20, for every score, utilization bucket
    and account age. *)
Theorem calculateWorstCaseImpact_cushion :
  forall (data : UserData.t) (weights : Weights.t),
    (300 <=? Number (UserData.ficoScore data)) = true ->
    (Number (UserData.ficoScore data) <=? 850) = true ->
    In (Number (UserData.utilization data)) utilizationBuckets ->
    (14 <=? Number (UserData.positiveAccounts data)) = true ->
    (Number (UserData.positiveAccounts data) <=? 50) = true ->
    (0 <=? Weights.utilization weights) = true ->
    (Weights.utilization weights <=? 1) = true ->
    calculateWorstCaseImpact data weights = 20.
Proof.
  intros data weights Lf Hf Hu Lp Hp Lw Hw.
  assert (Wp : within 14 50 (Number (UserData.positiveAccounts data)))
    by (apply within_leb; solve [reflexivity|assumption]).
  assert (Hp0 : (0 <=? Number (UserData.positiveAccounts data)) = true).
  { apply fin_ge0; [exact (proj1 Wp)|].
    apply Qle_trans with (2 := proj1 (proj2 Wp)). qcompute. }
  destruct (worstCaseDrop_filled data weights Lf Hf Hu Hp0 Lw Hw) as [E _].
  unfold calculateWorstCaseImpact. rewrite E. clear E.
  pose proof (drop_terms_within data weights Lf Hf Hu Lw Hw) as WX.
  set (X := Math_max 0 ((100 - Number (UserData.utilization data)) / 10) * 5
              * (Weights.utilization weights * 2)
            + Math_max 0 ((Number (UserData.ficoScore data) - 500) / 20) * 5) in *.
  assert (WP : within 140 500 (Number (UserData.positiveAccounts data) * 10)).
  { apply (mul_within 14 50 10 10); [exact Wp|closed_within|..]; qcompute. }
  assert (WD : within (-500) 17.5 (X - Number (UserData.positiveAccounts data) * 10)).
  { apply (sub_within 0 157.5 140 500); [exact WX|exact WP|..]; qcompute. }
  assert (WA : within 0 15 (if 10 <? Number (UserData.oldestAccountAge data) then 15 else 0)).
  { destruct (10 <? Number (UserData.oldestAccountAge data)); closed_within. }
  assert (WE : within (-515) 18
                 (X - Number (UserData.positiveAccounts data) * 10
                  - (if 10 <? Number (UserData.oldestAccountAge data) then 15 else 0))).
  { apply (sub_within (-500) 17.5 0 15); [exact WD|exact WA|..]; qcompute. }
  assert (WR : within (-515) 18
                 (Math_round
                    (X - Number (UserData.positiveAccounts data) * 10
                     - (if 10 <? Number (UserData.oldestAccountAge data) then 15 else 0)))).
  { apply (Math_round_within (-515) 18 (-515) 18); [exact WE|..]; qcompute. }
  destruct WR as (FR & _ & R2).
  destruct (Math_max_fin 20 _ eq_refl FR) as ([EM|EM] & M1 & _).
  - rewrite EM. reflexivity.
  - exfalso. rewrite EM in M1.
    assert (E20 : (F2Q 20 == 20)%Q) by reflexivity.
    assert (E18 : (F2Q 18 == 18)%Q) by reflexivity.
    lra.
Qed.

Lemma calculateWorstCaseImpact_cushion_witness :
  calculateWorstCaseImpact
    (UserData.mk (Num 850) (Num 20000) (Num 4000) (Num 30) (Num 3) (Num 14) (Num 5) 36
       (Num 25000) pre_enrollment Blank Blank negotiation true false false
       EmptyString EmptyString EmptyString)
    (Weights.mk 0 1 0 0 0) = 20.
Proof.
  apply calculateWorstCaseImpact_cushion; try reflexivity.
  left. reflexivity.
Defined.

(** ** The milestones *)

(** The branch taken on a profile of the data model: both scores are in
    [300, 850], the low point is not above the initial score, and the
    recovery takes 12 to 60 months. *)
Lemma scenario_facts data :
  documentedProfile data ->
  let n := numericData data in
  exists low rm ip,
    scenarioBranch data n (initialScoreOf n) (weightsOf n) = (low, rm, ip) /\
    within 300 850 (initialScoreOf n) /\ within 300 850 low /\
    (F2Q low <= F2Q (initialScoreOf n))%Q /\ within 12 60 rm.
Proof.
  intros (Lf & Hf & Hu & Hp & Ht & Hm) n.
  set (i := initialScoreOf n). set (w := weightsOf n).
  assert (Wi : within 300 850 i) by (apply initialScoreOf_within; exact Hf).
  assert (Hw : unitWeights w = true) by (unfold w, weightsOf; apply weights_unit).
  destruct (UserData.scenarioType data) eqn:S.
  - eexists _, _, _. split; [exact (scenarioBranch_new data n i w S)|].
    split; [exact Wi|].
    assert (Wc : within 20 150 (calculateWorstCaseImpact data w))
      by (apply worstCaseImpact_within; assumption).
    destruct Wi as (Fi & I1 & I2). destruct Wc as (Fc & C1 & C2).
    assert (E20 : (F2Q 20 == 20)%Q) by reflexivity.
    assert (E150 : (F2Q 150 == 150)%Q) by reflexivity.
    assert (E300 : (F2Q 300 == 300)%Q) by reflexivity.
    assert (E850 : (F2Q 850 == 850)%Q) by reflexivity.
    destruct (sub_bracket i (calculateWorstCaseImpact data w) 150 i Fi Fc eq_refl Fi)
      as (Fd & D1 & D2); [lra|lra|].
    destruct (Math_max_fin 300 _ eq_refl Fd) as (EM & M1 & M2).
    split; [|split].
    + split; [destruct EM as [-> | ->]; auto|]. split; [exact M1|].
      destruct EM as [-> | ->]; lra.
    + destruct EM as [-> | ->]; lra.
    + unfold n, numericData. cbn [NumericData.programTimeline].
      rewrite (timeline_or_else _ Ht). apply timeline_within. exact Ht.
  - eexists _, _, _. split; [exact (scenarioBranch_tracker data n i w S)|].
    split; [exact Wi|]. split; [exact Wi|]. split; [apply Qle_refl|].
    unfold n, numericData. cbn [NumericData.programTimeline NumericData.monthsInProgram].
    apply recoveryMonths_within; [exact Ht|exact (Hm eq_refl)].
Qed.

(** The projected score is a number of [300, 850] at or above the low
    point. *)
Lemma projected_above low gain :
  within 300 850 low -> within 44 715 gain ->
  let p := Math_min 850 (Math_round (low + gain)) in
  is_finite p = true /\ (F2Q low <= F2Q p)%Q /\ (F2Q p <= F2Q 850)%Q.
Proof.
  intros Wl Wg. cbv zeta.
  destruct (score_ceiling low Wl) as (k & Fk & K1 & K2 & K3 & z & Z1 & Z2).
  destruct Wl as (Fl & L1 & L2). destruct Wg as (Fg & G1 & G2).
  assert (E44 : (F2Q 44 == 44)%Q) by reflexivity.
  assert (E715 : (F2Q 715 == 715)%Q) by reflexivity.
  assert (E850 : (F2Q 850 == 850)%Q) by reflexivity.
  assert (E1565 : (F2Q 1565 == inject_Z 1565)%Q) by reflexivity.
  assert (W1 : within k 1565 (low + gain)).
  { apply add_bracket; try assumption; [reflexivity|lra|].
    rewrite E1565. change (inject_Z 1565) with 1565%Q. lra. }
  assert (W2 : within k 1565 (Math_round (low + gain))).
  { apply (Math_round_within k 1565 z 1565); [exact W1|exact Z2|exact E1565|exact Z1|lia]. }
  assert (W3 : within k 850 (Math_min 850 (Math_round (low + gain)))).
  { apply (Math_min_within 850 k 1565); [reflexivity|exact W2|lra|exact K3|lra]. }
  destruct W3 as (Fp & P1 & P2). split; [exact Fp|]. split; [lra|exact P2].
Qed.

Lemma runSimulation_milestone_fields data low rm ip :
  scenarioBranch data (numericData data) (initialScoreOf (numericData data))
    (weightsOf (numericData data)) = (low, rm, ip) ->
  let r := runSimulation data in
  let p := Math_min 850 (Math_round (low + totalPotentialGainOf (numericData data)
                                             (weightsOf (numericData data)) rm)) in
  SimulationResults.initialScore r = initialScoreOf (numericData data) /\
  SimulationResults.projectedScore r = p /\
  SimulationResults.milestoneDipScore r = low /\
  SimulationResults.milestoneStabilizationScore r =
    Math_min (initialScoreOf (numericData data)) (low + Math_round ((p - low) * 0.15)) /\
  SimulationResults.milestoneRecoveryScore r = low + Math_round ((p - low) * 0.65).
Proof.
  intro E. unfold runSimulation. rewrite E.
  cbn [SimulationResults.initialScore SimulationResults.projectedScore
       SimulationResults.milestoneDipScore SimulationResults.milestoneStabilizationScore
       SimulationResults.milestoneRecoveryScore].
  split; [reflexivity|]. split; [reflexivity|]. split; [reflexivity|].
  split; reflexivity.
Qed.

(** A share of the span, rounded, is an integer between 0 and the share
    of 550. *)
Lemma span_share g c hi zh :
  within 0 550 g -> is_finite c = true -> is_finite hi = true ->
  (0 <= F2Q c)%Q -> (550 * F2Q c <= F2Q hi)%Q ->
  (F2Q hi == inject_Z zh)%Q -> (zh < 2 ^ 52)%Z ->
  within 0 hi (Math_round (g * c)).
Proof.
  intros (Fg & G1 & G2) Fc Fh Pc Hc Eh Hz.
  assert (E550 : (F2Q 550 == 550)%Q) by reflexivity.
  change (F2Q 0) with 0%Q in G1.
  apply (Math_round_within 0 hi 0 zh); [|reflexivity|exact Eh|lia|exact Hz].
  apply mul_bracket; try assumption; try reflexivity.
  - change (F2Q 0) with 0%Q. nra.
  - nra.
Qed.

Lemma milestones_facts i low p :
  within 300 850 i -> within 300 850 low -> (F2Q low <= F2Q i)%Q ->
  is_finite p = true -> (F2Q low <= F2Q p)%Q -> (F2Q p <= F2Q 850)%Q ->
  let stab := Math_min i (low + Math_round ((p - low) * 0.15)) in
  let rcv := low + Math_round ((p - low) * 0.65) in
  is_finite stab = true /\ (F2Q low <= F2Q stab)%Q /\ (F2Q stab <= F2Q i)%Q /\
  is_finite rcv = true /\ (F2Q low <= F2Q rcv)%Q /\ (F2Q rcv <= F2Q 1208)%Q.
Proof.
  intros (Fi & I1 & I2) (Fl & L1 & L2) Li Fp P1 P2. cbv zeta.
  assert (E300 : (F2Q 300 == 300)%Q) by reflexivity.
  assert (E850 : (F2Q 850 == 850)%Q) by reflexivity.
  assert (Wg : within 0 550 (p - low)).
  { apply sub_bracket; try assumption; try reflexivity.
    - change (F2Q 0) with 0%Q. lra.
    - assert (E550 : (F2Q 550 == 550)%Q) by reflexivity. lra. }
  assert (W15 : within 0 83 (Math_round ((p - low) * 0.15))).
  { apply (span_share _ 0.15 83 83); [exact Wg|reflexivity|reflexivity|..]; qcompute. }
  assert (W65 : within 0 358 (Math_round ((p - low) * 0.65))).
  { apply (span_share _ 0.65 358 358); [exact Wg|reflexivity|reflexivity|..]; qcompute. }
  destruct W15 as (F15 & A15 & B15). destruct W65 as (F65 & A65 & B65).
  change (F2Q 0) with 0%Q in A15, A65.
  assert (E83 : (F2Q 83 == 83)%Q) by reflexivity.
  assert (E358 : (F2Q 358 == 358)%Q) by reflexivity.
  assert (E933 : (F2Q 933 == 933)%Q) by reflexivity.
  assert (E1208 : (F2Q 1208 == 1208)%Q) by reflexivity.
  destruct (add_bracket low (Math_round ((p - low) * 0.15)) low 933 Fl F15 Fl eq_refl)
    as (Fs & S1 & S2); [lra|lra|].
  destruct (add_bracket low (Math_round ((p - low) * 0.65)) low 1208 Fl F65 Fl eq_refl)
    as (Fr & R1 & R2); [lra|lra|].
  destruct (Math_min_fin i _ Fi Fs) as (EM & M1 & M2).
  split; [destruct EM as [-> | ->]; auto|].
  split; [destruct EM as [-> | ->]; lra|].
  split; [exact M1|]. split; [exact Fr|]. split; [exact R1|exact R2].
Qed.

(** X7.  On a profile of the data model the milestones keep their order up to
    the initial score: the stabilization score is at or above the dip and
    at or below the initial score, and the recovery score is at or above
    the dip. *)
Theorem runSimulation_milestone_bounds :
  forall data : UserData.t,
    documentedProfile data ->
    let r := runSimulation data in
    (SimulationResults.milestoneDipScore r <=?
     SimulationResults.milestoneStabilizationScore r) = true /\
    (SimulationResults.milestoneStabilizationScore r <=?
     SimulationResults.initialScore r) = true /\
    (SimulationResults.milestoneDipScore r <=?
     SimulationResults.milestoneRecoveryScore r) = true.
Proof.
  intros data D.
  destruct (scenario_facts data D) as (low & rm & ip & E & Wi & Wl & Li & Wr).
  destruct (runSimulation_milestone_fields data low rm ip E) as (E1 & _ & E3 & E4 & E5).
  cbv zeta. rewrite E1, E3, E4, E5.
  assert (Hw : unitWeights (weightsOf (numericData data)) = true)
    by (unfold weightsOf; apply weights_unit).
  pose proof (totalPotentialGainOf_within (numericData data) _ rm Hw Wr) as Wg.
  destruct (projected_above low _ Wl Wg) as (Fp & P1 & P2).
  destruct (milestones_facts _ low _ Wi Wl Li Fp P1 P2) as (Fs & S1 & S2 & Fr & R1 & _).
  destruct Wl as (Fl & _ & _). destruct Wi as (Fi & _ & _).
  split; [apply leb_Q; assumption|]. split; apply leb_Q; assumption.
Qed.

Lemma runSimulation_milestone_bounds_witness :
  let r := runSimulation (profile (Num 650) pre_enrollment) in
  (SimulationResults.milestoneDipScore r <=?
   SimulationResults.milestoneStabilizationScore r) = true /\
  (SimulationResults.milestoneStabilizationScore r <=?
   SimulationResults.initialScore r) = true /\
  (SimulationResults.milestoneDipScore r <=?
   SimulationResults.milestoneRecoveryScore r) = true.
Proof.
  apply (runSimulation_milestone_bounds (profile (Num 650) pre_enrollment)).
  unfold documentedProfile.
  split; [reflexivity|]. split; [reflexivity|].
  split; [right; right; left; reflexivity|]. split; [reflexivity|].
  split; [right; right; left; reflexivity|]. intros _. reflexivity.
Defined.

(** ** The chart of the results *)

(** X13.  On a profile of the data model, the five points of the chart are
    drawn within the frame, between 0 and 100 percent of the height,
    whatever the timeline; for an existing client the chart starts at the
    bottom, the start being the dip. *)
Theorem resultsChart_heights :
  forall (data : UserData.t) (timeline : float),
    documentedProfile data ->
    let chart := resultsChart (runSimulation data) timeline in
    Forall (fun pt => (0 <=? ChartPoint.y pt) = true /\ (ChartPoint.y pt <=? 100) = true)
           chart /\
    (UserData.scenarioType data = progress_tracker ->
     hd_error (map ChartPoint.y chart) = Some 0).
Proof.
  intros data timeline D.
  destruct (scenario_facts data D) as (low & rm & ip & E & Wi & Wl & Li & Wr).
  destruct (runSimulation_milestone_fields data low rm ip E) as (E1 & E2 & E3 & E4 & E5).
  cbv zeta. unfold resultsChart. rewrite E1, E2, E3, E4, E5.
  assert (Hw : unitWeights (weightsOf (numericData data)) = true)
    by (unfold weightsOf; apply weights_unit).
  pose proof (totalPotentialGainOf_within (numericData data) _ rm Hw Wr) as Wg.
  destruct (projected_above low _ Wl Wg) as (Fp & P1 & P2).
  destruct (milestones_facts _ low _ Wi Wl Li Fp P1 P2) as (Fs & S1 & S2 & Fr & R1 & R2).
  set (p := Math_min 850 (Math_round (low + totalPotentialGainOf (numericData data)
                                              (weightsOf (numericData data)) rm))) in *.
  set (i := initialScoreOf (numericData data)) in *.
  set (stab := Math_min i (low + Math_round ((p - low) * 0.15))) in *.
  set (rcv := low + Math_round ((p - low) * 0.65)) in *.
  destruct Wi as (Fi & I1 & I2). destruct Wl as (Fl & L1 & L2).
  assert (E300 : (F2Q 300 == 300)%Q) by reflexivity.
  assert (E850 : (F2Q 850 == 850)%Q) by reflexivity.
  assert (E1208 : (F2Q 1208 == 1208)%Q) by reflexivity.
  assert (E0 : (F2Q 0 == 0)%Q) by reflexivity.
  assert (E1000 : (F2Q 1000 == 1000)%Q) by reflexivity.
  assert (Y : forall s, is_finite s = true -> (F2Q low <= F2Q s)%Q -> (F2Q s <= F2Q 1208)%Q ->
              (0 <=? ScoreChart.calculateY low (ScoreChart.totalGain p low) s) = true /\
              (ScoreChart.calculateY low (ScoreChart.totalGain p low) s <=? 100) = true).
  { intros s Fs' A B.
    assert (Fd : is_finite (s - low) = true).
    { apply (sub_bracket s low 0 1000 Fs' Fl eq_refl eq_refl); lra. }
    pose proof (calculateY_within low p s Fd) as W.
    split; [apply (within_leb_lo 0 100)|apply (within_leb_hi 0 100)];
      solve [reflexivity|exact W]. }
  split.
  - unfold ScoreChart.points.
    repeat apply Forall_cons; try apply Forall_nil; cbn [ChartPoint.y].
    + apply Y; [exact Fi|exact Li|lra].
    + split; reflexivity.
    + apply Y; [exact Fs|exact S1|lra].
    + apply Y; [exact Fr|exact R1|exact R2].
    + split; reflexivity.
  - intro S. unfold ScoreChart.points. cbn [map hd_error ChartPoint.y]. f_equal.
    assert (El : low = i).
    { unfold i. rewrite (scenarioBranch_tracker data (numericData data) _ _ S) in E.
      injection E as E' _ _. symmetry. exact E'. }
    rewrite <- El. apply calculateY_at_dip. exact Fl.
Qed.

Lemma resultsChart_heights_witness :
  let chart := resultsChart (runSimulation (profile (Num 650) progress_tracker)) 30 in
  Forall (fun pt => (0 <=? ChartPoint.y pt) = true /\ (ChartPoint.y pt <=? 100) = true)
         chart /\
  hd_error (map ChartPoint.y chart) = Some 0.
Proof.
  assert (D : documentedProfile (profile (Num 650) progress_tracker)).
  { unfold documentedProfile.
    split; [reflexivity|]. split; [reflexivity|].
    split; [right; right; left; reflexivity|]. split; [reflexivity|].
    split; [right; right; left; reflexivity|]. intros _. reflexivity. }
  destruct (resultsChart_heights (profile (Num 650) progress_tracker) 30 D) as [H1 H2].
  split; [exact H1|]. apply H2. reflexivity.
Defined.

(** ** Whole scores *)

Lemma whole_of_Z z : (- 2 ^ 53 < z < 2 ^ 53)%Z -> whole z (JS.of_Z z).
Proof. intro H. exact (of_Z_exact z H). Qed.

Lemma whole_add a b x y :
  whole a x -> whole b y -> (- 2 ^ 53 < a + b < 2 ^ 53)%Z -> whole (a + b) (x + y).
Proof.
  intros (Fx & Vx) (Fy & Vy) H. destruct (of_Z_exact (a + b) H) as [F V].
  destruct (add_bracket x y (JS.of_Z (a + b)) (JS.of_Z (a + b)) Fx Fy F F) as (Fs & A & B).
  - rewrite V, Vx, Vy, inject_Z_plus. apply Qle_refl.
  - rewrite V, Vx, Vy, inject_Z_plus. apply Qle_refl.
  - split; [exact Fs|]. rewrite V in A, B. apply Qle_antisym; assumption.
Qed.

Lemma whole_sub a b x y :
  whole a x -> whole b y -> (- 2 ^ 53 < a - b < 2 ^ 53)%Z -> whole (a - b) (x - y).
Proof.
  intros (Fx & Vx) (Fy & Vy) H. destruct (of_Z_exact (a - b) H) as [F V].
  assert (E : (inject_Z (a - b) == inject_Z a - inject_Z b)%Q).
  { unfold Z.sub. rewrite inject_Z_plus, inject_Z_opp. reflexivity. }
  destruct (sub_bracket x y (JS.of_Z (a - b)) (JS.of_Z (a - b)) Fx Fy F F) as (Fs & A & B).
  - rewrite V, Vx, Vy, E. apply Qle_refl.
  - rewrite V, Vx, Vy, E. apply Qle_refl.
  - split; [exact Fs|]. rewrite V in A, B. apply Qle_antisym; assumption.
Qed.

Lemma whole_max a b x y : whole a x -> whole b y -> whole (Z.max a b) (Math_max x y).
Proof.
  intros (Fx & Vx) (Fy & Vy). destruct (Math_max_fin x y Fx Fy) as ([E|E] & A & B);
    rewrite E in *.
  - split; [exact Fx|]. rewrite Vx, Vy in B. rewrite <- Zle_Qle in B.
    rewrite Z.max_l by lia. exact Vx.
  - split; [exact Fy|]. rewrite Vx, Vy in A. rewrite <- Zle_Qle in A.
    rewrite Z.max_r by lia. exact Vy.
Qed.

Lemma whole_min a b x y : whole a x -> whole b y -> whole (Z.min a b) (Math_min x y).
Proof.
  intros (Fx & Vx) (Fy & Vy). destruct (Math_min_fin x y Fx Fy) as ([E|E] & A & B);
    rewrite E in *.
  - split; [exact Fx|]. rewrite Vx, Vy in B. rewrite <- Zle_Qle in B.
    rewrite Z.min_l by lia. exact Vx.
  - split; [exact Fy|]. rewrite Vx, Vy in A. rewrite <- Zle_Qle in A.
    rewrite Z.min_r by lia. exact Vy.
Qed.

(** [Math.round] of a number of moderate size has the value of
    [round_half_up]. *)
Lemma Math_round_value lo hi zl zh x :
  within lo hi x ->
  (F2Q lo == inject_Z zl)%Q -> (F2Q hi == inject_Z zh)%Q ->
  (- 2 ^ 52 < zl)%Z -> (zh < 2 ^ 52)%Z ->
  whole (round_half_up (F2Q x)) (Math_round x).
Proof.
  intros (Fx & X1 & X2) El Eh Hl Hh. rewrite El in X1. rewrite Eh in X2.
  assert (Hs : (4503599627370496 <=? abs x) = false).
  { apply leb_false_Q; [reflexivity|now rewrite abs_fin|].
    rewrite abs_F2Q.
    change (F2Q 4503599627370496) with (SF2Q (S754_finite false 4503599627370496 0)).
    assert (E52 : (SF2Q (S754_finite false 4503599627370496 0) == inject_Z (2 ^ 52))%Q) by reflexivity.
    rewrite E52.
    assert (A : (inject_Z zh < inject_Z (2 ^ 52))%Q) by (rewrite <- Zlt_Qlt; exact Hh).
    assert (B : (inject_Z (- 2 ^ 52) < inject_Z zl)%Q) by (rewrite <- Zlt_Qlt; exact Hl).
    rewrite inject_Z_opp in B.
    apply Qabs_case; intros; lra. }
  destruct (Math_round_small x Fx Hs) as (A & B & _). split; assumption.
Qed.

Lemma whole_between z x lo hi zl zh :
  whole z x -> within lo hi x ->
  (F2Q lo == inject_Z zl)%Q -> (F2Q hi == inject_Z zh)%Q -> (zl <= z <= zh)%Z.
Proof.
  intros (_ & V) (_ & A & B) El Eh. rewrite V, El in A. rewrite V, Eh in B.
  rewrite <- Zle_Qle in A, B. lia.
Qed.

(** A score that [Math.round] leaves as it is, is a whole number. *)
Lemma rounded_whole x :
  within 300 850 x -> Math_round x = x -> exists z, whole z x.
Proof.
  intros W E. exists (round_half_up (F2Q x)). rewrite <- E at 2.
  apply (Math_round_value 300 850 300 850); [exact W|reflexivity|reflexivity|lia|lia].
Qed.

Lemma initialScoreOf_whole data :
  (300 <=? Number (UserData.ficoScore data)) = true ->
  (Number (UserData.ficoScore data) <=? 850) = true ->
  Math_round (Number (UserData.ficoScore data)) = Number (UserData.ficoScore data) ->
  exists z, whole z (initialScoreOf (numericData data)).
Proof.
  intros L H R.
  assert (W : within 300 850 (Number (UserData.ficoScore data)))
    by (apply within_leb; solve [reflexivity|assumption]).
  unfold initialScoreOf, numericData. cbn [NumericData.ficoScore].
  assert (T : or_else (Number (UserData.ficoScore data)) 0 = Number (UserData.ficoScore data)).
  { unfold or_else. rewrite (within_truthy 300 850 _ W); [reflexivity|qcompute]. }
  rewrite T. destruct (300 <? Number (UserData.ficoScore data)).
  - apply rounded_whole; assumption.
  - exists 500%Z. split; reflexivity.
Qed.

(** The branch taken on a profile of the data model with a whole score:
    the two scores are whole numbers. *)
Lemma scenario_whole data :
  documentedProfile data ->
  Math_round (Number (UserData.ficoScore data)) = Number (UserData.ficoScore data) ->
  let n := numericData data in
  exists low rm ip zi zl,
    scenarioBranch data n (initialScoreOf n) (weightsOf n) = (low, rm, ip) /\
    within 300 850 (initialScoreOf n) /\ within 300 850 low /\
    within 12 60 rm /\
    whole zi (initialScoreOf n) /\ whole zl low /\ (300 <= zl <= zi)%Z /\ (zi <= 850)%Z.
Proof.
  intros D R n. pose proof D as (Lf & Hf & Hu & Hp & Ht & Hm).
  destruct (scenario_facts data D) as (low & rm & ip & E & Wi & Wl & Li & Wr).
  fold n in E, Wi, Li.
  destruct (initialScoreOf_whole data Lf Hf R) as (zi & Hi). fold n in Hi.
  assert (Bi : (300 <= zi <= 850)%Z)
    by (apply (whole_between zi _ 300 850 300 850 Hi Wi); reflexivity).
  assert (Hl : exists zl, whole zl low).
  { destruct (UserData.scenarioType data) eqn:S.
    - rewrite (scenarioBranch_new data n _ _ S) in E. injection E as E' _ _.
      assert (Hw : unitWeights (weightsOf n) = true) by (unfold weightsOf; apply weights_unit).
      destruct (impact_integer data (weightsOf n) Lf Hf Hu Hp Hw) as (zp & Bp & Ep).
      rewrite <- E', Ep. exists (Z.max 300 (zi - zp)).
      apply whole_max; [split; reflexivity|].
      apply whole_sub; [exact Hi|apply whole_of_Z; lia|lia].
    - rewrite (scenarioBranch_tracker data n _ _ S) in E. injection E as E' _ _.
      rewrite <- E'. exists zi. exact Hi. }
  destruct Hl as (zl & Hl).
  assert (Bl : (300 <= zl <= 850)%Z)
    by (apply (whole_between zl _ 300 850 300 850 Hl Wl); reflexivity).
  exists low, rm, ip, zi, zl.
  split; [exact E|]. split; [exact Wi|]. split; [exact Wl|]. split; [exact Wr|].
  split; [exact Hi|]. split; [exact Hl|]. split; [|lia].
  split; [lia|]. destruct Hi as (_ & Vi). destruct Hl as (_ & Vl).
  rewrite Vi, Vl in Li. rewrite <- Zle_Qle in Li. exact Li.
Qed.

(** The shares of a whole span: 15% is at most 65%, and 65% is at most
    the span. *)
Lemma shares_ordered g zg :
  whole zg g -> (0 <= zg <= 550)%Z ->
  within 0 83 (g * 0.15) /\ within 0 358 (g * 0.65) /\
  (F2Q (g * 0.15) <= F2Q (g * 0.65))%Q /\ (F2Q (g * 0.65) <= inject_Z zg)%Q.
Proof.
  intros (Fg & Vg) Bg.
  assert (C15 : (F2Q 0.15 == 5404319552844595 # 36028797018963968)%Q) by reflexivity.
  assert (C65 : (F2Q 0.65 == 5854679515581645 # 9007199254740992)%Q) by reflexivity.
  assert (E0 : (F2Q 0 == 0)%Q) by reflexivity.
  assert (E83 : (F2Q 83 == 83)%Q) by reflexivity.
  assert (E358 : (F2Q 358 == 358)%Q) by reflexivity.
  assert (G0 : (0 <= inject_Z zg)%Q) by (change 0%Q with (inject_Z 0); rewrite <- Zle_Qle; lia).
  assert (G1 : (inject_Z zg <= 550)%Q)
    by (change 550%Q with (inject_Z 550); rewrite <- Zle_Qle; lia).
  assert (W15 : within 0 83 (g * 0.15)).
  { apply mul_bracket; try assumption; try reflexivity; rewrite Vg, C15; [rewrite E0|rewrite E83]; nra. }
  assert (W65 : within 0 358 (g * 0.65)).
  { apply mul_bracket; try assumption; try reflexivity; rewrite Vg, C65; [rewrite E0|rewrite E358]; nra. }
  split; [exact W15|]. split; [exact W65|]. split.
  - destruct (Z.eq_dec zg 0) as [Z0|N0]; [|destruct (Z.eq_dec zg 1) as [Z1|N1]].
    + subst zg. change (inject_Z 0) with 0%Q in Vg.
      destruct (mul_bracket g 0.15 0 0 Fg eq_refl eq_refl eq_refl) as (_ & _ & B);
        [rewrite Vg, E0; lra|rewrite Vg, E0; lra|].
      destruct W65 as (_ & A & _). lra.
    + subst zg. assert (Eg : g = 1) by (apply value_inj; [exact Fg|reflexivity|reflexivity|rewrite Vg; reflexivity]).
      rewrite Eg. qcompute.
    + set (m := Qceiling (inject_Z zg * (5404319552844595 # 36028797018963968))).
      pose proof (Qle_ceiling (inject_Z zg * (5404319552844595 # 36028797018963968))) as M1.
      pose proof (Qceiling_lt (inject_Z zg * (5404319552844595 # 36028797018963968))) as M2.
      fold m in M1, M2. unfold Z.sub in M2. rewrite inject_Z_plus, inject_Z_opp in M2.
      change (inject_Z 1) with 1%Q in M2.
      assert (G2 : (2 <= inject_Z zg)%Q)
        by (change 2%Q with (inject_Z 2); rewrite <- Zle_Qle; lia).
      assert (Bm : (0 <= m <= 551)%Z).
      { split.
        - assert (inject_Z (-1) < inject_Z m)%Q by (change (inject_Z (-1)) with (-1 # 1)%Q; nra).
          rewrite <- Zlt_Qlt in H. lia.
        - assert (inject_Z m < inject_Z 552)%Q by (change (inject_Z 552) with 552%Q; nra).
          rewrite <- Zlt_Qlt in H. lia. }
      destruct (of_Z_exact m ltac:(lia)) as [Fm Vm].
      destruct (mul_bracket g 0.15 0 (JS.of_Z m) Fg eq_refl eq_refl Fm) as (_ & _ & B);
        [rewrite Vg, C15, E0; nra|rewrite Vg, C15, Vm; exact M1|].
      destruct (mul_bracket g 0.65 (JS.of_Z m) 358 Fg eq_refl Fm eq_refl) as (_ & A & _);
        [rewrite Vg, C65, Vm; nra|rewrite Vg, C65, E358; nra|].
      lra.
  - destruct (mul_bracket g 0.65 0 g Fg eq_refl eq_refl Fg) as (_ & _ & B);
      [rewrite Vg, C65, E0; nra|rewrite Vg, C65; nra|].
    rewrite Vg in B. exact B.
Qed.

Lemma round_half_up_le p q : (p <= q)%Q -> (round_half_up p <= round_half_up q)%Z.
Proof. intro H. unfold round_half_up. apply Qfloor_resp_le. lra. Qed.

(** X8.  On a profile of the data model whose score is a whole number, the
    milestones are in order up to the projected score: the stabilization
    score is at most the recovery score, and the recovery score at most
    the projected score, so that none exceeds 850. *)
Theorem runSimulation_milestone_order :
  forall data : UserData.t,
    documentedProfile data ->
    Math_round (Number (UserData.ficoScore data)) = Number (UserData.ficoScore data) ->
    let r := runSimulation data in
    (SimulationResults.milestoneStabilizationScore r <=?
     SimulationResults.milestoneRecoveryScore r) = true /\
    (SimulationResults.milestoneRecoveryScore r <=?
     SimulationResults.projectedScore r) = true /\
    (SimulationResults.projectedScore r <=? 850) = true.
Proof.
  intros data D R.
  destruct (scenario_whole data D R)
    as (low & rm & ip & zi & zl & E & Wi & Wl & Wr & Hi & Hl & Bl & Bi).
  destruct (runSimulation_milestone_fields data low rm ip E) as (_ & E2 & _ & E4 & E5).
  cbv zeta. rewrite E2, E4, E5. clear E2 E4 E5.
  assert (Hw : unitWeights (weightsOf (numericData data)) = true)
    by (unfold weightsOf; apply weights_unit).
  pose proof (totalPotentialGainOf_within (numericData data) _ rm Hw Wr) as Wg.
  set (G := totalPotentialGainOf (numericData data) (weightsOf (numericData data)) rm) in *.
  set (i := initialScoreOf (numericData data)) in *.
  (* the projected score *)
  assert (WS : within 300 1565 (low + G)).
  { apply (add_within 300 850 44 715); [exact Wl|exact Wg|..]; qcompute. }
  pose proof (Math_round_value 300 1565 300 1565 _ WS eq_refl eq_refl ltac:(lia) ltac:(lia)) as HR.
  set (zr := round_half_up (F2Q (low + G))) in *.
  assert (HP : whole (Z.min 850 zr) (Math_min 850 (Math_round (low + G)))).
  { apply whole_min; [split; reflexivity|exact HR]. }
  destruct (projected_above low G Wl Wg) as (Fp & P1 & P2).
  set (p := Math_min 850 (Math_round (low + G))) in *.
  set (zp := Z.min 850 zr) in *.
  assert (Bp : (zl <= zp <= 850)%Z).
  { destruct HP as (_ & Vp). destruct Hl as (_ & Vl).
    assert (E850 : (F2Q 850 == inject_Z 850)%Q) by reflexivity.
    rewrite Vp, Vl in P1. rewrite Vp, E850 in P2. rewrite <- Zle_Qle in P1, P2. lia. }
  (* the span and its shares *)
  assert (Hg : whole (zp - zl) (p - low)) by (apply whole_sub; [exact HP|exact Hl|lia]).
  destruct (shares_ordered _ _ Hg ltac:(lia)) as (W15 & W65 & S1 & S2).
  pose proof (Math_round_value 0 83 0 83 _ W15 eq_refl eq_refl ltac:(lia) ltac:(lia)) as H15.
  pose proof (Math_round_value 0 358 0 358 _ W65 eq_refl eq_refl ltac:(lia) ltac:(lia)) as H65.
  set (r15 := round_half_up (F2Q ((p - low) * 0.15))) in *.
  set (r65 := round_half_up (F2Q ((p - low) * 0.65))) in *.
  assert (B15 : (0 <= r15 <= 83)%Z).
  { apply (whole_between r15 _ 0 83 0 83 H15); [|reflexivity|reflexivity].
    apply (Math_round_within 0 83 0 83); [exact W15|reflexivity|reflexivity|lia|lia]. }
  assert (O1 : (r15 <= r65)%Z) by (apply round_half_up_le; exact S1).
  assert (O2 : (r65 <= zp - zl)%Z).
  { apply (round_half_up_bounds _ 0 (zp - zl)); [|exact S2].
    destruct W65 as (_ & A & _). exact A. }
  assert (HS : whole (zl + r15) (low + Math_round ((p - low) * 0.15)))
    by (apply whole_add; [exact Hl|exact H15|lia]).
  assert (HV : whole (zl + r65) (low + Math_round ((p - low) * 0.65)))
    by (apply whole_add; [exact Hl|exact H65|lia]).
  pose proof (whole_min _ _ _ _ Hi HS) as HM.
  destruct HM as (Fm & Vm). destruct HV as (Fv & Vv). destruct HP as (_ & Vp).
  split; [|split].
  - apply leb_Q; [exact Fm|exact Fv|]. rewrite Vm, Vv, <- Zle_Qle. lia.
  - apply leb_Q; [exact Fv|exact Fp|]. rewrite Vv, Vp, <- Zle_Qle. lia.
  - apply leb_Q; [exact Fp|reflexivity|exact P2].
Qed.

Lemma runSimulation_milestone_order_witness :
  let r := runSimulation (profile (Num 650) pre_enrollment) in
  (SimulationResults.milestoneStabilizationScore r <=?
   SimulationResults.milestoneRecoveryScore r) = true /\
  (SimulationResults.milestoneRecoveryScore r <=?
   SimulationResults.projectedScore r) = true /\
  (SimulationResults.projectedScore r <=? 850) = true.
Proof.
  apply (runSimulation_milestone_order (profile (Num 650) pre_enrollment)); [|reflexivity].
  unfold documentedProfile.
  split; [reflexivity|]. split; [reflexivity|].
  split; [right; right; left; reflexivity|]. split; [reflexivity|].
  split; [right; right; left; reflexivity|]. intros _. reflexivity.
Defined.

(** The score has to be whole: with a score of 849.2 an existing client
    gets a recovery score of 850.2, above the projected 850. *)
Remark milestone_order_fractional_score :
  let r := runSimulation (profile (Num 849.2) progress_tracker) in
  SimulationResults.projectedScore r = 850 /\
  (SimulationResults.milestoneRecoveryScore r <=? SimulationResults.projectedScore r) = false.
Proof. vm_compute. split; reflexivity. Qed.

(** ** Fields that the simulation does not read *)

(** X9.  The number of accounts enrolling, the number of settled accounts, the
    program phase and the contact fields have no effect on the result. *)
Theorem runSimulation_unread_fields :
  forall (data : UserData.t) (accountsEnrolling settledAccounts : field)
         (programPhase : ProgramPhase) (email firstName phone : string),
    runSimulation
      (withUnreadFields data accountsEnrolling settledAccounts programPhase
         email firstName phone)
    = runSimulation data.
Proof.
  intros data a s ph e f p. destruct data. unfold withUnreadFields.
  cbn [UserData.ficoScore UserData.totalDebt UserData.monthlyIncome UserData.utilization
       UserData.positiveAccounts UserData.oldestAccountAge UserData.programTimeline
       UserData.totalCreditLimit UserData.scenarioType UserData.monthsInProgram
       UserData.securedCard UserData.creditBuilder UserData.authorizedUser].
  unfold runSimulation, numericData, scenarioBranch, calculateWorstCaseImpact, worstCaseDrop,
    utilizationFactor, severityFactor, totalPotentialGainOf, toolGainOf, postDTIOf,
    initialScoreOf, weightsOf.
  reflexivity.
Qed.

(** ** The texts of the results page *)

Lemma penalty_string z :
  (20 <= z <= 150)%Z ->
  Number_toString (JS.of_Z z) = digits_of z /\ (0 <? JS.of_Z z) = true.
Proof.
  intro H. assert (P : penaltyStrings = true) by (vm_compute; reflexivity).
  unfold penaltyStrings in P. rewrite forallb_forall in P.
  specialize (P (Z.to_nat (z - 20))).
  assert (I : In (Z.to_nat (z - 20)) (seq 0 131)) by (apply in_seq; lia).
  specialize (P I). cbv zeta in P.
  replace (20 + Z.of_nat (Z.to_nat (z - 20)))%Z with z in P by lia.
  apply andb_true_iff in P. destruct P as [P1 P2].
  split; [apply String.eqb_eq; exact P1|exact P2].
Qed.

(** X14.  The explanation of the dip: for an existing client it always reads
    "a small amount"; for a new client of the data model the penalty is an
    integer N from 20 to 150 and the text reads "~N points", N written in
    decimal digits. *)
Theorem dipText_of_results :
  forall data : UserData.t,
    let r := runSimulation data in
    (UserData.scenarioType data = progress_tracker ->
     dipText (SimulationResults.impactPenalty r) = "a small amount"%string) /\
    (UserData.scenarioType data = pre_enrollment -> documentedProfile data ->
     exists z : Z,
       (20 <= z <= 150)%Z /\
       SimulationResults.impactPenalty r = JS.of_Z z /\
       dipText (SimulationResults.impactPenalty r) = ("~" ++ digits_of z ++ " points")%string).
Proof.
  intro data. cbv zeta. split.
  - intro S. unfold runSimulation.
    rewrite (scenarioBranch_tracker data (numericData data) _ _ S).
    cbn [SimulationResults.impactPenalty]. reflexivity.
  - intros S (Lf & Hf & Hu & Hp & _).
    assert (Hw : unitWeights (weightsOf (numericData data)) = true)
      by (unfold weightsOf; apply weights_unit).
    destruct (impact_integer data _ Lf Hf Hu Hp Hw) as (z & Hz & Ez).
    exists z. split; [exact Hz|]. unfold runSimulation.
    rewrite (scenarioBranch_new data (numericData data) _ _ S).
    cbn [SimulationResults.impactPenalty]. rewrite Ez. split; [reflexivity|].
    destruct (penalty_string z Hz) as [E1 E2]. unfold dipText. rewrite E2, E1. reflexivity.
Qed.

(** For the form of the example the penalty is 37 and the text
    "~37 points". *)
Lemma dipText_of_results_witness :
  dipText (SimulationResults.impactPenalty (runSimulation (profile (Num 650) progress_tracker)))
    = "a small amount"%string /\
  SimulationResults.impactPenalty (runSimulation (profile (Num 650) pre_enrollment)) = 37 /\
  dipText (SimulationResults.impactPenalty (runSimulation (profile (Num 650) pre_enrollment)))
    = "~37 points"%string.
Proof.
  split.
  - apply (proj1 (dipText_of_results (profile (Num 650) progress_tracker))). reflexivity.
  - assert (D : documentedProfile (profile (Num 650) pre_enrollment)).
    { unfold documentedProfile.
      split; [reflexivity|]. split; [reflexivity|].
      split; [right; right; left; reflexivity|]. split; [reflexivity|].
      split; [right; right; left; reflexivity|]. intros _. reflexivity. }
    destruct (proj2 (dipText_of_results (profile (Num 650) pre_enrollment)) eq_refl D)
      as (z & Hz & Ez & Et).
    assert (P : SimulationResults.impactPenalty
                  (runSimulation (profile (Num 650) pre_enrollment)) = 37) by reflexivity.
    assert (E : z = 37%Z).
    { destruct (of_Z_exact z ltac:(lia)) as [_ V]. rewrite <- Ez, P in V.
      assert (E37 : (F2Q 37 == inject_Z 37)%Q) by reflexivity.
      rewrite E37 in V. unfold Qeq in V. simpl in V. lia. }
    split; [exact P|]. rewrite Et, E. reflexivity.
Defined.

(** X15.  An existing client whose score is at most 850 is never shown a loss:
    the line under the projected score reads "A 0 point change" or
    "A +N point change". *)
Theorem scoreChangeText_existing_client :
  forall data : UserData.t,
    UserData.scenarioType data = progress_tracker ->
    (Number (UserData.ficoScore data) <=? 850) = true ->
    In (UserData.programTimeline data) programTimelines ->
    (0 <=? Number (UserData.monthsInProgram data)) = true ->
    let gain := SimulationResults.scoreGain (runSimulation data) in
    scoreChangeText gain = "A 0 point change"%string \/
    ((0 <? gain) = true /\
     scoreChangeText gain = ("A +" ++ Number_toString gain ++ " point change")%string).
Proof.
  intros data S Hf Ht Hm.
  set (n := numericData data). set (i := initialScoreOf n). set (w := weightsOf n).
  assert (Wi : within 300 850 i) by (apply initialScoreOf_within; exact Hf).
  assert (Hw : unitWeights w = true) by (unfold w, weightsOf; apply weights_unit).
  destruct (runSimulation_fields data _ _ _ (scenarioBranch_tracker data n i w S))
    as (_ & _ & _ & E3).
  cbv zeta. rewrite E3. fold n. fold i. fold w.
  set (rm := Math_max 12 (NumericData.programTimeline n - NumericData.monthsInProgram n)).
  assert (Wr : within 12 60 rm).
  { unfold rm, n, numericData. cbn [NumericData.programTimeline NumericData.monthsInProgram].
    apply recoveryMonths_within; assumption. }
  pose proof (totalPotentialGainOf_within n w rm Hw Wr) as Wg.
  destruct (projected_above i _ Wi Wg) as (Fp & P1 & P2).
  set (p := Math_min 850 (Math_round (i + totalPotentialGainOf n w rm))) in *.
  destruct Wi as (Fi & I1 & I2).
  assert (E300 : (F2Q 300 == 300)%Q) by reflexivity.
  assert (E850 : (F2Q 850 == 850)%Q) by reflexivity.
  destruct (sub_bracket p i 0 850 Fp Fi eq_refl eq_refl) as (Fg & G1 & _).
  { change (F2Q 0) with 0%Q. lra. }
  { lra. }
  change (F2Q 0) with 0%Q in G1. unfold scoreChangeText.
  destruct (0 <? p - i) eqn:L.
  - right. split; reflexivity.
  - left. apply (ltb_false_Q 0 _ eq_refl Fg) in L. change (F2Q 0) with 0%Q in L.
    assert (Z : is_zero (p - i) = true) by (apply (is_zero_Q _ Fg); lra).
    unfold Number_toString. rewrite (fin_notnan _ Fg), Z. reflexivity.
Qed.

Lemma scoreChangeText_existing_client_witness :
  let gain := SimulationResults.scoreGain (runSimulation (profile (Num 850) progress_tracker)) in
  scoreChangeText gain = "A 0 point change"%string \/
  ((0 <? gain) = true /\
   scoreChangeText gain = ("A +" ++ Number_toString gain ++ " point change")%string).
Proof.
  apply (scoreChangeText_existing_client (profile (Num 850) progress_tracker));
    try reflexivity.
  right. right. left. reflexivity.
Defined.
